(** * Recoll container filters: sub-document discovery and incremental extraction

    A shallow embedding of the Python filters [rclchm.py], [rclinfo.py],
    [rclics.py], [rclkar.py] and [rclzip.py], and the properties of the
    traversal and extraction engine that they implement.

    Conventions.
    - A Python [bytes] object is a [string] whose characters are the bytes.
    - A Python [str] object is represented by its UTF-8 encoding, also a
      [string].  Every [str] operation the filters use (comparison with an
      ASCII literal, [split] and [find] on an ASCII character, indexing the
      first character, concatenation, emptiness) commutes with that encoding.
    - Where the source lets a value be either of the two, the value is a
      [pystr], which keeps the Python type.
    - A call that can raise returns a [res]; the exception classes that the
      filters can meet are the constructors of [exn].
    - Library calls whose result is not computed by the filters themselves
      (codecs, the [re] engine on non-literal patterns, [HTMLParser],
      [urllib], the CHM and zip containers) are fields of a class or of a
      record and are quantified over in the theorems. *)

From Stdlib Require Import ZArith Lia Bool Ascii String List DecimalString QArith.
From stdpp Require Import base option list strings gmap.
Import ListNotations.

Local Open Scope string_scope.
Local Open Scope Z_scope.

(** ** Python values *)

Abbreviation bytes := string (only parsing).

Inductive pystr : Type :=
| PStr (s : string)
| PBytes (b : bytes).

#[global] Instance pystr_eq_dec : EqDecision pystr.
Proof. solve_decision. Defined.

#[global] Instance pystr_countable : Countable pystr :=
  inj_countable'
    (fun v => match v with PStr s => inl s | PBytes b => inr b end)
    (fun x => match x with inl s => PStr s | inr b => PBytes b end)
    (fun v => match v with PStr _ | PBytes _ => eq_refl end).

(** [str(i)] for an integer. *)
Definition str_of_int (i : Z) : string := NilZero.string_of_int (Z.to_int i).

Definition truthy (v : pystr) : bool :=
  match v with
  | PStr s => negb (String.eqb s "")
  | PBytes b => negb (String.eqb b "")
  end.

Inductive exn : Type :=
| UnboundLocalError
| LookupError
| UnicodeError
| TypeError
| ValueError
| IndexError
| AttributeError
| ReError.

Inductive res (A : Type) : Type :=
| Ok (a : A)
| Raise (e : exn).
Arguments Ok {A} a.
Arguments Raise {A} e.

#[global] Instance res_ret : MRet res := fun A a => Ok a.
#[global] Instance res_bind : MBind res := fun A B k m =>
  match m with
  | Ok a => k a
  | Raise e => Raise e
  end.

Definition of_option {A : Type} (e : exn) (o : option A) : res A :=
  match o with
  | Some a => Ok a
  | None => Raise e
  end.

(** [len(l)] as a Python integer. *)
Definition len {A : Type} (l : list A) : Z := Z.of_nat (length l).

(** ** String primitives of the Python runtime *)

Module Py.

Definition mem_char (c : ascii) (chars : string) : bool :=
  existsb (Ascii.eqb c) (list_ascii_of_string chars).

(** [s.split(sep)] for a one-character separator. *)
Fixpoint split (sep : ascii) (s : string) : list string :=
  match s with
  | EmptyString => [EmptyString]
  | String c s' =>
      if Ascii.eqb c sep then EmptyString :: split sep s'
      else match split sep s' with
           | [] => [String c EmptyString]
           | w :: ws => String c w :: ws
           end
  end.

(** [s.find(c) != -1] *)
Fixpoint has_char (c : ascii) (s : string) : bool :=
  match s with
  | EmptyString => false
  | String d s' => Ascii.eqb d c || has_char c s'
  end.

Fixpoint lstrip (chars s : string) : string :=
  match s with
  | EmptyString => EmptyString
  | String c s' => if mem_char c chars then lstrip chars s' else s
  end.

Fixpoint rstrip (chars s : string) : string :=
  match s with
  | EmptyString => EmptyString
  | String c s' =>
      match rstrip chars s' with
      | EmptyString => if mem_char c chars then EmptyString else String c EmptyString
      | r => String c r
      end
  end.

Definition strip (chars s : string) : string := lstrip chars (rstrip chars s).

Fixpoint startswith (s p : string) : bool :=
  match p, s with
  | EmptyString, _ => true
  | String a p', String b s' => Ascii.eqb a b && startswith s' p'
  | String _ _, EmptyString => false
  end.

(** [sep.join(l)] *)
Fixpoint join (sep : string) (l : list string) : string :=
  match l with
  | [] => ""
  | [x] => x
  | x :: l' => x ++ sep ++ join sep l'
  end.

(** ASCII lower-casing, the folding that [re.IGNORECASE] applies to a
    bytes pattern. *)
Definition lower (c : ascii) : ascii :=
  let n := nat_of_ascii c in
  if ((65 <=? n) && (n <=? 90))%nat then ascii_of_nat (n + 32) else c.

(** The literal [p] matches at the start of [s], ignoring ASCII case. *)
Fixpoint match_ci (p s : string) : bool :=
  match p, s with
  | EmptyString, _ => true
  | String a p', String b s' => Ascii.eqb (lower a) (lower b) && match_ci p' s'
  | String _ _, EmptyString => false
  end.

Fixpoint string_drop (n : nat) (s : string) : string :=
  match n, s with
  | O, _ => s
  | S n', String _ s' => string_drop n' s'
  | S _, EmptyString => EmptyString
  end.

(** What follows the leftmost case-insensitive occurrence of [p] in [s]. *)
Fixpoint after_first_ci (p s : string) : option string :=
  if match_ci p s then Some (string_drop (String.length p) s)
  else match s with
       | EmptyString => None
       | String _ s' => after_first_ci p s'
       end.

(** What precedes the rightmost case-insensitive occurrence of [p] in [s]. *)
Fixpoint before_last_ci (p s : string) : option string :=
  match s with
  | EmptyString => if match_ci p s then Some EmptyString else None
  | String c s' =>
      match before_last_ci p s' with
      | Some r => Some (String c r)
      | None => if match_ci p s then Some EmptyString else None
      end
  end.

(** What follows the first occurrence of the character [c] in [s]. *)
Fixpoint after_char (c : ascii) (s : string) : option string :=
  match s with
  | EmptyString => None
  | String d s' => if Ascii.eqb d c then Some s' else after_char c s'
  end.

(** [re.sub] of a literal pattern, ignoring case, by a replacement without
    escapes: every leftmost non-overlapping occurrence is replaced.
    [skip] counts the characters of the current occurrence still to drop. *)
Fixpoint sub_ci (skip : nat) (p repl s : string) : string :=
  match s with
  | EmptyString => EmptyString
  | String c s' =>
      match skip with
      | S k => sub_ci k p repl s'
      | O =>
          if match_ci p s then repl ++ sub_ci (String.length p - 1) p repl s'
          else String c (sub_ci 0 p repl s')
      end
  end.

End Py.

(** [l[i]] with Python's indexing: a negative index counts from the end, an
    index out of range raises [IndexError]. *)
Definition py_index {A : Type} (l : list A) (i : Z) : res A :=
  let j := if i <? 0 then len l + i else i in
  if j <? 0 then Raise IndexError
  else of_option IndexError (l !! Z.to_nat j).

(** A loop body run over a list, stopping at the first exception. *)
Fixpoint foldM {A S : Type} (f : S -> A -> res S) (l : list A) (s : S) : res S :=
  match l with
  | [] => Ok s
  | a :: l' => s' ← f s a; foldM f l' s'
  end.

(** The double quote, for the literals of the source that contain one. *)
Definition dq : string := String "034"%char EmptyString.

(** ** [posixpath] on bytes paths *)

Module PosixPath.

(** [p[:p.rfind(b"/") + 1]] *)
Fixpoint upto_last_sep (p : bytes) : bytes :=
  match p with
  | EmptyString => EmptyString
  | String c p' =>
      if Ascii.eqb c "/" || Py.has_char "/" p' then String c (upto_last_sep p')
      else EmptyString
  end.

Definition all_sep (p : bytes) : bool :=
  forallb (Ascii.eqb "/"%char) (list_ascii_of_string p).

Definition dirname (p : bytes) : bytes :=
  let head := upto_last_sep p in
  if negb (String.eqb head "") && negb (all_sep head) then Py.rstrip "/" head
  else head.

Fixpoint endswith_sep (p : bytes) : bool :=
  match p with
  | EmptyString => false
  | String c EmptyString => Ascii.eqb c "/"
  | String _ p' => endswith_sep p'
  end.

(** [p[p.rfind(b"/") + 1:]] *)
Definition basename (p : bytes) : bytes :=
  default "" (last (Py.split "/" p)).

(** [posixpath.join(a, b)] *)
Definition join (a b : bytes) : bytes :=
  if Py.startswith b "/" then b
  else if String.eqb a "" || endswith_sep a then a ++ b
  else a ++ "/" ++ b.

(** One round of the component loop of [normpath]. *)
Definition norm_step (initial_slashes : nat) (new_comps : list bytes) (comp : bytes)
  : list bytes :=
  if String.eqb comp "" || String.eqb comp "." then new_comps
  else if negb (String.eqb comp "..")
          || (Nat.eqb initial_slashes 0 && bool_decide (new_comps = []))
          || bool_decide (last new_comps = Some "..")
       then new_comps ++ [comp]
       else removelast new_comps.

(** POSIX allows one or two initial slashes, but treats three or more as a
    single slash. *)
Definition initial_slashes (path : bytes) : nat :=
  if Py.startswith path "/" then
    if Py.startswith path "//" && negb (Py.startswith path "///") then 2%nat else 1%nat
  else 0%nat.

Definition normpath (path : bytes) : bytes :=
  if String.eqb path "" then "."
  else
    let initial_slashes := initial_slashes path in
    let comps := fold_left (norm_step initial_slashes) (Py.split "/" path) [] in
    let path := Py.join "/" comps in
    let path := String.concat "" (replicate initial_slashes "/") ++ path in
    if String.eqb path "" then "." else path.

(** A list of components on which the loop of [normpath] changes nothing. *)
Definition stable (k : nat) (acc : list string) : Prop :=
  fold_left (norm_step k) acc [] = acc.

(** What the loop of [normpath] keeps: not empty, and without separator. *)
Definition component (c : string) : Prop := c <> "" /\ Py.has_char "/" c = false.

End PosixPath.

(** ** The execm protocol, [rclexecm] *)

Module RclExecM.

(** Modelled from the spec: the module [rclexecm] is not among the sources.
    Its end-of-stream constants are the three states of the transport
    contract, [noteof] for more, [eofnext] for lastItem and [eofnow] for
    alreadyDone.  The fourth constructor stands for the literal [True] that
    [rclinfo] and [rclics] put in that position for an index out of range. *)
Inductive eofstate : Type :=
| noteof
| eofnext
| eofnow
| eof_True.

(** The tuple [(ok, data, ipath, eof)] that every handler returns. *)
Definition reply : Type := bool * pystr * pystr * eofstate.

(** The helpers of [rclexecm] that the filters call. *)
Class Protocol : Type := {
  htmlescape : bytes -> bytes;
  makebytes : pystr -> bytes
}.

Definition is_eof (e : eofstate) : bool :=
  match e with
  | eofnext | eofnow => true
  | _ => false
  end.

End RclExecM.

(** ** [rclchm.py]: Microsoft Compiled Html Help files *)

Module RclChm.
Import RclExecM.

(** What [chmlib] hands back from a successful [ResolveObject]. *)
Definition UnitInfo : Type := nat.

(** The loaded [chm.CHMFile]: the queryable surface of the container.
    [ResolveObject p] is [Some ui] when the status is [CHM_RESOLVE_SUCCESS];
    [RetrieveObject ui] is the pair (length, data). *)
Record CHMFile : Type := {
  ResolveObject : bytes -> option UnitInfo;
  RetrieveObject : UnitInfo -> Z * bytes;
  GetTopicsTree : option bytes;
  home : option bytes;
  title : pystr
}.

(** One [handle_starttag] call of [HTMLParser]: the tag and its attributes;
    an attribute written without a value has the value [None]. *)
Definition starttag : Type := string * list (string * option string).

(** The library calls of the filter.  [str_encode cs s] is [s.encode(cs)],
    [bytes_decode cs b] is [b.decode(cs, errors="replace")] (it raises for an
    unknown codec), [asciito1252re_sub] and [findcharsetre_search] are the
    substitution and the search (group 1) by the two compiled charset
    expressions, [title_sub t doc] is the [re.sub] of [dumpall] with the
    replacement built from [t], [urlparse_urlparse] gives the scheme and the
    path, and [starttags text] is the sequence of [handle_starttag] calls that
    [HTMLParser.feed] makes on [text]. *)
Class Library : Type := {
  str_encode : string -> string -> res bytes;
  bytes_decode : string -> bytes -> res string;
  asciito1252re_sub : bytes -> bytes;
  findcharsetre_search : bytes -> option bytes;
  title_sub : bytes -> bytes -> res bytes;
  urllib_unquote : string -> string;
  urlparse_urlparse : string -> res (string * string);
  starttags : string -> list starttag
}.

Section Filter.
Context `{Library}.

(** [path.encode(charset)] when [path] is a [str] *)
Definition as_bytes (charset : string) (path : pystr) : res bytes :=
  match path with
  | PStr s => str_encode charset s
  | PBytes b => Ok b
  end.

Definition getfile (chmfile : CHMFile) (path : pystr) : res pystr :=
  match path with
  | PStr _ => Raise TypeError
  | PBytes path =>
      match ResolveObject chmfile path with
      | None => Ok (PStr "")
      | Some ui =>
          let '(r, doc) := RetrieveObject chmfile ui in
          if r =? 0 then Ok (PStr "") else Ok (PBytes doc)
      end
  end.

Definition peekfile (chmfile : CHMFile) (path : pystr) (charset : string) : res bool :=
  path ← as_bytes charset path;
  match ResolveObject chmfile path with
  | None => Ok false
  | Some _ => Ok true
  end.

(** The extractor object.  [isopen] is cleared by [CloseCHM]. *)
Record rclCHM : Type := {
  contents : list bytes;
  chm : CHMFile;
  isopen : bool;
  catenate : bool;
  currentindex : Z;
  charset : string;
  mimetype : string
}.

Definition set_contents (self : rclCHM) (c : list bytes) : rclCHM :=
  {| contents := c; chm := chm self; isopen := isopen self; catenate := catenate self;
     currentindex := currentindex self; charset := charset self; mimetype := mimetype self |}.

Definition set_currentindex (self : rclCHM) (i : Z) : rclCHM :=
  {| contents := contents self; chm := chm self; isopen := isopen self;
     catenate := catenate self; currentindex := i; charset := charset self;
     mimetype := mimetype self |}.

Definition set_charset (self : rclCHM) (cs : string) : rclCHM :=
  {| contents := contents self; chm := chm self; isopen := isopen self;
     catenate := catenate self; currentindex := currentindex self; charset := cs;
     mimetype := mimetype self |}.

Definition setmimetype (self : rclCHM) (mt : string) : rclCHM :=
  {| contents := contents self; chm := chm self; isopen := isopen self;
     catenate := catenate self; currentindex := currentindex self;
     charset := charset self; mimetype := mt |}.

Definition closefile (self : rclCHM) : rclCHM :=
  {| contents := contents self; chm := chm self; isopen := false;
     catenate := catenate self; currentindex := currentindex self;
     charset := charset self; mimetype := mimetype self |}.

(** [_headtagre.sub(b'<meta name="rclaptg" content="chm"></head>', doc)] *)
Definition rclaptg_head : bytes :=
  "<meta name=" ++ dq ++ "rclaptg" ++ dq ++ " content=" ++ dq ++ "chm" ++ dq ++ "></head>".

Definition headtagre_sub (doc : bytes) : bytes :=
  Py.sub_ci 0 "</head>" rclaptg_head doc.

Definition extractone (self : rclCHM) (path : pystr) (norclaptag : bool) : res reply :=
  path ← as_bytes (charset self) path;
  let iseof :=
    if currentindex self >=? len (contents self) - 1 then eofnext else noteof in
  match ResolveObject (chm self) path with
  | None => Ok (false, PStr "", PBytes path, iseof)
  | Some ui =>
      let '(r, doc) := RetrieveObject (chm self) ui in
      if r >? 0 then
        let doc := if norclaptag then doc else headtagre_sub doc in
        Ok (true, PBytes doc, PBytes path, iseof)
      else Ok (false, PStr "", PBytes path, iseof)
  end.

(** [_headerre.search(doc)], as a truth value: the expression, an opening
    [<head], anything, a closing [</head>], with IGNORECASE and DOTALL,
    matches when a closing tag follows the leftmost opening one. *)
Definition headerre_search (doc : bytes) : bool :=
  match Py.after_first_ci "<head" doc with
  | Some rest => bool_decide (is_Some (Py.after_first_ci "</head>" rest))
  | None => false
  end.

(** [_bodyre.search(doc)], group 1.  The expression is an opening [<body],
    characters other than [>], a [>], the greedy group, and [</body>], with
    IGNORECASE and DOTALL: the match starts at the leftmost opening tag, the
    tag ends at the first [>] after it, and the group runs to the last
    closing tag. *)
Definition bodyre_search (doc : bytes) : option bytes :=
  rest ← Py.after_first_ci "<body" doc;
  inner ← Py.after_char ">" rest;
  Py.before_last_ci "</body>" inner.

Definition dumpall_step (self : rclCHM) (acc : bytes * bool) (pth : bytes)
  : res (bytes * bool) :=
  let '(alltxt, first) := acc in
  '(ret, doc, _, _) ← extractone self (PBytes pth) true;
  if negb ret then Ok (alltxt, first)
  else
    doc ← match doc with PBytes d => Ok d | PStr _ => Raise TypeError end;
    '(alltxt, first) ←
      (if first && headerre_search doc then
         title ← as_bytes (charset self) (title (chm self));
         header ← title_sub title doc;
         Ok (alltxt ++ header ++ "<body>", false)
       else Ok (alltxt, first));
    match bodyre_search doc with
    | Some body => Ok (alltxt ++ body, first)
    | None => Ok (alltxt, first)
    end.

Definition dumpall (self : rclCHM) : res bytes :=
  '(alltxt, _) ← foldM (dumpall_step self) (contents self) ("", true);
  Ok (alltxt ++ "</body></html>").

Definition fixencoding (text : pystr) : res (string * string) :=
  match text with
  | PBytes text =>
      let text := asciito1252re_sub text in
      let charset :=
        match findcharsetre_search text with
        | Some g => g
        | None => "cp1252"
        end in
      text ← bytes_decode charset text;
      Ok (text, charset)
  | PStr _ => Raise UnboundLocalError
  end.

Definition getipath (self : rclCHM) (ipath : pystr) : res reply :=
  extractone self ipath false.

Definition getnext (self : rclCHM) : res (reply * rclCHM) :=
  if catenate self then
    alltxt ← dumpall self;
    let self := closefile self in
    if negb (String.eqb alltxt "") then Ok ((true, PBytes alltxt, PStr "", eofnext), self)
    else Ok ((false, PStr "", PStr "", eofnow), self)
  else if currentindex self =? -1 then
    let self := setmimetype (set_currentindex self 0) "text/plain" in
    if len (contents self) =? 0 then
      Ok ((true, PStr "", PStr "", eofnext), closefile self)
    else Ok ((true, PStr "", PStr "", noteof), self)
  else if currentindex self >=? len (contents self) then
    Ok ((false, PStr "", PStr "", eofnow), closefile self)
  else
    pth ← py_index (contents self) (currentindex self);
    ret ← extractone self (PBytes pth) false;
    let self := if is_eof (ret.2) then closefile self else self in
    Ok (ret, set_currentindex self (currentindex self + 1)).

(** [n] successive [getnext] calls and the tuples they return. *)
Fixpoint getnexts (n : nat) (self : rclCHM) : res (list reply * rclCHM) :=
  match n with
  | O => Ok ([], self)
  | S n' =>
      '(r, self) ← getnext self;
      '(rs, self) ← getnexts n' self;
      Ok (r :: rs, self)
  end.

(** *** Discovery from the topics tree: [ChmTopicsParser] *)

(** The value that the attribute loop leaves in a variable initialised with
    [init]: the value of the last attribute called [key]. *)
Definition attr_last (key : string) (init : option string)
  (attrs : list (string * option string)) : option string :=
  fold_left (fun acc a => if String.eqb a.1 key then a.2 else acc) attrs init.

(** [ChmTopicsParser.handle_starttag]; the parser object holds the extractor
    and appends to its [contents]. *)
Definition topics_handle_starttag (self : rclCHM) (t : starttag) : res rclCHM :=
  let '(tag, attrs) := t in
  if negb (String.eqb tag "param") then Ok self
  else
    let name := attr_last "name" (Some "") attrs in
    let value := attr_last "value" (Some "") attrs in
    if negb (bool_decide (name = Some "Local")) || bool_decide (value = Some "")
    then Ok self
    else
      (* [urllib_unquote(None)] raises *)
      value ← of_option TypeError value;
      let value := urllib_unquote value in
      localpath ←
        match Py.split ":" value with
        | [_] => Ok value
        | [_; file; _; last] =>
            if negb (String.eqb last "") && negb (String.eqb file "") then
              found ← peekfile (chm self) (PStr last) (charset self);
              Ok (if found : bool then last else "")
            else Ok ""
        | _ => Ok ""
        end;
      if negb (String.eqb localpath "") && negb (Py.has_char "#" localpath) then
        let localpath :=
          if Py.startswith localpath "/" then localpath else "/" ++ localpath in
        b ← str_encode (charset self) localpath;
        Ok (set_contents self (contents self ++ [b]))
      else Ok self.

(** [tp.feed(text)] *)
Definition topics_feed (self : rclCHM) (text : string) : res rclCHM :=
  foldM topics_handle_starttag (starttags text) self.

(** *** Discovery by following links: [ChmWalker] *)

Record ChmWalker : Type := {
  path : bytes;
  dir : bytes
}.

(** [ChmWalker.__init__]: the new walker, and the shared [contents] list
    after the append. *)
Definition ChmWalker_init (self : rclCHM) (p : pystr) (contents : list bytes)
  : res (ChmWalker * list bytes) :=
  p ← as_bytes (charset self) p;
  let np := PosixPath.normpath p in
  Ok ({| path := np; dir := PosixPath.dirname np |}, (contents ++ [np])%list).

(** How a call that appends to the shared list ends: the list as the call
    leaves it, and whether the call returned or raised.  [None] is reserved
    for a model that ran out of recursion depth. *)
Definition outcome : Type := list bytes * res unit.

(** The path that [ChmWalker.handle_starttag] extracts from a link.  The
    second disjunct of the source's test compares a bound method with a
    string and is always false. *)
Definition link_path (self : rclCHM) (href : option string) : res string :=
  (* [urlparse(None)] gives bytes fields, on which [split(":")] raises *)
  href ← of_option TypeError href;
  '(scheme, path) ← urlparse_urlparse href;
  if String.eqb scheme "" then
    match Py.split ":" path with
    | [_; _; p2] =>
        found ← peekfile (chm self) (PStr p2) (charset self);
        Ok (if found : bool then p2 else "")
    | [p0] => Ok p0
    | _ => Ok ""
    end
  else Ok "".

(** The body of the [try] block: enter the document at [npath]. *)
Definition descend (recurse : ChmWalker -> string -> list bytes -> option outcome)
  (self : rclCHM) (npath : bytes) (text : pystr) (contents : list bytes)
  : option outcome :=
  match ChmWalker_init self (PBytes npath) contents with
  | Raise e => Some (contents, Raise e)
  | Ok (newwalker, contents) =>
      match fixencoding text with
      | Raise e => Some (contents, Raise e)
      | Ok (t, _) => recurse newwalker t contents
      end
  end.

Definition walker_handle_starttag
  (recurse : ChmWalker -> string -> list bytes -> option outcome)
  (self : rclCHM) (w : ChmWalker) (t : starttag) (contents : list bytes)
  : option outcome :=
  let '(tag, attrs) := t in
  if negb (String.eqb tag "a") then Some (contents, Ok ())
  else
    let href := attr_last "href" (Some "") attrs in
    match link_path self href with
    | Raise e => Some (contents, Raise e)
    | Ok path =>
        if String.eqb path "" then Some (contents, Ok ())
        else
          match str_encode (charset self) path with
          | Raise e => Some (contents, Raise e)
          | Ok bpath =>
              let npath :=
                if Py.startswith path "/" then PosixPath.normpath bpath
                else PosixPath.normpath (PosixPath.join (dir w) bpath) in
              if bool_decide (npath ∈ contents) then Some (contents, Ok ())
              else
                match getfile (chm self) (PBytes npath) with
                | Raise e => Some (contents, Raise e)
                | Ok text =>
                    if truthy text then
                      (* try: ... except: pass *)
                      match descend recurse self npath text contents with
                      | None => None
                      | Some (contents, _) => Some (contents, Ok ())
                      end
                    else Some (contents, Ok ())
                end
          end
    end.

(** The parser's loop over the start tags of one document. *)
Fixpoint feed_tags (handle : starttag -> list bytes -> option outcome)
  (tags : list starttag) (contents : list bytes) : option outcome :=
  match tags with
  | [] => Some (contents, Ok ())
  | t :: tags' =>
      match handle t contents with
      | None => None
      | Some (contents, Ok _) => feed_tags handle tags' contents
      | Some (contents, Raise e) => Some (contents, Raise e)
      end
  end.

(** [walker.feed(text)].  [depth] bounds the nesting of walkers. *)
Fixpoint walker_feed (depth : nat) (self : rclCHM) (w : ChmWalker) (text : string)
  (contents : list bytes) : option outcome :=
  match depth with
  | O => None
  | S depth' =>
      feed_tags (walker_handle_starttag (walker_feed depth' self) self w)
        (starttags text) contents
  end.

(** *** [openfile] *)

(** Eliminate duplicates but keep order. *)
Fixpoint uniq (u : gset bytes) (l : list bytes) : list bytes :=
  match l with
  | [] => []
  | t :: l' =>
      if bool_decide (t ∈ u) then uniq u l' else t :: uniq ({[t]} ∪ u) l'
  end.

Definition load (self : rclCHM) (c : CHMFile) : rclCHM :=
  {| contents := []; chm := c; isopen := true; catenate := catenate self;
     currentindex := -1; charset := "cp1252"; mimetype := mimetype self |}.

Definition finish_open (self : rclCHM) : res (bool * rclCHM) :=
  Ok (true, set_contents self (uniq ∅ (contents self))).

(** [openfile]; [loaded] is the outcome of [LoadCHM(filename)]. *)
Definition openfile (depth : nat) (self : rclCHM) (loaded : option CHMFile)
  : option (res (bool * rclCHM)) :=
  match loaded with
  | None => Some (Ok (false, set_contents (set_currentindex self (-1)) []))
  | Some c =>
      let self := load self c in
      match GetTopicsTree c with
      | Some (String _ _ as topics) =>
          Some ('(text, cs) ← fixencoding (PBytes topics);
                let self := set_charset self cs in
                self ← topics_feed self text;
                finish_open self)
      | _ =>
          match home c with
          | Some (String h0 _ as chm_home) =>
              let home := if Ascii.eqb h0 "/" then chm_home else "/" ++ chm_home in
              match getfile c (PBytes home) with
              | Raise e => Some (Raise e)
              | Ok text =>
                  if negb (truthy text) then Some (Ok (false, self))
                  else
                    match ChmWalker_init self (PBytes chm_home) (contents self) with
                    | Raise e => Some (Raise e)
                    | Ok (walker, contents) =>
                        match fixencoding text with
                        | Raise e => Some (Raise e)
                        | Ok (text, cs) =>
                            let self := set_charset self cs in
                            match walker_feed depth self walker text contents with
                            | None => None
                            | Some (_, Raise e) => Some (Raise e)
                            | Some (contents, Ok _) =>
                                Some (finish_open (set_contents self contents))
                            end
                        end
                    end
              end
          | _ => Some (Ok (false, self))
          end
      end
  end.

End Filter.
End RclChm.

(** ** [rclinfo.py]: GNU info files *)

Module RclInfo.
Import RclExecM.

Definition nl : string := String "010"%char EmptyString.
Definition cr : string := String "013"%char EmptyString.

(** What the splitter prints on stderr. *)
Inductive diagnostic : Type :=
| BadLine (line : bytes)
| DupNode (nodename : pystr)
| UpDoesNotExist (title : bytes) (up : pystr)
| BadTreeLooping.

Section Extractor.
Context `{Protocol}.

Record InfoExtractor : Type := {
  contents : list (bytes * bytes);
  currentindex : Z;
  mimetype : string
}.

Definition set_currentindex (self : InfoExtractor) (i : Z) : InfoExtractor :=
  {| contents := contents self; currentindex := i; mimetype := mimetype self |}.

Definition setmimetype (self : InfoExtractor) (mt : string) : InfoExtractor :=
  {| contents := contents self; currentindex := currentindex self; mimetype := mt |}.

Definition page (nodename docdata : bytes) : bytes :=
  nl ++ "<html>" ++ nl ++ "  <head>" ++ nl ++ "      <title>" ++ nodename
  ++ "</title>" ++ nl
  ++ "      <meta name=" ++ dq ++ "rclaptg" ++ dq ++ " content=" ++ dq ++ "gnuinfo"
  ++ dq ++ ">" ++ nl
  ++ "   </head>" ++ nl ++ "   <body>" ++ nl
  ++ "   <pre style=" ++ dq ++ "white-space: pre-wrap" ++ dq ++ ">" ++ nl ++ "   "
  ++ docdata ++ nl ++ "   </pre></body>" ++ nl ++ "</html>" ++ nl.

Definition extractone (self : InfoExtractor) (index : Z) : res (reply * InfoExtractor) :=
  if index >=? len (contents self) then Ok ((false, PStr "", PStr "", eof_True), self)
  else
    '(nodename, docdata) ← py_index (contents self) index;
    let docdata := page (htmlescape nodename) (htmlescape docdata) in
    let iseof :=
      if currentindex self >=? len (contents self) - 1 then eofnext else noteof in
    Ok ((true, PBytes docdata, PStr (str_of_int index), iseof),
        setmimetype self "text/html").

(** [getipath]; [index] is the outcome of [int(params["ipath"])]. *)
Definition getipath (self : InfoExtractor) (index : res Z) : res (reply * InfoExtractor) :=
  match index with
  | Raise _ => Ok ((false, PStr "", PStr "", eof_True), self)
  | Ok index => extractone self index
  end.

Definition getnext (self : InfoExtractor) : res (reply * InfoExtractor) :=
  if currentindex self =? -1 then
    let self := setmimetype (set_currentindex self 0) "text/plain" in
    let eof := if len (contents self) =? 0 then eofnext else noteof in
    Ok ((true, PStr "", PStr "", eof), self)
  else if currentindex self >=? len (contents self) then
    Ok ((false, PStr "", PStr "", eofnow), self)
  else
    '(ret, self) ← extractone self (currentindex self);
    Ok (ret, set_currentindex self (currentindex self + 1)).

Fixpoint getnexts (n : nat) (self : InfoExtractor) : res (list reply * InfoExtractor) :=
  match n with
  | O => Ok ([], self)
  | S n' =>
      '(r, self) ← getnext self;
      '(rs, self) ← getnexts n' self;
      Ok (r :: rs, self)
  end.

End Extractor.

(** *** [InfoSimpleSplitter.splitinfo] *)

(** The variables of the first loop. *)
Record splitter : Type := {
  gotblankline : bool;
  index : Z;
  listout : list (pystr * bytes);
  node_dict : gmap pystr bytes;
  node : bytes;
  infofile : bytes;
  nodename : pystr;
  stderr : list diagnostic
}.

(** The loop over the pairs of a header line, inside the [try]: the values of
    [nodename], [up] and [infofile] when the loop stops, and whether it ran
    to its end ([false] when unpacking a pair raised). *)
Fixpoint parse_pairs (pairs : list bytes) (nodename : pystr) (up infofile : bytes)
  : pystr * bytes * bytes * bool :=
  match pairs with
  | [] => (nodename, up, infofile, true)
  | pr :: pairs' =>
      match Py.split ":" pr with
      | [name; value] =>
          let name := Py.strip " " name in
          let value := Py.strip " " value in
          let nodename := if String.eqb name "Node" then PBytes value else nodename in
          let up := if String.eqb name "Up" then value else up in
          let infofile := if String.eqb name "File" then value else infofile in
          parse_pairs pairs' nodename up infofile
      | _ => (nodename, up, infofile, false)
      end
  end.

Definition is_header (st : splitter) (line : bytes) : bool :=
  gotblankline st && Py.startswith (Py.lstrip " " line) "File: ".

(** One round of the loop over the lines of the stream. *)
Definition split_line (st : splitter) (line : bytes) : splitter :=
  if is_header st line then
    let prevnodename := nodename st in
    let line := Py.rstrip (nl ++ cr) line in
    let '(nodename', up, infofile', completed) :=
      parse_pairs (Py.split "," line) (PStr (str_of_int (index st))) "Top" (infofile st) in
    if completed : bool then
      {| gotblankline := String.eqb (Py.rstrip (nl ++ cr) line) "";
         index := index st + 1;
         listout :=
           if index st =? 0 then listout st
           else (listout st ++ [(prevnodename, node st)])%list;
         node_dict := <[nodename' := up]> (node_dict st);
         node := "" ++ line;
         infofile := infofile';
         nodename := nodename';
         stderr :=
           if bool_decide (is_Some (node_dict st !! nodename'))
           then (stderr st ++ [DupNode nodename'])%list else stderr st |}
    else
      {| gotblankline := gotblankline st;
         index := index st;
         listout := listout st;
         node_dict := node_dict st;
         node := node st ++ line;
         infofile := infofile';
         nodename := prevnodename;
         stderr := (stderr st ++ [BadLine line])%list |}
  else
    {| gotblankline := String.eqb (Py.rstrip (nl ++ cr) line) "";
       index := index st;
       listout := listout st;
       node_dict := node_dict st;
       node := node st ++ line;
       infofile := infofile st;
       nodename := nodename st;
       stderr := stderr st |}.

Definition split_init (filename : bytes) : splitter :=
  {| gotblankline := true; index := 0; listout := []; node_dict := ∅; node := "";
     infofile := PosixPath.basename filename; nodename := PBytes "Unknown";
     stderr := [] |}.

(** File done, add last dangling node. *)
Definition split_done (st : splitter) : list (pystr * bytes) :=
  if String.eqb (node st) "" then listout st
  else (listout st ++ [(nodename st, node st)])%list.

(** The [while] loop that concatenates the Up values.  [hops] is what is
    left of the 50 rounds that the [loop] counter allows before the next
    test [loop > 50] succeeds.  The outcome is the title, or the diagnostic
    printed when [error] is set. *)
Fixpoint climb (node_dict : gmap pystr bytes) (hops : nat) (nodename : pystr)
  (title : bytes) : res (bytes + diagnostic) :=
  if bool_decide (nodename = PBytes "Top") then Ok (inl title)
  else
    match nodename with
    | PStr _ => Raise TypeError
    | PBytes name =>
        let title := name ++ " / " ++ title in
        match node_dict !! nodename with
        | None => Ok (inr (UpDoesNotExist title nodename))
        | Some up =>
            match hops with
            | O => Ok (inr BadTreeLooping)
            | S hops' => climb node_dict hops' (PBytes up) title
            end
        end
    end.

(** One round of the second loop. *)
Definition title_step (node_dict : gmap pystr bytes) (infofile : bytes)
  (acc : list (bytes * bytes) * list diagnostic) (entry : pystr * bytes)
  : res (list (bytes * bytes) * list diagnostic) :=
  let '(listout1, err) := acc in
  let '(nodename, node) := entry in
  outcome ← climb node_dict 50 nodename "";
  match outcome with
  | inr d => Ok (listout1, (err ++ [d])%list)
  | inl title =>
      let title := if String.eqb title "" then infofile else infofile ++ " / " ++ title in
      let title := Py.rstrip " / " title in
      Ok ((listout1 ++ [(title, node)])%list, err)
  end.

(** [splitinfo(filename, fin)]: the list returned and what was printed. *)
Definition splitinfo (filename : bytes) (fin : list bytes)
  : res (list (bytes * bytes) * list diagnostic) :=
  let st := fold_left split_line fin (split_init filename) in
  foldM (title_step (node_dict st) (infofile st)) (split_done st) ([], stderr st).

End RclInfo.

(** ** [rclics.py]: calendar files *)

Module RclIcs.
Import RclExecM.

Record IcalExtractor : Type := {
  contents : list bytes;
  currentindex : Z;
  mimetype : string
}.

Definition set_currentindex (self : IcalExtractor) (i : Z) : IcalExtractor :=
  {| contents := contents self; currentindex := i; mimetype := mimetype self |}.

Definition setmimetype (self : IcalExtractor) (mt : string) : IcalExtractor :=
  {| contents := contents self; currentindex := currentindex self; mimetype := mt |}.

Definition extractone (self : IcalExtractor) (index : Z) : res (reply * IcalExtractor) :=
  if index >=? len (contents self) then Ok ((false, PStr "", PStr "", eof_True), self)
  else
    docdata ← py_index (contents self) index;
    let iseof :=
      if currentindex self >=? len (contents self) - 1 then eofnext else noteof in
    Ok ((true, PBytes docdata, PStr (str_of_int index), iseof),
        setmimetype self "text/plain").

(** [getipath]; [int_ipath] is the outcome of [int(params["ipath"])]. *)
Definition getipath (self : IcalExtractor) (ipath : bytes) (int_ipath : res Z)
  : res (reply * IcalExtractor) :=
  match (if String.eqb ipath "" then Ok 0 else int_ipath) with
  | Raise _ => Ok ((false, PStr "", PStr "", eof_True), self)
  | Ok index => extractone self index
  end.

Definition getnext (self : IcalExtractor) : res (reply * IcalExtractor) :=
  if currentindex self =? -1 then
    let self := setmimetype (set_currentindex self 0) "text/plain" in
    let eof := if len (contents self) =? 0 then eofnext else noteof in
    Ok ((true, PStr "", PStr "", eof), self)
  else if currentindex self >=? len (contents self) then
    Ok ((false, PStr "", PStr "", eofnow), self)
  else
    '(ret, self) ← extractone self (currentindex self);
    Ok (ret, set_currentindex self (currentindex self + 1)).

Fixpoint getnexts (n : nat) (self : IcalExtractor) : res (list reply * IcalExtractor) :=
  match n with
  | O => Ok ([], self)
  | S n' =>
      '(r, self) ← getnext self;
      '(rs, self) ← getnexts n' self;
      Ok (r :: rs, self)
  end.

(** *** [ICalSimpleSplitter.splitcalendar] *)

(** The bytes that [rstrip()] removes when it gets no argument: the ASCII
    whitespace. *)
Definition whitespace : string :=
  String " " (String "009" (String "010" (String "011" (String "012"
    (String "013" EmptyString))))).

Definition nl : string := String "010"%char EmptyString.

(** [b.upper()] on bytes: the ASCII letters only. *)
Definition upper_char (c : ascii) : ascii :=
  let n := nat_of_ascii c in
  if ((97 <=? n) && (n <=? 122))%nat then ascii_of_nat (n - 32) else c.

Definition upper (b : bytes) : bytes :=
  string_of_list_ascii (map upper_char (list_ascii_of_string b)).

Definition interesting : list bytes := ["VTODO"; "VEVENT"; "VJOURNAL"].

(** The variables of the loop over the lines. *)
Record blocks : Type := {
  curblkname : bytes;
  curblk : bytes;
  lo : list bytes
}.

(** One round of the loop over the lines of the file. *)
Definition split_step (st : blocks) (line : bytes) : blocks :=
  let line := Py.rstrip whitespace line in
  if String.eqb line "" then st
  else
    let curblk1 :=
      if negb (String.eqb (curblkname st) "") then curblk st ++ line ++ nl
      else curblk st in
    match Py.split ":" line with
    | l0 :: l1 :: _ =>
        (* not currently inside a block and an interesting BEGIN: start block *)
        let '(curblkname2, curblk2) :=
          if String.eqb (curblkname st) "" && String.eqb (upper l0) "BEGIN" then
            let name := upper l1 in
            if bool_decide (name ∈ interesting) then (name, curblk1 ++ line ++ nl)
            else (curblkname st, curblk1)
          else (curblkname st, curblk1) in
        (* currently accumulating block lines: check for end *)
        if negb (String.eqb curblkname2 "") && String.eqb (upper l0) "END"
           && String.eqb (upper l1) curblkname2
        then {| curblkname := ""; curblk := ""; lo := lo st ++ [curblk2] |}
        else {| curblkname := curblkname2; curblk := curblk2; lo := lo st |}
    | _ => {| curblkname := curblkname st; curblk := curblk1; lo := lo st |}
    end.

Definition split_init : blocks := {| curblkname := ""; curblk := ""; lo := [] |}.

Definition splitcalendar (fin : list bytes) : list bytes :=
  let st := fold_left split_step fin split_init in
  if negb (String.eqb (curblk st) "") then lo st ++ [curblk st] else lo st.

(** [openfile], with the internal splitter; [calstr] is the outcome of
    opening the file, its lines when it could be opened. *)
Definition openfile (self : IcalExtractor) (calstr : option (list bytes))
  : bool * IcalExtractor :=
  match calstr with
  | None => (false, self)
  | Some fin =>
      (true,
       {| contents := splitcalendar fin; currentindex := -1; mimetype := mimetype self |})
  end.

End RclIcs.

(** ** [rclzip.py]: zip archives *)

Module RclZip.
Import RclExecM.

(** A [ZipInfo]: the declared size, and the outcome of turning [date_time]
    into the text of a timestamp. *)
Record ZipInfo : Type := {
  file_size : Z;
  timestamp : res string
}.

(** The open [ZipFile].  [getinfo] is [None] when the name is not in the
    catalog ([KeyError]). *)
Record ZipFile : Type := {
  getinfo : pystr -> option ZipInfo;
  read : pystr -> res bytes;
  namelist : list pystr
}.

Inductive logged : Type :=
| TooBig (ipath : pystr) (file_size : Z).

(** The extractor and the protocol object [em] that it writes to.  [reads]
    keeps the names given to [zip.read], in order. *)
Record ZipExtractor : Type := {
  zip : option ZipFile;
  currentindex : Z;
  maxmembersize : Z;
  rclog : list logged;
  fields : list (string * pystr);
  reads : list pystr
}.

Definition closefile (self : ZipExtractor) : ZipExtractor :=
  {| zip := None; currentindex := currentindex self; maxmembersize := maxmembersize self;
     rclog := rclog self; fields := fields self; reads := reads self |}.

Definition log (self : ZipExtractor) (entry : logged) : ZipExtractor :=
  {| zip := zip self; currentindex := currentindex self;
     maxmembersize := maxmembersize self; rclog := rclog self ++ [entry];
     fields := fields self; reads := reads self |}.

Definition setfield (self : ZipExtractor) (name : string) (value : pystr) : ZipExtractor :=
  {| zip := zip self; currentindex := currentindex self;
     maxmembersize := maxmembersize self; rclog := rclog self;
     fields := fields self ++ [(name, value)]; reads := reads self |}.

Definition note_read (self : ZipExtractor) (ipath : pystr) : ZipExtractor :=
  {| zip := zip self; currentindex := currentindex self;
     maxmembersize := maxmembersize self; rclog := rclog self;
     fields := fields self; reads := reads self ++ [ipath] |}.

Definition basename (ipath : pystr) : pystr :=
  match ipath with
  | PStr s => PStr (PosixPath.basename s)
  | PBytes b => PBytes (PosixPath.basename b)
  end.

(** The inner [try]: the two fields, the second one only when the date is a
    valid one. *)
Definition set_member_fields (self : ZipExtractor) (ipath : pystr) (info : ZipInfo)
  : ZipExtractor :=
  let self := setfield self "filename" (basename ipath) in
  match timestamp info with
  | Ok t => setfield self "modificationdate" (PStr t)
  | Raise _ => self
  end.

(** The outer [try]: [ok], [docdata] and the extractor afterwards. *)
Definition fetch (self : ZipExtractor) (z : ZipFile) (ipath : pystr)
  : bool * pystr * ZipExtractor :=
  match getinfo z ipath with
  | None => (false, PStr "", self)
  | Some info =>
      if file_size info >? maxmembersize self then
        let self := log self (TooBig ipath (file_size info)) in
        (true, PStr "", set_member_fields self ipath info)
      else
        let self := note_read self ipath in
        match read z ipath with
        | Raise _ => (false, PStr "", self)
        | Ok docdata => (true, PBytes docdata, set_member_fields self ipath info)
        end
  end.

Definition extractone `{Protocol} (self : ZipExtractor) (ipath : pystr)
  : res (reply * ZipExtractor) :=
  match zip self with
  | None => Raise AttributeError
  | Some z =>
      let '(ok, docdata, self) := fetch self z ipath in
      if currentindex self >=? len (namelist z) - 1 then
        Ok ((ok, docdata, PBytes (makebytes ipath), eofnext), closefile self)
      else Ok ((ok, docdata, PBytes (makebytes ipath), noteof), self)
  end.

End RclZip.

(** ** [rclkar.py]: MIDI karaoke files *)

Module RclKar.
Import RclExecM.

Definition nlbytes : bytes := String "010"%char EmptyString.

(** The events of the decoded stream that the filter tells apart. *)
Inductive event : Type :=
| TextMetaEvent (data : bytes)
| LryricsEvent (data : bytes)
| TrackNameEvent (data : bytes)
| OtherEvent.

(** [codecs_known name]: [codecs.lookup] finds a codec for the [str] name.
    [chardet_detect_raw] is [chardet.detect], with its encoding (which can be
    [None]) and its confidence.  [classifier] is the stop-words classifier,
    [None] when it cannot be built; it returns the language, the code and the
    count.  [bytes_decode_ignore cs b] is [b.decode(cs, "ignore")]. *)
Class Library : Type := {
  codecs_known : string -> bool;
  has_chardet : bool;
  chardet_detect_raw : bytes -> option string * Q;
  classifier : option (bytes -> res (string * string * Z));
  bytes_decode_ignore : string -> bytes -> res string
}.

Section Filter.
Context `{Library} `{Protocol}.

(** [codecs.lookup(encoding)]: the argument must be a [str]. *)
Definition codecs_lookup (encoding : pystr) : res unit :=
  match encoding with
  | PStr name => if codecs_known name then Ok () else Raise LookupError
  | PBytes _ => Raise TypeError
  end.

Definition acceptnullencodings : list string :=
  [ "csucs4"; "csunicode"; "csunicode11"; "iso-10646-ucs-2"; "iso-10646-ucs-4";
    "u16"; "u32"; "ucs-2"; "ucs-2-internal"; "ucs-2-swapped"; "ucs-2be"; "ucs-2le";
    "ucs-4"; "ucs-4-internal"; "ucs-4-swapped"; "ucs-4be"; "ucs-4le"; "unicode-1-1";
    "unicodebig"; "unicodelittle"; "utf-16"; "utf-16be"; "utf-16le"; "utf-32";
    "utf-32be"; "utf-32le"; "utf16"; "utf32"; "utf_16"; "utf_16_be"; "utf_16_le";
    "utf_32"; "utf_32_be"; "utf_32_le" ].

Definition str_lower (s : string) : string :=
  string_of_list_ascii (map Py.lower (list_ascii_of_string s)).

(** What precedes the first null byte of [data], if there is one. *)
Fixpoint before_null (data : bytes) : option bytes :=
  match data with
  | EmptyString => None
  | String c data' =>
      if Ascii.eqb c "000" then Some EmptyString
      else match before_null data' with
           | Some d => Some (String c d)
           | None => None
           end
  end.

(** [nulltrunc(data)]: the truncated data, and [hadnulls] afterwards. *)
Definition nulltrunc (hadnulls : bool) (data : bytes) : bytes * bool :=
  match before_null data with
  | Some d => (d, true)
  | None => (data, hadnulls)
  end.

Definition is_letter (c : ascii) : bool :=
  let n := nat_of_ascii c in
  ((97 <=? n) && (n <=? 122) || (65 <=? n) && (n <=? 90))%nat.

(** The end of the filename expression: a dot, letters, and the end of the
    name (or a newline that ends it). *)
Fixpoint letters_to_end (s : string) : bool :=
  match s with
  | EmptyString => true
  | String c s' =>
      if is_letter c then letters_to_end s'
      else Ascii.eqb c "010" && String.eqb s' ""
  end.

Definition extension (s : string) : bool :=
  match s with
  | String dot (String c s') => Ascii.eqb dot "." && is_letter c && letters_to_end s'
  | _ => false
  end.

(** What precedes the first closing parenthesis, and what follows it. *)
Fixpoint upto_close (s : string) : option (string * string) :=
  match s with
  | EmptyString => None
  | String c s' =>
      if Ascii.eqb c ")" then Some (EmptyString, s')
      else match upto_close s' with
           | Some (g, t) => Some (String c g, t)
           | None => None
           end
  end.

(** [re.search(rexp, fn)], group 1: the leftmost opening parenthesis that
    is followed by at least one character other than a closing one, the
    closing one, and the extension. *)
Fixpoint filename_search (fn : bytes) : option bytes :=
  match fn with
  | EmptyString => None
  | String c fn' =>
      if Ascii.eqb c "(" then
        match upto_close fn' with
        | Some (String g0 g, t) =>
            if extension t then Some (String g0 g) else filename_search fn'
        | _ => filename_search fn'
        end
      else filename_search fn'
  end.

Definition encodingfromfilename (fn : bytes) : pystr :=
  match filename_search fn with
  | Some g => PBytes g
  | None => PStr ""
  end.

(** The first lines of [html_text]: the encoding taken from the file name,
    dropped when [codecs.lookup] raises. *)
Definition filename_encoding (filename : bytes) : pystr :=
  let encoding := encodingfromfilename filename in
  if truthy encoding then
    match codecs_lookup encoding with
    | Ok _ => encoding
    | Raise _ => PStr ""
    end
  else encoding.

Definition chardet_detect (text : bytes) : res (string * Q) :=
  let '(encoding, confidence) := chardet_detect_raw text in
  (* [None.lower()] raises *)
  encoding ← of_option AttributeError encoding;
  if String.eqb (str_lower encoding) "iso-8859-2" then
    match classifier with
    | None => Ok (encoding, confidence)
    | Some classify =>
        match classify text with
        | Ok (_, code, count) =>
            if count >? 0 then Ok (code, 1%Q) else Ok (encoding, confidence)
        | Raise _ => Ok (encoding, confidence)
        end
    end
  else Ok (encoding, confidence).

(** The variables of the loop over the events; [None] is the Python [None]
    for [title], [author] and [language], and an unbound name for the
    others. *)
Record scan : Type := {
  title : option bytes;
  author : option bytes;
  language : option bytes;
  titleN : option bytes;
  authorN : option bytes;
  nl : option bytes;
  lyrics : bytes;
  lyricsN : bytes;
  hadnulls : bool
}.

Definition scan_init : scan :=
  {| title := None; author := None; language := None; titleN := None; authorN := None;
     nl := None; lyrics := ""; lyricsN := ""; hadnulls := false |}.

(** The end of a round: [lyrics += self.nulltrunc(edata)] and
    [lyricsN += edata]. *)
Definition add_lyrics (st : scan) (edata : bytes) : scan :=
  let '(t, h) := nulltrunc (hadnulls st) edata in
  {| title := title st; author := author st; language := language st;
     titleN := titleN st; authorN := authorN st; nl := nl st;
     lyrics := lyrics st ++ t; lyricsN := lyricsN st ++ edata; hadnulls := h |}.

Definition is_slash (c : ascii) : bool := Ascii.eqb c "/" || Ascii.eqb c "\".
Definition is_bracket (c : ascii) : bool := Ascii.eqb c "[" || Ascii.eqb c "]".

(** One round of the loop over the events. *)
Definition scan_event (st : scan) (ev : event) : res scan :=
  match ev with
  | TextMetaEvent data =>
      match data with
      | EmptyString => Ok st
      | String d0 rest =>
          if is_slash d0 then Ok (add_lyrics st (nlbytes ++ rest))
          else if is_bracket d0 then Ok (add_lyrics st rest)
          else if Ascii.eqb d0 "@" then
            match rest with
            | EmptyString => Ok st
            | String d1 rest2 =>
                if Ascii.eqb d1 "I" then Ok (add_lyrics st (rest2 ++ nlbytes))
                else if Ascii.eqb d1 "L" then
                  let '(t, h) := nulltrunc (hadnulls st) rest2 in
                  Ok (add_lyrics
                        {| title := title st; author := author st; language := Some t;
                           titleN := titleN st; authorN := authorN st; nl := nl st;
                           lyrics := lyrics st; lyricsN := lyricsN st; hadnulls := h |} "")
                else if Ascii.eqb d1 "T" then
                  match title st, author st with
                  | None, _ =>
                      let '(t, h) := nulltrunc (hadnulls st) rest2 in
                      Ok (add_lyrics
                            {| title := Some t; author := author st;
                               language := language st; titleN := Some rest2;
                               authorN := authorN st; nl := nl st; lyrics := lyrics st;
                               lyricsN := lyricsN st; hadnulls := h |} "")
                  | Some _, None =>
                      let '(t, h) := nulltrunc (hadnulls st) rest2 in
                      Ok (add_lyrics
                            {| title := title st; author := Some t;
                               language := language st; titleN := titleN st;
                               authorN := Some rest2; nl := nl st; lyrics := lyrics st;
                               lyricsN := lyricsN st; hadnulls := h |} "")
                  | Some _, Some _ => Ok (add_lyrics st "")
                  end
                else Ok (add_lyrics st "")
            end
          else Ok (add_lyrics st data)
      end
  | LryricsEvent data | TrackNameEvent data =>
      let st :=
        match ev with
        | TrackNameEvent _ =>
            {| title := title st; author := author st; language := language st;
               titleN := titleN st; authorN := authorN st; nl := Some nlbytes;
               lyrics := lyrics st; lyricsN := lyricsN st; hadnulls := hadnulls st |}
        | _ => st
        end in
      match data with
      | EmptyString => Ok st
      | String d0 rest =>
          nl ← of_option UnboundLocalError (nl st);
          if is_slash d0 then Ok (add_lyrics st (nlbytes ++ rest ++ nl))
          else Ok (add_lyrics st (data ++ nl))
      end
  | OtherEvent => Ok (add_lyrics st "")
  end.

(** The encoding guessed from the data: the final [self.encoding], and the
    texts to reencode. *)
Definition guess_encoding (defaultencoding : string) (encoding : pystr) (st : scan)
  : res (pystr * scan) :=
  '(encoding, st) ←
    (if bool_decide (encoding = PStr "") && has_chardet then
       '(encoding, st) ←
         (if hadnulls st then
            '(enc, confidence) ← chardet_detect (lyricsN st);
            if negb (Qle_bool confidence (6 # 10))
               && bool_decide (str_lower enc ∈ acceptnullencodings)
            then
              titleN ← of_option UnboundLocalError (titleN st);
              authorN ← of_option UnboundLocalError (authorN st);
              Ok (PStr enc,
                  {| title := Some titleN; author := Some authorN;
                     language := language st; titleN := Some titleN;
                     authorN := Some authorN; nl := nl st; lyrics := lyricsN st;
                     lyricsN := lyricsN st; hadnulls := hadnulls st |})
            else Ok (encoding, st)
          else Ok (encoding, st));
       if bool_decide (encoding = PStr "") then
         '(enc, confidence) ← chardet_detect (lyrics st);
         if negb (Qle_bool confidence (6 # 10)) then Ok (PStr enc, st)
         else Ok (encoding, st)
       else Ok (encoding, st)
     else Ok (encoding, st));
  if bool_decide (encoding = PStr "") then Ok (PStr defaultencoding, st)
  else Ok (encoding, st).

(** [text.replace("\n", "<br>\n")] *)
Fixpoint nl_to_br (text : string) : string :=
  match text with
  | EmptyString => EmptyString
  | String c text' =>
      if Ascii.eqb c "010" then "<br>" ++ String c (nl_to_br text')
      else String c (nl_to_br text')
  end.

(** [reencode(data)] under the encoding chosen; [None] stands for the empty
    [str] that replaces a Python [None]. *)
Definition reencode (encoding : pystr) (data : option bytes) : string :=
  match data with
  | None | Some EmptyString => ""
  | Some data =>
      match encoding with
      | PBytes _ => ""
      | PStr name =>
          match bytes_decode_ignore name data with
          | Raise _ => ""
          | Ok text => nl_to_br (htmlescape text)
          end
      end
  end.

(** [html_text(filename)], up to the filling of the template: the encoding
    applied and the four texts.  [events] is the decoded stream. *)
Definition html_text (defaultencoding : string) (filename : bytes) (events : list event)
  : res (pystr * (string * string * string * string)) :=
  let encoding := filename_encoding filename in
  st ← foldM scan_event events scan_init;
  '(encoding, st) ← guess_encoding defaultencoding encoding st;
  Ok (encoding,
      (reencode encoding (title st), reencode encoding (author st),
       reencode encoding (language st), reencode encoding (Some (lyrics st)))).

(** [s.find(p) != -1] *)
Fixpoint has_sub (p s : string) : bool :=
  Py.startswith s p
  || match s with
     | EmptyString => false
     | String _ s' => has_sub p s'
     end.

(** [KarTextExtractor.__init__]: the fallback encoding, computed from the
    environment.  [fsencoding] is the outcome of
    [sys.getfilesystemencoding()], which can be [None] or raise, and
    [sysdefault] is [sys.getdefaultencoding()]. *)
Definition init_defaultencoding (fsencoding : res (option string)) (sysdefault : string)
  : string :=
  let defaultencoding :=
    match fsencoding with
    | Ok (Some e) => e
    | Ok None => sysdefault
    | Raise _ => ""
    end in
  let defaultencoding :=
    if String.eqb defaultencoding "" || has_sub "ascii" (str_lower defaultencoding)
    then "cp1252" else defaultencoding in
  match codecs_lookup (PStr defaultencoding) with
  | Ok _ => defaultencoding
  | Raise _ => "cp1252"
  end.

End Filter.
End RclKar.

(** ** Vocabulary of the statements *)

Module Stream.
Import RclExecM.

(** The synthetic self-document of a container with [n] addresses. *)
Definition selfdoc (n : nat) : reply :=
  (true, PStr "", PStr "", if Nat.eqb n 0 then eofnext else noteof).

(** What a call past the end returns. *)
Definition alreadydone : reply := (false, PStr "", PStr "", eofnow).

(** The tuples [rs] are the self-document, then one tuple per address of
    [addrs] in that order, the last one alone carrying [eofnext], then [k]
    failures with [eofnow]. *)
Definition enumerates (addrs : list pystr) (k : nat) (rs : list reply) : Prop :=
  exists items : list reply,
    rs = selfdoc (length addrs) :: items ++ replicate k alreadydone
    /\ length items = length addrs
    /\ forall (i : nat) (a : pystr),
         addrs !! i = Some a ->
         exists (okv : bool) (d : pystr),
           items !! i
           = Some (okv, d, a,
                   if bool_decide (S i = length addrs) then eofnext else noteof).

(** The addresses of [rclinfo] and [rclics]: the positions, in decimal. *)
Definition positions {A : Type} (l : list A) : list pystr :=
  imap (fun (i : nat) (_ : A) => PStr (str_of_int (Z.of_nat i))) l.

End Stream.

(** ** Sample containers *)

Module Sample.
Import RclExecM.

(** A library that agrees with Python on the sample inputs: ASCII text is
    its own encoding, the documents declare no charset, the links have no
    scheme, and the parser sees the start tags written in the documents. *)
Definition sample_starttags (text : string) : list RclChm.starttag :=
  if String.eqb text "<a href=page1.html>" then [("a", [("href", Some "page1.html")])]
  else if String.eqb text "<a href=home.html>" then [("a", [("href", Some "home.html")])]
  else if String.eqb text "<param name=Local value=nosuch.html>"
  then [("param", [("name", Some "Local"); ("value", Some "nosuch.html")])]
  else if String.eqb text "<param name=Local value=v:f.chm::/page1.html>"
  then [("param", [("name", Some "Local"); ("value", Some "v:f.chm::/page1.html")])]
  else [].

#[local] Instance library : RclChm.Library := {|
  RclChm.str_encode := fun _ s => Ok s;
  RclChm.bytes_decode := fun cs b =>
    if String.eqb cs "cp1252" then Ok b else Raise LookupError;
  RclChm.asciito1252re_sub := fun b => b;
  RclChm.findcharsetre_search := fun _ => None;
  RclChm.title_sub := fun _ doc => Ok doc;
  RclChm.urllib_unquote := fun s => s;
  RclChm.urlparse_urlparse := fun href => Ok ("", href);
  RclChm.starttags := sample_starttags
|}.

#[local] Instance protocol : Protocol := {|
  htmlescape := fun b => b;
  makebytes := fun v => match v with PStr s => s | PBytes b => b end
|}.

(** A help file of two pages that link to each other, without topics. *)
Definition cyclic_chm : RclChm.CHMFile := {|
  RclChm.ResolveObject := fun p =>
    if String.eqb p "/home.html" then Some 1%nat
    else if String.eqb p "/page1.html" then Some 2%nat
    else None;
  RclChm.RetrieveObject := fun ui =>
    match ui with
    | 1%nat => (19, "<a href=page1.html>")
    | 2%nat => (18, "<a href=home.html>")
    | _ => (0, "")
    end;
  RclChm.GetTopicsTree := None;
  RclChm.home := Some "/home.html";
  RclChm.title := PBytes "Sample"
|}.

(** The same pages behind a topics tree whose only entry names a page that
    is not in the file. *)
Definition topics_chm : RclChm.CHMFile := {|
  RclChm.ResolveObject := RclChm.ResolveObject cyclic_chm;
  RclChm.RetrieveObject := RclChm.RetrieveObject cyclic_chm;
  RclChm.GetTopicsTree := Some "<param name=Local value=nosuch.html>";
  RclChm.home := Some "/home.html";
  RclChm.title := PBytes "Sample"
|}.

(** Two pages that are a body each. *)
Definition bodies_chm : RclChm.CHMFile := {|
  RclChm.ResolveObject := fun p =>
    if String.eqb p "/x.html" then Some 1%nat
    else if String.eqb p "/y.html" then Some 2%nat
    else None;
  RclChm.RetrieveObject := fun ui =>
    match ui with
    | 1%nat => (14, "<body>X</body>")
    | 2%nat => (14, "<body>Y</body>")
    | _ => (0, "")
    end;
  RclChm.GetTopicsTree := None;
  RclChm.home := Some "/x.html";
  RclChm.title := PBytes "Sample"
|}.

Definition bodies_session : RclChm.rclCHM := {|
  RclChm.contents := ["/x.html"; "/y.html"];
  RclChm.chm := bodies_chm;
  RclChm.isopen := true;
  RclChm.catenate := true;
  RclChm.currentindex := -1;
  RclChm.charset := "cp1252";
  RclChm.mimetype := "text/html"
|}.

(** The paths of the documents of [cyclic_chm]. *)
Definition cyclic_files : gset bytes := {[ "/home.html"; "/page1.html" ]}.

(** An extractor before [openfile]. *)
Definition fresh (catenate : bool) : RclChm.rclCHM := {|
  RclChm.contents := [];
  RclChm.chm := cyclic_chm;
  RclChm.isopen := false;
  RclChm.catenate := catenate;
  RclChm.currentindex := 0;
  RclChm.charset := "";
  RclChm.mimetype := "text/html"
|}.

(** The session that [openfile] leaves on [cyclic_chm]. *)
Definition opened (catenate : bool) : RclChm.rclCHM := {|
  RclChm.contents := ["/home.html"; "/page1.html"];
  RclChm.chm := cyclic_chm;
  RclChm.isopen := true;
  RclChm.catenate := catenate;
  RclChm.currentindex := -1;
  RclChm.charset := "cp1252";
  RclChm.mimetype := "text/html"
|}.

(** An archive with one small member and one that declares four
    gigabytes, under a limit of fifty megabytes. *)
Definition sample_zip : RclZip.ZipFile := {|
  RclZip.getinfo := fun ipath =>
    if bool_decide (ipath = PStr "notes.txt")
    then Some {| RclZip.file_size := 5; RclZip.timestamp := Ok "0" |}
    else if bool_decide (ipath = PStr "disk.iso")
    then Some {| RclZip.file_size := 4294967296; RclZip.timestamp := Ok "0" |}
    else None;
  RclZip.read := fun ipath =>
    if bool_decide (ipath = PStr "notes.txt") then Ok "hello" else Raise ValueError;
  RclZip.namelist := [PStr "notes.txt"; PStr "disk.iso"]
|}.

Definition zip_session : RclZip.ZipExtractor := {|
  RclZip.zip := Some sample_zip;
  RclZip.currentindex := 0;
  RclZip.maxmembersize := 52428800;
  RclZip.rclog := [];
  RclZip.fields := [];
  RclZip.reads := []
|}.

(** A karaoke environment in which [cp1252] and [utf-8] are codecs and the
    detector is sure of UTF-8. *)
#[local] Instance kar_library : RclKar.Library := {|
  RclKar.codecs_known := fun name => String.eqb name "cp1252" || String.eqb name "utf-8";
  RclKar.has_chardet := true;
  RclKar.chardet_detect_raw := fun _ => (Some "utf-8", (99 # 100)%Q);
  RclKar.classifier := None;
  RclKar.bytes_decode_ignore := fun _ b => Ok b
|}.

Definition info_session : RclInfo.InfoExtractor := {|
  RclInfo.contents := [("f.info", "top"); ("f.info / N1", "first")];
  RclInfo.currentindex := -1;
  RclInfo.mimetype := ""
|}.

Definition ics_session : RclIcs.IcalExtractor := {|
  RclIcs.contents := ["BEGIN:VEVENT"];
  RclIcs.currentindex := -1;
  RclIcs.mimetype := ""
|}.

End Sample.

(** ** Vocabulary for the walk of [rclchm] *)

Module Walk.
Import RclChm.

(** The documents of [files] that are not yet in the contents list. *)
Definition unvisited (files : gset bytes) (contents : list bytes) : nat :=
  size (files ∖ list_to_set contents).

(** A handler that returns, and only extends the list, as long as at most
    [n] documents are not yet in it. *)
Definition extends (files : gset bytes) (n : nat)
  (handle : starttag -> list bytes -> option outcome) : Prop :=
  forall (t : starttag) (c : list bytes),
    (unvisited files c <= n)%nat ->
    exists (c' : list bytes) (r : res unit), handle t c = Some (c', r) /\ c `prefix_of` c'.

(** [rec'] returns what [rec] returns, wherever [rec] returns. *)
Definition deeper (rec rec' : ChmWalker -> string -> list bytes -> option outcome) : Prop :=
  forall (w : ChmWalker) (text : string) (c : list bytes) (o : outcome),
    rec w text c = Some o -> rec' w text c = Some o.

End Walk.

(** ** Vocabulary for the exceptions of [rclchm] *)

Module Unbound.
Import RclChm.

(** The codecs and [urlparse] raise errors of their own, never the
    [UnboundLocalError] of a function body. *)
Definition library_sound (L : Library) : Prop :=
  (forall (cs s : string), str_encode cs s <> Raise UnboundLocalError)
  /\ (forall (cs : string) (b : bytes), bytes_decode cs b <> Raise UnboundLocalError)
  /\ (forall href : string, urlparse_urlparse href <> Raise UnboundLocalError).

(** A call that did not end in [UnboundLocalError]. *)
Definition bound {A : Type} (r : res A) : Prop := r <> Raise UnboundLocalError.

Definition walk_bound (o : option outcome) : Prop :=
  forall (c : list bytes) (r : res unit), o = Some (c, r) -> bound r.

End Unbound.

(** ** Vocabulary for the node table of [rclinfo] *)

Module NodeTable.

(** [names] are the names met when climbing from the record called [name]
    along the Up values of [node_dict], the record itself first, until the
    Up value is [Top], which is not part of the list. *)
Fixpoint ancestry (node_dict : gmap pystr bytes) (name : bytes) (names : list bytes) : Prop :=
  match names with
  | [] => name = "Top"
  | first :: rest =>
      name = first /\ name <> "Top"
      /\ exists up : bytes, node_dict !! PBytes name = Some up /\ ancestry node_dict up rest
  end.

(** The title accumulated by the climb: each name met goes in front of what
    was accumulated, with the separator after it. *)
Definition accumulate (names : list bytes) (title : bytes) : bytes :=
  fold_left (fun (t : bytes) (name : bytes) => name ++ " / " ++ t) names title.

(** The last character of [s] exists and is none of [chars]. *)
Fixpoint ends_outside (chars s : string) : bool :=
  match s with
  | EmptyString => false
  | String c EmptyString => negb (Py.mem_char c chars)
  | String _ s' => ends_outside chars s'
  end.

(** The sample streams: a header line per node, a line of text, a blank
    line. *)
Definition ln (s : string) : bytes := s ++ RclInfo.nl.

Definition node_block (name up : string) : list bytes :=
  [ln ("File: f.info,  Node: " ++ name ++ ",  Up: " ++ up); ln "text"; ln ""].

Definition three_nodes : list bytes :=
  node_block "Top" "(dir)" ++ node_block "N1" "Top" ++ node_block "N2" "N1".

(** Two records called [A], the first under [Top], the second under [B]. *)
Definition duplicate_nodes : list bytes :=
  node_block "Top" "(dir)" ++ node_block "A" "Top" ++ node_block "B" "Top"
  ++ node_block "A" "B".

Definition duplicate_prefix : list bytes :=
  node_block "Top" "(dir)" ++ node_block "A" "Top" ++ node_block "B" "Top".

Definition duplicate_header : bytes := ln "File: f.info,  Node: A,  Up: B".

(** The table of [three_nodes]. *)
Definition three_table : gmap pystr bytes :=
  <[PBytes "N2" := "N1"]> (<[PBytes "N1" := "Top"]> (<[PBytes "Top" := "(dir)"]> ∅)).

Definition numbered (i : nat) : string := "n" ++ str_of_int (Z.of_nat i).

(** [Top], then [n] nodes, each one under the one before it. *)
Definition chain_nodes (n : nat) : list bytes :=
  node_block "Top" "(dir)"
  ++ concat (map (fun i : nat =>
                    node_block (numbered i)
                      (if Nat.eqb i 1 then "Top" else numbered (i - 1)))
               (seq 1 n)).

End NodeTable.

(** ** Vocabulary for the catenation of [rclchm] *)

Module Catenation.
Import RclExecM RclChm.

(** The texts of a list, one after the other. *)
Definition cat (l : list bytes) : bytes := foldr String.append "" l.

Section Defs.
Context `{Library}.




End Defs.
End Catenation.

(** ** Vocabulary for the discovery of [rclchm] *)

Module Discovery.
Import RclChm.

Section Defs.
Context `{Library}.

(** [p] is a normalised path under which the container has a document that
    is not empty. *)
Definition document (self : rclCHM) (p : bytes) : Prop :=
  PosixPath.normpath p = p
  /\ exists text : pystr, getfile (chm self) (PBytes p) = Ok text /\ truthy text = true.

(** [c'] is [c] with documents added at its end, and without a duplicate if
    [c] has none. *)
Definition grows (self : rclCHM) (c c' : list bytes) : Prop :=
  exists ext : list bytes,
    c' = (c ++ ext)%list /\ Forall (document self) ext /\ (NoDup c -> NoDup c').

(** [b] is the encoding of a path that starts at the root and has no
    fragment marker. *)
Definition rooted (self : rclCHM) (b : bytes) : Prop :=
  exists p : string,
    str_encode (charset self) p = Ok b
    /\ Py.startswith p "/" = true
    /\ Py.has_char "#" p = false.

End Defs.

(** A help file without topics and without home page, and one whose home
    page is not in the file. *)
Definition bare_chm : CHMFile := {|
  ResolveObject := fun _ => None;
  RetrieveObject := fun _ => (0, "");
  GetTopicsTree := None;
  home := None;
  title := PBytes "Bare"
|}.

Definition lost_home_chm : CHMFile := {|
  ResolveObject := fun _ => None;
  RetrieveObject := fun _ => (0, "");
  GetTopicsTree := Some "";
  home := Some "index.html";
  title := PBytes "Lost"
|}.

(** The sample library with a [urlparse] that knows the [ms-its] scheme. *)
Definition scheme_library : Library := {|
  str_encode := fun _ s => Ok s;
  bytes_decode := fun cs b => if String.eqb cs "cp1252" then Ok b else Raise LookupError;
  asciito1252re_sub := fun b => b;
  findcharsetre_search := fun _ => None;
  title_sub := fun _ doc => Ok doc;
  urllib_unquote := fun s => s;
  urlparse_urlparse := fun href =>
    if Py.startswith href "ms-its:" then Ok ("ms-its", Py.string_drop 7 href)
    else Ok ("", href);
  starttags := fun _ => []
|}.

End Discovery.

(** ** Vocabulary for the records of [rclinfo] that get no title *)

Module Orphans.

(** [names] are the names met when climbing from the record called [name]
    along the Up values of [node_dict], the record itself first, until the Up
    value is [missing]: a name other than [Top] that the table does not
    have. *)
Fixpoint dangling (node_dict : gmap pystr bytes) (name : bytes) (names : list bytes)
  (missing : bytes) : Prop :=
  match names with
  | [] => name = missing /\ missing <> "Top" /\ node_dict !! PBytes missing = None
  | first :: rest =>
      name = first /\ name <> "Top"
      /\ exists up : bytes,
           node_dict !! PBytes name = Some up /\ dangling node_dict up rest missing
  end.

(** A record that got its name from [str(index)]: its header line had no
    Node field. *)
Definition unnamed (entry : pystr * bytes) : Prop :=
  exists s : string, entry.1 = PStr s.

(** The state of the first loop of [splitinfo] after the lines [fin]. *)
Definition scanned (filename : bytes) (fin : list bytes) : RclInfo.splitter :=
  fold_left RclInfo.split_line fin (RclInfo.split_init filename).

(** What the first loop keeps: before the first header line that it accepts
    there is no record and no table entry, and the name is the initial one;
    after it, the text of the current node is not empty and the records
    completed so far are one less than the header lines accepted. *)
Definition first_loop_inv (st : RclInfo.splitter) : Prop :=
  0 <= RclInfo.index st
  /\ (RclInfo.index st = 0 ->
      RclInfo.listout st = []
      /\ RclInfo.node_dict st = ∅
      /\ RclInfo.nodename st = PBytes "Unknown")
  /\ (0 < RclInfo.index st ->
      RclInfo.node st <> "" /\ len (RclInfo.listout st) = RclInfo.index st - 1).

(** A table in which [A] is under [B], and [B] is not a node. *)
Definition orphan_table : gmap pystr bytes := <[PBytes "A" := "B"]> ∅.

End Orphans.

(** ** Vocabulary for the blocks of [rclics] *)

Module Calendar.
Import RclIcs.

(** The first two fields of a line, as the splitter sees them: stripped,
    split at the colons, in upper case. *)
Definition fields (line : bytes) : option (bytes * bytes) :=
  match Py.split ":" (Py.rstrip whitespace line) with
  | l0 :: l1 :: _ => Some (upper l0, upper l1)
  | _ => None
  end.

(** A line that starts a block when the splitter is outside of one. *)
Definition opens (line : bytes) : bool :=
  match fields line with
  | Some (key, name) => String.eqb key "BEGIN" && bool_decide (name ∈ interesting)
  | None => false
  end.

(** A line that ends the block called [name]. *)
Definition closes (name line : bytes) : bool :=
  match fields line with
  | Some (key, name') => String.eqb key "END" && String.eqb name' name
  | None => false
  end.

(** The name that a line gives to the block that it opens. *)
Definition name_of (line : bytes) : bytes :=
  match fields line with
  | Some (_, name) => name
  | None => ""
  end.

(** What a line adds to the block that holds it: nothing when it is blank,
    else the line without its trailing whitespace, and a newline. *)
Definition piece (line : bytes) : bytes :=
  let line := Py.rstrip whitespace line in
  if String.eqb line "" then "" else line ++ nl.

Definition render (lines : list bytes) : bytes := Catenation.cat (map piece lines).

(** A block such as the splitter emits: it starts with a line that opens
    one. *)
Definition well_started (blk : bytes) : Prop :=
  exists (line rest : bytes), opens line = true /\ blk = piece line ++ rest.

(** What the loop keeps: a block is being accumulated exactly when it has a
    name, and the blocks emitted and the one accumulated are well started. *)
Definition loop_inv (st : blocks) : Prop :=
  (curblkname st = "" -> curblk st = "")
  /\ (curblkname st <> "" -> well_started (curblk st))
  /\ Forall well_started (lo st).

(** A calendar with a time zone block, which is not extracted, around an
    event. *)
Definition sample_calendar : list bytes :=
  [ "BEGIN:VCALENDAR" ++ nl; "BEGIN:VTIMEZONE" ++ nl; "END:VTIMEZONE" ++ nl;
    "begin:vevent  " ++ nl; nl; "SUMMARY:Lunch" ++ nl; "END:VEVENT" ++ nl;
    "END:VCALENDAR" ++ nl ].

End Calendar.

(** ** Vocabulary for the event loop of [rclkar] *)

Module Karaoke.
Import RclKar.

(** The null byte. *)
Definition null : ascii := "000"%char.

(** What the loop over the events keeps: the truncated texts have no null
    byte, and as long as no null byte was met they are the texts
    themselves. *)
Definition scan_inv (st : scan) : Prop :=
  Py.has_char null (lyrics st) = false
  /\ (forall t : bytes, title st = Some t -> Py.has_char null t = false)
  /\ (forall t : bytes, author st = Some t -> Py.has_char null t = false)
  /\ (forall t : bytes, language st = Some t -> Py.has_char null t = false)
  /\ (hadnulls st = false ->
      lyrics st = lyricsN st /\ title st = titleN st /\ author st = authorN st).

(** The stream has a lyrics event with data before any track name event:
    the event whose round reads [nl] before any round has bound it. *)
Fixpoint lyrics_before_track_name (events : list event) : bool :=
  match events with
  | [] => false
  | TrackNameEvent _ :: _ => false
  | LryricsEvent (String _ _) :: _ => true
  | _ :: events' => lyrics_before_track_name events'
  end.

(** The letters of a file name extension. *)
Definition letters (ext : string) : bool :=
  forallb is_letter (list_ascii_of_string ext).

(** An environment without a detector answer: [chardet.detect] finds no
    encoding, as it does for an empty text. *)
Definition silent_library : Library := {|
  codecs_known := fun name => String.eqb name "cp1252";
  has_chardet := true;
  chardet_detect_raw := fun _ => (None, 0%Q);
  classifier := None;
  bytes_decode_ignore := fun _ b => Ok b
|}.

End Karaoke.

(** * Properties *)

Example split_colons : Py.split ":" "v:f::p" = ["v"; "f"; ""; "p"].
Proof. reflexivity. Qed.
Example rstrip_ex : Py.rstrip " /" "f / a/ / " = "f / a".
Proof. reflexivity. Qed.
Example sub_ex : Py.sub_ci 0 "</head>" "X</head>" "<head></HEAD>b</head>" = "<head>X</head>bX</head>".
Proof. reflexivity. Qed.

Example normpath_ex :
  map PosixPath.normpath ["/a/./b/../c//d/"; "../x"; "//a"; "///a"; "/.."; "a/../.."; ""]
  = ["/a/c/d"; "../x"; "//a"; "/a"; "/"; ".."; "."].
Proof. reflexivity. Qed.

Example dirname_ex :
  map PosixPath.dirname ["/a/b.html"; "b.html"; "/b.html"; "//b"; "a//b"]
  = ["/a"; ""; "/"; "//"; "a"].
Proof. reflexivity. Qed.

Example join_ex :
  (PosixPath.join "/a" "b", PosixPath.join "" "b", PosixPath.join "/" "b",
   PosixPath.join "/a" "/b")
  = ("/a/b", "b", "/b", "/b").
Proof. reflexivity. Qed.

Example bodyre_ex :
  RclChm.bodyre_search "<html><BODY class=x>one</body>two</Body></html>"
  = Some "one</body>two".
Proof. reflexivity. Qed.

Example filename_search_ex :
  map RclKar.filename_search ["song (cp1252).kar"; "song (x).k1"; "(a)(b).kar"; "a ().kar"]
  = [Some "cp1252"; None; Some "b"; None].
Proof. reflexivity. Qed.

(** ** Strings *)

Lemma str_app_nil_r (s : string) : s ++ "" = s.
Proof. induction s as [|c s IH]; [done|]. change (String c (s ++ "") = String c s). by rewrite IH. Qed.

Lemma str_app_assoc (s t u : string) : s ++ t ++ u = (s ++ t) ++ u.
Proof.
  induction s as [|c s IH]; [done|].
  change (String c (s ++ t ++ u) = String c ((s ++ t) ++ u)). by rewrite IH.
Qed.

(** ** Python indexing *)

Lemma py_index_nat {A : Type} (l : list A) (i : nat) :
  py_index l (Z.of_nat i) = of_option IndexError (l !! i).
Proof.
  assert (E : (Z.of_nat i <? 0) = false) by (apply Z.ltb_ge; lia).
  unfold py_index. cbv zeta. rewrite !E. by rewrite Nat2Z.id.
Qed.

Lemma py_index_middle {A : Type} (pre suf : list A) (a : A) :
  py_index (pre ++ a :: suf) (len pre) = Ok a.
Proof.
  unfold len. rewrite py_index_nat, list_lookup_middle; done.
Qed.

(** ** [normpath] is idempotent *)

Section NormPath.
Import PosixPath.
#[local] Arguments Ascii.eqb : simpl never.

Lemma split_no_sep (sep : ascii) (s : string) :
  Forall (fun c : string => Py.has_char sep c = false) (Py.split sep s).
Proof.
  induction s as [|a s IH]; cbn.
  - by constructor.
  - destruct (Ascii.eqb a sep) eqn:Ha; [by constructor|].
    destruct (Py.split sep s) as [|w ws]; inversion IH; subst;
      constructor; cbn; try rewrite Ha; done.
Qed.

Lemma split_whole (sep : ascii) (x : string) :
  Py.has_char sep x = false -> Py.split sep x = [x].
Proof.
  induction x as [|a x IH]; cbn; [done|].
  destruct (Ascii.eqb a sep); cbn; [done|]. intros Hx. by rewrite IH.
Qed.

Lemma split_app_sep (sep : ascii) (x s : string) :
  Py.has_char sep x = false ->
  Py.split sep (x ++ String sep s) = x :: Py.split sep s.
Proof.
  induction x as [|a x IH]; intros Hx.
  - change ("" ++ String sep s) with (String sep s). cbn. by rewrite Ascii.eqb_refl.
  - change (String a x ++ String sep s) with (String a (x ++ String sep s)).
    cbn in Hx |- *. destruct (Ascii.eqb a sep); [done|]. cbn in Hx. by rewrite IH.
Qed.

Lemma split_join (comps : list string) :
  comps <> [] ->
  Forall (fun c : string => Py.has_char "/" c = false) comps ->
  Py.split "/" (Py.join "/" comps) = comps.
Proof.
  induction comps as [|x [|y l] IH]; intros Hne Hall; [done|..].
  - cbn. apply split_whole. by inversion Hall.
  - change (Py.join "/" (x :: y :: l)) with (x ++ String "/" (Py.join "/" (y :: l))).
    inversion Hall as [|? ? Hx Hrest]; subst.
    rewrite split_app_sep by done. f_equal. by apply IH.
Qed.

Lemma removelast_length {A : Type} (l : list A) :
  length (removelast l) = Nat.pred (length l).
Proof.
  destruct l as [|a l _] using rev_ind; [done|].
  rewrite removelast_last, length_app. cbn. lia.
Qed.

Lemma norm_step_length (k : nat) (acc : list string) (comp : string) :
  (length (norm_step k acc comp) <= S (length acc))%nat.
Proof.
  unfold norm_step. repeat case_match; rewrite ?length_app, ?removelast_length; cbn; lia.
Qed.

Lemma norm_fold_length (k : nat) (l acc : list string) :
  (length (fold_left (norm_step k) l acc) <= length acc + length l)%nat.
Proof.
  revert acc. induction l as [|c l IH]; intros acc; cbn; [lia|].
  pose proof (IH (norm_step k acc c)). pose proof (norm_step_length k acc c). lia.
Qed.

Lemma stable_snoc_inv (k : nat) (pre : list string) (x : string) :
  stable k (pre ++ [x]) -> stable k pre /\ norm_step k pre x = (pre ++ [x])%list.
Proof.
  unfold stable. rewrite fold_left_app. cbn.
  set (A := fold_left (norm_step k) pre []). intros Hst.
  assert (Hlen : (length A <= length pre)%nat).
  { pose proof (norm_fold_length k pre []). cbn in *. done. }
  assert (HA : A = pre).
  { revert Hst. unfold norm_step. repeat case_match; intros Hst.
    - rewrite Hst, length_app in Hlen. cbn in Hlen. lia.
    - by apply app_inj_tail in Hst as [? _].
    - assert (Hl : length (removelast A) = length (pre ++ [x])) by by rewrite Hst.
      rewrite removelast_length, length_app in Hl. cbn in Hl. lia. }
  split; [done|]. by rewrite HA in Hst.
Qed.

Lemma stable_removelast (k : nat) (acc : list string) :
  stable k acc -> stable k (removelast acc).
Proof.
  destruct acc as [|a acc _] using rev_ind; [done|].
  rewrite removelast_last. intros Hst. by apply stable_snoc_inv in Hst as [? _].
Qed.

Lemma stable_step (k : nat) (acc : list string) (comp : string) :
  stable k acc -> stable k (norm_step k acc comp).
Proof.
  intros Hst. destruct (decide (norm_step k acc comp = acc ++ [comp])%list) as [Happ|Hno].
  - rewrite Happ. unfold stable. rewrite fold_left_app. cbn. by rewrite Hst.
  - revert Hno. unfold norm_step. repeat case_match; intros Hno; try done.
    by apply stable_removelast.
Qed.

Lemma stable_fold (k : nat) (l acc : list string) :
  stable k acc -> stable k (fold_left (norm_step k) l acc).
Proof.
  revert acc. induction l as [|c l IH]; intros acc Hst; [done|].
  cbn. apply IH. by apply stable_step.
Qed.

Lemma norm_step_components (k : nat) (acc : list string) (comp : string) :
  Py.has_char "/" comp = false ->
  Forall component acc -> Forall component (norm_step k acc comp).
Proof.
  intros Hc Hacc. unfold norm_step.
  destruct (String.eqb_spec comp "") as [->|Hne]; cbn [orb]; [done|].
  destruct (String.eqb comp "."); [done|].
  case_match.
  - apply Forall_app. split; [done|]. by repeat constructor.
  - destruct acc as [|a acc _] using rev_ind; [done|].
    rewrite removelast_last. by apply Forall_app in Hacc as [? _].
Qed.

Lemma norm_fold_components (k : nat) (l acc : list string) :
  Forall (fun c : string => Py.has_char "/" c = false) l ->
  Forall component acc -> Forall component (fold_left (norm_step k) l acc).
Proof.
  revert acc. induction l as [|c l IH]; intros acc Hl Hacc; [done|].
  inversion Hl; subst. cbn. apply IH; [done|]. by apply norm_step_components.
Qed.

Lemma join_components_head (x : string) (l : list string) :
  component x -> exists (c : ascii) (s : string),
    Py.join "/" (x :: l) = String c s /\ c <> "/"%char.
Proof.
  intros [Hne Hns]. destruct x as [|c x]; [done|].
  cbn in Hns. apply orb_false_iff in Hns as [Hc _].
  apply Ascii.eqb_neq in Hc.
  destruct l as [|y l].
  - by exists c, x.
  - exists c, (x ++ "/" ++ Py.join "/" (y :: l)). done.
Qed.

Lemma normpath_normal_form (k : nat) (comps : list string) :
  (k <= 2)%nat ->
  Forall component comps ->
  stable k comps ->
  let r := String.concat "" (replicate k "/") ++ Py.join "/" comps in
  normpath (if String.eqb r "" then "." else r) = (if String.eqb r "" then "." else r).
Proof.
  intros Hk Hall Hst.
  destruct comps as [|x l].
  - (* nothing left: ".", "/" or "//" *)
    destruct k as [|[|[|k]]]; [reflexivity..|lia].
  - destruct (join_components_head x l) as (c & s & Hj & Hc); [by inversion Hall|].
    assert (Hsplit : Py.split "/" (Py.join "/" (x :: l)) = x :: l).
    { apply split_join; [done|]. eapply Forall_impl; [exact Hall|]. by intros ? [_ ?]. }
    assert (Hc' : Ascii.eqb "/" c = false) by (apply Ascii.eqb_neq; congruence).
    cbv zeta. rewrite Hj in *. unfold stable in Hst.
    destruct k as [|[|[|k]]]; [| | |lia].
    + change (String.concat "" (replicate 0 "/") ++ String c s) with (String c s).
      cbn [String.eqb]. unfold normpath. cbn [String.eqb].
      assert (Hi : initial_slashes (String c s) = 0%nat).
      { unfold initial_slashes. cbn. by rewrite ?Ascii.eqb_refl, Hc'. }
      rewrite Hi, Hsplit, Hst, Hj. reflexivity.
    + change (String.concat "" (replicate 1 "/") ++ String c s) with (String "/" (String c s)).
      cbn [String.eqb]. unfold normpath. cbn [String.eqb].
      assert (Hi : initial_slashes (String "/" (String c s)) = 1%nat).
      { unfold initial_slashes. cbn. by rewrite ?Ascii.eqb_refl, Hc'. }
      rewrite Hi.
      change (Py.split "/" (String "/" (String c s))) with ("" :: Py.split "/" (String c s)).
      rewrite Hsplit.
      change (fold_left (norm_step 1) ("" :: x :: l) [])
        with (fold_left (norm_step 1) (x :: l) []).
      rewrite Hst, Hj. reflexivity.
    + change (String.concat "" (replicate 2 "/") ++ String c s)
        with (String "/" (String "/" (String c s))).
      cbn [String.eqb]. unfold normpath. cbn [String.eqb].
      assert (Hi : initial_slashes (String "/" (String "/" (String c s))) = 2%nat).
      { unfold initial_slashes. cbn. by rewrite ?Ascii.eqb_refl, Hc'. }
      rewrite Hi.
      change (Py.split "/" (String "/" (String "/" (String c s))))
        with ("" :: "" :: Py.split "/" (String c s)).
      rewrite Hsplit.
      change (fold_left (norm_step 2) ("" :: "" :: x :: l) [])
        with (fold_left (norm_step 2) (x :: l) []).
      rewrite Hst, Hj. reflexivity.
Qed.

Lemma initial_slashes_le (p : bytes) : (initial_slashes p <= 2)%nat.
Proof. unfold initial_slashes. repeat case_match; lia. Qed.

Lemma normpath_idempotent (p : bytes) : normpath (normpath p) = normpath p.
Proof.
  unfold normpath at 2 3.
  destruct (String.eqb p ""); [reflexivity|].
  cbv zeta. apply normpath_normal_form.
  - apply initial_slashes_le.
  - apply norm_fold_components; [apply split_no_sep|done].
  - by apply stable_fold.
Qed.

End NormPath.

(** ** Sequential extraction *)

Section ChmStream.
Import RclExecM RclChm Stream.
Context `{Library}.
#[local] Arguments extractone : simpl never.

Lemma chm_extractone_bytes (self : rclCHM) (a : bytes) (norclaptag : bool) :
  exists (okv : bool) (d : pystr),
    extractone self (PBytes a) norclaptag
    = Ok (okv, d, PBytes a,
          if currentindex self >=? len (contents self) - 1 then eofnext else noteof).
Proof.
  unfold extractone; cbn -[Z.sub].
  destruct (ResolveObject (chm self) a) as [ui|]; [|by eauto].
  destruct (RetrieveObject (chm self) ui) as [r doc].
  destruct (r >? 0); eauto.
Qed.

Lemma chm_getnext_done (self : rclCHM) :
  catenate self = false -> 0 <= currentindex self -> len (contents self) <= currentindex self ->
  getnext self = Ok (alreadydone, closefile self).
Proof.
  intros Hc H0 Hge. unfold getnext. rewrite Hc.
  destruct (Z.eqb_spec (currentindex self) (-1)); [lia|].
  destruct (Z.geb_spec (currentindex self) (len (contents self))); [done|lia].
Qed.

Lemma chm_getnexts_done (k : nat) (self : rclCHM) :
  catenate self = false -> 0 <= currentindex self -> len (contents self) <= currentindex self ->
  exists self', getnexts k self = Ok (replicate k alreadydone, self').
Proof.
  revert self. induction k as [|k IH]; intros self Hc H0 Hge; [by eexists|].
  cbn [getnexts]. rewrite chm_getnext_done by done. cbn.
  destruct (IH (closefile self)) as [self' ->]; [done..|]. by eexists.
Qed.

Lemma chm_getnext_item (self : rclCHM) (pre suf : list bytes) (a : bytes) :
  catenate self = false ->
  contents self = (pre ++ a :: suf)%list ->
  currentindex self = len pre ->
  exists (okv : bool) (d : pystr) (self' : rclCHM),
    getnext self
    = Ok ((okv, d, PBytes a, if bool_decide (suf = []) then eofnext else noteof), self')
    /\ catenate self' = false
    /\ contents self' = contents self
    /\ currentindex self' = len (pre ++ [a])%list.
Proof.
  intros Hc Hcont Hidx. unfold getnext. rewrite Hc.
  assert (Hlen : len (contents self) = len pre + 1 + len suf).
  { rewrite Hcont. unfold len. rewrite length_app. cbn. lia. }
  assert (0 <= len pre /\ 0 <= len suf) as [Hp Hs] by (unfold len; lia).
  destruct (Z.eqb_spec (currentindex self) (-1)); [lia|].
  destruct (Z.geb_spec (currentindex self) (len (contents self))); [lia|].
  assert (Hget : py_index (contents self) (currentindex self) = Ok a).
  { rewrite Hidx, Hcont. apply py_index_middle. }
  rewrite Hget. cbn.
  destruct (chm_extractone_bytes self a false) as (okv & d & ->). cbn.
  assert (Heof : (if currentindex self >=? len (contents self) - 1 then eofnext else noteof)
                 = if bool_decide (suf = []) then eofnext else noteof).
  { destruct (Z.geb_spec (currentindex self) (len (contents self) - 1));
      destruct suf as [|b suf]; try done; unfold len in *; cbn in *; lia. }
  rewrite Heof.
  exists okv, d. eexists. split; [reflexivity|].
  assert (Hl : len (pre ++ [a])%list = len pre + 1).
  { unfold len. rewrite length_app. cbn. lia. }
  destruct (is_eof _); cbn; rewrite Hl, Hidx; done.
Qed.

Lemma chm_getnexts_items (k : nat) (suf pre : list bytes) (self : rclCHM) :
  catenate self = false ->
  contents self = (pre ++ suf)%list ->
  currentindex self = len pre ->
  exists (items : list reply) (self' : rclCHM),
    getnexts (length suf + k) self = Ok (items ++ replicate k alreadydone, self')%list
    /\ length items = length suf
    /\ forall (j : nat) (a : bytes),
         suf !! j = Some a ->
         exists (okv : bool) (d : pystr),
           items !! j
           = Some (okv, d, PBytes a,
                   if bool_decide (S j = length suf) then eofnext else noteof).
Proof.
  revert pre self. induction suf as [|a suf IH]; intros pre self Hc Hcont Hidx.
  - destruct (chm_getnexts_done k self) as [self' Hk]; [done| |..].
    + rewrite Hidx. unfold len. lia.
    + rewrite Hcont, Hidx, app_nil_r. lia.
    + exists [], self'. cbn. rewrite Hk. split_and!; [done..|]. intros j b Hj. done.
  - destruct (chm_getnext_item self pre suf a Hc Hcont Hidx)
      as (okv & d & self1 & Hstep & Hc1 & Hcont1 & Hidx1).
    destruct (IH (pre ++ [a])%list self1) as (items & self' & Hrun & Hlen & Hitems).
    + done.
    + rewrite Hcont1, Hcont, <- app_assoc. done.
    + done.
    + eexists (_ :: items), self'. cbn [length Nat.add getnexts].
      rewrite Hstep. cbn. rewrite Hrun. cbn. split_and!; [done|by rewrite Hlen|].
      intros [|j] b Hj; cbn in Hj.
      * injection Hj as <-. exists okv, d. cbn. do 2 f_equal.
        destruct suf; cbn; [by rewrite !bool_decide_eq_true_2|by rewrite !bool_decide_eq_false_2].
      * destruct (Hitems j b Hj) as (okv' & d' & Hit). exists okv', d'.
        etrans; [exact Hit|]. do 2 f_equal.
        destruct (decide (S j = length suf)) as [e|ne].
        -- rewrite !bool_decide_eq_true_2 by (cbn; lia). done.
        -- rewrite !bool_decide_eq_false_2 by (cbn; lia). done.
Qed.

Lemma chm_enumerates (self : rclCHM) (k : nat) :
  catenate self = false ->
  currentindex self = -1 ->
  exists (rs : list reply) (self' : rclCHM),
    getnexts (S (length (contents self)) + k) self = Ok (rs, self')
    /\ enumerates (PBytes <$> contents self) k rs.
Proof.
  intros Hc Hidx. cbn [Nat.add getnexts]. unfold getnext at 1. rewrite Hc, Hidx. cbn.
  set (self0 := setmimetype (set_currentindex self 0) "text/plain").
  assert (Hrun : forall s : rclCHM,
             catenate s = false -> contents s = contents self -> currentindex s = 0 ->
             exists items s',
               getnexts (length (contents self) + k) s
               = Ok (items ++ replicate k alreadydone, s')%list
               /\ length items = length (contents self)
               /\ forall (j : nat) (a : bytes),
                    contents self !! j = Some a ->
                    exists (okv : bool) (d : pystr),
                      items !! j
                      = Some (okv, d, PBytes a,
                              if bool_decide (S j = length (contents self))
                              then eofnext else noteof)).
  { intros s Hs1 Hs2 Hs3. apply (chm_getnexts_items k (contents self) [] s); done. }
  assert (Hfin : forall (s : rclCHM) (e : eofstate),
             catenate s = false -> contents s = contents self -> currentindex s = 0 ->
             e = (if Nat.eqb (length (contents self)) 0 then eofnext else noteof) ->
             exists rs s',
               ('(rs, s1) ← getnexts (length (contents self) + k) s;
                Ok ((true, PStr "", PStr "", e) :: rs, s1)) = Ok (rs, s')
               /\ enumerates (PBytes <$> contents self) k rs).
  { intros s e Hs1 Hs2 Hs3 ->.
    destruct (Hrun s Hs1 Hs2 Hs3) as (items & s' & -> & Hlen & Hitems). cbn.
    eexists _, s'. split; [reflexivity|].
    exists items. rewrite length_fmap. split_and!; [done..|].
    intros i a Hi. rewrite list_lookup_fmap in Hi.
    destruct (contents self !! i) as [b|] eqn:Hb; [|done]. injection Hi as <-.
    by apply Hitems. }
  destruct (Z.eqb_spec (len (contents self)) 0) as [Hz|Hnz]; cbn.
  - apply Hfin; [done..|].
    unfold len in Hz. destruct (contents self); [done|cbn in Hz; lia].
  - apply Hfin; [done..|].
    unfold len in Hnz. destruct (contents self); [done|done].
Qed.

End ChmStream.

Section InfoStream.
Import RclExecM RclInfo Stream.
Context `{Protocol}.

Lemma info_getnext_done (self : InfoExtractor) :
  0 <= currentindex self -> len (contents self) <= currentindex self ->
  getnext self = Ok (alreadydone, self).
Proof.
  intros H0 Hge. unfold getnext.
  destruct (Z.eqb_spec (currentindex self) (-1)); [lia|].
  destruct (Z.geb_spec (currentindex self) (len (contents self))); [done|lia].
Qed.

Lemma info_getnexts_done (k : nat) (self : InfoExtractor) :
  0 <= currentindex self -> len (contents self) <= currentindex self ->
  getnexts k self = Ok (replicate k alreadydone, self).
Proof.
  intros H0 Hge. induction k as [|k IH]; [done|].
  cbn [getnexts]. rewrite info_getnext_done by done. cbn. by rewrite IH.
Qed.

Lemma info_getnext_item (self : InfoExtractor) (pre suf : list (bytes * bytes)) (a : (bytes * bytes)) :
  contents self = (pre ++ a :: suf)%list ->
  currentindex self = len pre ->
  exists (d : pystr) (self' : InfoExtractor),
    getnext self
    = Ok ((true, d, PStr (str_of_int (len pre)),
           if bool_decide (suf = []) then eofnext else noteof), self')
    /\ contents self' = contents self
    /\ currentindex self' = len (pre ++ [a])%list.
Proof.
  intros Hcont Hidx. unfold getnext, extractone.
  assert (Hlen : len (contents self) = len pre + 1 + len suf).
  { rewrite Hcont. unfold len. rewrite length_app. cbn. lia. }
  assert (0 <= len pre /\ 0 <= len suf) as [Hp Hs] by (unfold len; lia).
  destruct (Z.eqb_spec (currentindex self) (-1)); [lia|].
  destruct (Z.geb_spec (currentindex self) (len (contents self))); [lia|].
  assert (Hget : py_index (contents self) (currentindex self) = Ok a).
  { rewrite Hidx, Hcont. apply py_index_middle. }
  rewrite Hget.
  assert (Heof : (if currentindex self >=? len (contents self) - 1 then eofnext else noteof)
                 = if bool_decide (suf = []) then eofnext else noteof).
  { destruct (Z.geb_spec (currentindex self) (len (contents self) - 1));
      destruct suf as [|b suf]; try done; unfold len in *; cbn in *; lia. }
  rewrite Heof.
  assert (Hl : len (pre ++ [a])%list = len pre + 1).
  { unfold len. rewrite length_app. cbn. lia. }
  destruct a as [nodename docdata]. cbn. rewrite Hidx. eexists _, _. split; [reflexivity|]. cbn. by rewrite Hl.
Qed.

Lemma info_getnexts_items (k : nat) (suf pre : list (bytes * bytes)) (self : InfoExtractor) :
  contents self = (pre ++ suf)%list ->
  currentindex self = len pre ->
  exists (items : list reply) (self' : InfoExtractor),
    getnexts (length suf + k) self = Ok (items ++ replicate k alreadydone, self')%list
    /\ length items = length suf
    /\ forall j : nat,
         (j < length suf)%nat ->
         exists d : pystr,
           items !! j
           = Some (true, d, PStr (str_of_int (len pre + Z.of_nat j)),
                   if bool_decide (S j = length suf) then eofnext else noteof).
Proof.
  revert pre self. induction suf as [|a suf IH]; intros pre self Hcont Hidx.
  - exists [], self. cbn. rewrite info_getnexts_done.
    + split_and!; [done..|]. intros j Hj. lia.
    + rewrite Hidx. unfold len. lia.
    + rewrite Hcont, Hidx, app_nil_r. lia.
  - destruct (info_getnext_item self pre suf a Hcont Hidx)
      as (d & self1 & Hstep & Hcont1 & Hidx1).
    destruct (IH (pre ++ [a])%list self1) as (items & self' & Hrun & Hlen & Hitems).
    + rewrite Hcont1, Hcont, <- app_assoc. done.
    + done.
    + eexists (_ :: items), self'. cbn [length Nat.add getnexts].
      rewrite Hstep. cbn. rewrite Hrun. cbn. split_and!; [done|by rewrite Hlen|].
      intros [|j] Hj.
      * exists d. cbn. rewrite Z.add_0_r. do 2 f_equal.
        destruct suf; cbn; [by rewrite !bool_decide_eq_true_2|by rewrite !bool_decide_eq_false_2].
      * destruct (Hitems j) as (d' & Hit); [cbn in Hj; lia|]. exists d'.
        etrans; [exact Hit|]. do 2 f_equal.
        -- do 3 f_equal. unfold len. rewrite length_app. cbn. lia.
        -- destruct (decide (S j = length suf)) as [e|ne].
           ++ rewrite !bool_decide_eq_true_2 by (cbn; lia). done.
           ++ rewrite !bool_decide_eq_false_2 by (cbn; lia). done.
Qed.

Lemma info_enumerates (self : InfoExtractor) (k : nat) :
  currentindex self = -1 ->
  exists (rs : list reply) (self' : InfoExtractor),
    getnexts (S (length (contents self)) + k) self = Ok (rs, self')
    /\ enumerates (positions (contents self)) k rs.
Proof.
  intros Hidx. cbn [Nat.add getnexts]. unfold getnext at 1. rewrite Hidx. cbn.
  set (self0 := setmimetype (set_currentindex self 0) "text/plain").
  destruct (info_getnexts_items k (contents self) [] self0)
    as (items & self' & Hrun & Hlen & Hitems); [done..|].
  change (contents self0) with (contents self). rewrite Hrun. cbn.
  eexists _, self'. split; [reflexivity|].
  exists items. unfold positions. rewrite length_imap. split_and!.
  - unfold selfdoc. do 3 f_equal.
    destruct (contents self) as [|e l]; cbn; [done|].
    destruct (Z.eqb_spec (len (e :: l)) 0) as [Hz|]; [unfold len in Hz; cbn in Hz; lia|done].
  - done.
  - intros i a Hi. apply list_lookup_imap_Some in Hi as (x & Hx & ->).
    destruct (Hitems i) as (d & Hd); [by eapply lookup_lt_Some|].
    exists true, d. rewrite Hd. done.
Qed.

End InfoStream.

Section IcsStream.
Import RclExecM RclIcs Stream.

Lemma ics_getnext_done (self : IcalExtractor) :
  0 <= currentindex self -> len (contents self) <= currentindex self ->
  getnext self = Ok (alreadydone, self).
Proof.
  intros H0 Hge. unfold getnext.
  destruct (Z.eqb_spec (currentindex self) (-1)); [lia|].
  destruct (Z.geb_spec (currentindex self) (len (contents self))); [done|lia].
Qed.

Lemma ics_getnexts_done (k : nat) (self : IcalExtractor) :
  0 <= currentindex self -> len (contents self) <= currentindex self ->
  getnexts k self = Ok (replicate k alreadydone, self).
Proof.
  intros H0 Hge. induction k as [|k IH]; [done|].
  cbn [getnexts]. rewrite ics_getnext_done by done. cbn. by rewrite IH.
Qed.

Lemma ics_getnext_item (self : IcalExtractor) (pre suf : list bytes) (a : bytes) :
  contents self = (pre ++ a :: suf)%list ->
  currentindex self = len pre ->
  exists (d : pystr) (self' : IcalExtractor),
    getnext self
    = Ok ((true, d, PStr (str_of_int (len pre)),
           if bool_decide (suf = []) then eofnext else noteof), self')
    /\ contents self' = contents self
    /\ currentindex self' = len (pre ++ [a])%list.
Proof.
  intros Hcont Hidx. unfold getnext, extractone.
  assert (Hlen : len (contents self) = len pre + 1 + len suf).
  { rewrite Hcont. unfold len. rewrite length_app. cbn. lia. }
  assert (0 <= len pre /\ 0 <= len suf) as [Hp Hs] by (unfold len; lia).
  destruct (Z.eqb_spec (currentindex self) (-1)); [lia|].
  destruct (Z.geb_spec (currentindex self) (len (contents self))); [lia|].
  assert (Hget : py_index (contents self) (currentindex self) = Ok a).
  { rewrite Hidx, Hcont. apply py_index_middle. }
  rewrite Hget.
  assert (Heof : (if currentindex self >=? len (contents self) - 1 then eofnext else noteof)
                 = if bool_decide (suf = []) then eofnext else noteof).
  { destruct (Z.geb_spec (currentindex self) (len (contents self) - 1));
      destruct suf as [|b suf]; try done; unfold len in *; cbn in *; lia. }
  rewrite Heof.
  assert (Hl : len (pre ++ [a])%list = len pre + 1).
  { unfold len. rewrite length_app. cbn. lia. }
  cbn. rewrite Hidx. eexists _, _. split; [reflexivity|]. cbn. by rewrite Hl.
Qed.

Lemma ics_getnexts_items (k : nat) (suf pre : list bytes) (self : IcalExtractor) :
  contents self = (pre ++ suf)%list ->
  currentindex self = len pre ->
  exists (items : list reply) (self' : IcalExtractor),
    getnexts (length suf + k) self = Ok (items ++ replicate k alreadydone, self')%list
    /\ length items = length suf
    /\ forall j : nat,
         (j < length suf)%nat ->
         exists d : pystr,
           items !! j
           = Some (true, d, PStr (str_of_int (len pre + Z.of_nat j)),
                   if bool_decide (S j = length suf) then eofnext else noteof).
Proof.
  revert pre self. induction suf as [|a suf IH]; intros pre self Hcont Hidx.
  - exists [], self. cbn. rewrite ics_getnexts_done.
    + split_and!; [done..|]. intros j Hj. lia.
    + rewrite Hidx. unfold len. lia.
    + rewrite Hcont, Hidx, app_nil_r. lia.
  - destruct (ics_getnext_item self pre suf a Hcont Hidx)
      as (d & self1 & Hstep & Hcont1 & Hidx1).
    destruct (IH (pre ++ [a])%list self1) as (items & self' & Hrun & Hlen & Hitems).
    + rewrite Hcont1, Hcont, <- app_assoc. done.
    + done.
    + eexists (_ :: items), self'. cbn [length Nat.add getnexts].
      rewrite Hstep. cbn. rewrite Hrun. cbn. split_and!; [done|by rewrite Hlen|].
      intros [|j] Hj.
      * exists d. cbn. rewrite Z.add_0_r. do 2 f_equal.
        destruct suf; cbn; [by rewrite !bool_decide_eq_true_2|by rewrite !bool_decide_eq_false_2].
      * destruct (Hitems j) as (d' & Hit); [cbn in Hj; lia|]. exists d'.
        etrans; [exact Hit|]. do 2 f_equal.
        -- do 3 f_equal. unfold len. rewrite length_app. cbn. lia.
        -- destruct (decide (S j = length suf)) as [e|ne].
           ++ rewrite !bool_decide_eq_true_2 by (cbn; lia). done.
           ++ rewrite !bool_decide_eq_false_2 by (cbn; lia). done.
Qed.

Lemma ics_enumerates (self : IcalExtractor) (k : nat) :
  currentindex self = -1 ->
  exists (rs : list reply) (self' : IcalExtractor),
    getnexts (S (length (contents self)) + k) self = Ok (rs, self')
    /\ enumerates (positions (contents self)) k rs.
Proof.
  intros Hidx. cbn [Nat.add getnexts]. unfold getnext at 1. rewrite Hidx. cbn.
  set (self0 := setmimetype (set_currentindex self 0) "text/plain").
  destruct (ics_getnexts_items k (contents self) [] self0)
    as (items & self' & Hrun & Hlen & Hitems); [done..|].
  change (contents self0) with (contents self). rewrite Hrun. cbn.
  eexists _, self'. split; [reflexivity|].
  exists items. unfold positions. rewrite length_imap. split_and!.
  - unfold selfdoc. do 3 f_equal.
    destruct (contents self) as [|e l]; cbn; [done|].
    destruct (Z.eqb_spec (len (e :: l)) 0) as [Hz|]; [unfold len in Hz; cbn in Hz; lia|done].
  - done.
  - intros i a Hi. apply list_lookup_imap_Some in Hi as (x & Hx & ->).
    destruct (Hitems i) as (d & Hd); [by eapply lookup_lt_Some|].
    exists true, d. rewrite Hd. done.
Qed.

End IcsStream.

(** C1.  In sequential mode, the successive [getnext] calls of an opened
    container return the self-document (success, empty body, [eofnext] on
    that very call exactly when the contents list is empty), then one tuple
    per address of the contents list, in order, of which the last alone
    carries [eofnext], and then failures with [eofnow], for as long as the
    caller goes on.  This holds for the CHM, the info and the calendar
    extractors. *)
Theorem getnext_enumerates_contents :
  (forall (L : RclChm.Library) (self : RclChm.rclCHM) (k : nat),
      RclChm.catenate self = false ->
      RclChm.currentindex self = -1 ->
      exists (rs : list RclExecM.reply) (self' : RclChm.rclCHM),
        RclChm.getnexts (S (length (RclChm.contents self)) + k) self = Ok (rs, self')
        /\ Stream.enumerates (PBytes <$> RclChm.contents self) k rs)
  /\ (forall (P : RclExecM.Protocol) (self : RclInfo.InfoExtractor) (k : nat),
        RclInfo.currentindex self = -1 ->
        exists (rs : list RclExecM.reply) (self' : RclInfo.InfoExtractor),
          RclInfo.getnexts (S (length (RclInfo.contents self)) + k) self = Ok (rs, self')
          /\ Stream.enumerates (Stream.positions (RclInfo.contents self)) k rs)
  /\ (forall (self : RclIcs.IcalExtractor) (k : nat),
        RclIcs.currentindex self = -1 ->
        exists (rs : list RclExecM.reply) (self' : RclIcs.IcalExtractor),
          RclIcs.getnexts (S (length (RclIcs.contents self)) + k) self = Ok (rs, self')
          /\ Stream.enumerates (Stream.positions (RclIcs.contents self)) k rs).
Proof.
  split_and!.
  - intros L self k. apply chm_enumerates.
  - intros P self k. apply info_enumerates.
  - intros self k. apply ics_enumerates.
Qed.

Lemma getnext_enumerates_contents_witness :
  (exists (rs : list RclExecM.reply) (self' : RclChm.rclCHM),
      RclChm.getnexts (H := Sample.library) 5 (Sample.opened false) = Ok (rs, self')
      /\ Stream.enumerates [PBytes "/home.html"; PBytes "/page1.html"] 2 rs)
  /\ (exists (rs : list RclExecM.reply) (self' : RclInfo.InfoExtractor),
        RclInfo.getnexts (H := Sample.protocol) 4 Sample.info_session = Ok (rs, self')
        /\ Stream.enumerates [PStr "0"; PStr "1"] 1 rs)
  /\ (exists (rs : list RclExecM.reply) (self' : RclIcs.IcalExtractor),
        RclIcs.getnexts 2 Sample.ics_session = Ok (rs, self')
        /\ Stream.enumerates [PStr "0"] 0 rs).
Proof.
  destruct getnext_enumerates_contents as (Hchm & Hinfo & Hics).
  split_and!.
  - apply (Hchm Sample.library (Sample.opened false) 2%nat); reflexivity.
  - apply (Hinfo Sample.protocol Sample.info_session 1%nat); reflexivity.
  - apply (Hics Sample.ics_session 0%nat); reflexivity.
Defined.

(** ** Random access *)

Lemma eof_of_cursor (cursor n : Z) :
  let e := if cursor >=? n - 1 then RclExecM.eofnext else RclExecM.noteof in
  (e = RclExecM.eofnext <-> n - 1 <= cursor) /\ (e = RclExecM.noteof <-> cursor < n - 1).
Proof.
  cbv zeta. destruct (Z.geb_spec cursor (n - 1)); split; split; intros; try done; lia.
Qed.

Lemma info_extractone_in_range `{RclExecM.Protocol}
  (self : RclInfo.InfoExtractor) (index : Z) :
  0 <= index < len (RclInfo.contents self) ->
  exists d : pystr,
    RclInfo.extractone self index
    = Ok ((true, d, PStr (str_of_int index),
           if RclInfo.currentindex self >=? len (RclInfo.contents self) - 1
           then RclExecM.eofnext else RclExecM.noteof),
          RclInfo.setmimetype self "text/html").
Proof.
  intros [H0 Hlt]. unfold RclInfo.extractone.
  destruct (Z.geb_spec index (len (RclInfo.contents self))); [lia|].
  assert (Hpi : py_index (RclInfo.contents self) index
                = of_option IndexError (RclInfo.contents self !! Z.to_nat index)).
  { rewrite <- py_index_nat. by rewrite Z2Nat.id. }
  rewrite Hpi.
  destruct (RclInfo.contents self !! Z.to_nat index) as [[nodename docdata]|] eqn:Hl.
  - cbn. eauto.
  - apply lookup_ge_None in Hl. unfold len in Hlt. lia.
Qed.

(** C2, as the code has it.  The end-of-stream state that [getipath]
    returns for an address is decided by the cursor alone: it is [eofnext]
    exactly when the cursor is at or past the last position of the contents
    list, and [noteof] otherwise, whatever the address; the call leaves the
    cursor where it is.  This holds for the CHM extractor and for
    [extractone] of the info extractor on an index in range. *)
Theorem getipath_eof_follows_cursor :
  (forall (L : RclChm.Library) (self : RclChm.rclCHM) (a : bytes),
      exists (okv : bool) (d : pystr) (e : RclExecM.eofstate),
        RclChm.getipath self (PBytes a) = Ok (okv, d, PBytes a, e)
        /\ (e = RclExecM.eofnext
            <-> len (RclChm.contents self) - 1 <= RclChm.currentindex self)
        /\ (e = RclExecM.noteof
            <-> RclChm.currentindex self < len (RclChm.contents self) - 1))
  /\ (forall (P : RclExecM.Protocol) (self : RclInfo.InfoExtractor) (index : Z),
        0 <= index < len (RclInfo.contents self) ->
        exists (d : pystr) (e : RclExecM.eofstate) (self' : RclInfo.InfoExtractor),
          RclInfo.extractone self index = Ok ((true, d, PStr (str_of_int index), e), self')
          /\ RclInfo.currentindex self' = RclInfo.currentindex self
          /\ (e = RclExecM.eofnext
              <-> len (RclInfo.contents self) - 1 <= RclInfo.currentindex self)
          /\ (e = RclExecM.noteof
              <-> RclInfo.currentindex self < len (RclInfo.contents self) - 1)).
Proof.
  split.
  - intros L self a. unfold RclChm.getipath.
    destruct (chm_extractone_bytes self a false) as (okv & d & ->).
    eexists okv, d, _. split; [reflexivity|]. apply eof_of_cursor.
  - intros P self index Hrange.
    destruct (info_extractone_in_range self index Hrange) as (d & ->).
    eexists d, _, _. split; [reflexivity|]. split; [done|]. apply eof_of_cursor.
Qed.

Lemma getipath_eof_follows_cursor_witness :
  exists (d : pystr) (e : RclExecM.eofstate) (self' : RclInfo.InfoExtractor),
    RclInfo.extractone (H := Sample.protocol) Sample.info_session 1
    = Ok ((true, d, PStr (str_of_int 1), e), self')
    /\ RclInfo.currentindex self' = RclInfo.currentindex Sample.info_session
    /\ (e = RclExecM.eofnext
        <-> len (RclInfo.contents Sample.info_session) - 1
            <= RclInfo.currentindex Sample.info_session)
    /\ (e = RclExecM.noteof
        <-> RclInfo.currentindex Sample.info_session
            < len (RclInfo.contents Sample.info_session) - 1).
Proof.
  apply (proj2 getipath_eof_follows_cursor Sample.protocol Sample.info_session 1).
  unfold len. cbn. lia.
Defined.

(** C2 as stated fails.  On a freshly opened session whose contents list is
    [/home.html], [/page1.html], asking for the last address gives [noteof];
    after the self-document and the first page have been served, asking for
    the first address gives [eofnext]. *)
Lemma getipath_eof_ignores_address :
  (exists (okv : bool) (d : pystr),
      last (RclChm.contents (Sample.opened false)) = Some "/page1.html"
      /\ RclChm.getipath (H := Sample.library) (Sample.opened false) (PBytes "/page1.html")
         = Ok (okv, d, PBytes "/page1.html", RclExecM.noteof))
  /\ (exists (rs : list RclExecM.reply) (self : RclChm.rclCHM) (okv : bool) (d : pystr),
        RclChm.getnexts (H := Sample.library) 2 (Sample.opened false) = Ok (rs, self)
        /\ RclChm.contents self = ["/home.html"; "/page1.html"]
        /\ RclChm.getipath (H := Sample.library) self (PBytes "/home.html")
           = Ok (okv, d, PBytes "/home.html", RclExecM.eofnext)).
Proof.
  split.
  - eexists _, _. split; reflexivity.
  - eexists _, _, _, _. split_and!; reflexivity.
Qed.

(** ** Discovery from the topics tree *)

Lemma split_not_nil (sep : ascii) (s : string) : Py.split sep s <> [].
Proof.
  destruct s as [|c s]; cbn; [done|].
  destruct (Ascii.eqb c sep); [done|]. by destruct (Py.split sep s).
Qed.

Lemma split_single (sep : ascii) (s x : string) :
  Py.split sep s = [x] -> x = s /\ Py.has_char sep s = false.
Proof.
  revert x. induction s as [|c s IH]; intros x; cbn.
  - by intros [= <-].
  - destruct (Ascii.eqb c sep) eqn:Hc.
    + intros [= <- Hs]. by apply split_not_nil in Hs.
    + destruct (Py.split sep s) as [|w ws] eqn:Hs; [by apply split_not_nil in Hs|].
      intros [= <- ->]. destruct (IH w eq_refl) as [-> ->]. done.
Qed.

Section Topics.
Import RclChm.
Context `{Library}.
#[local] Arguments peekfile : simpl never.

(** What one start tag can do to the contents list: nothing, or append the
    encoding of one path. *)
Lemma topics_handle_starttag_inv (self self' : rclCHM) (tag : string)
  (attrs : list (string * option string)) :
  topics_handle_starttag self (tag, attrs) = Ok self' ->
  self' = self
  \/ (tag = "param"
      /\ attr_last "name" (Some "") attrs = Some "Local"
      /\ exists (value localpath : string) (b : bytes),
           attr_last "value" (Some "") attrs = Some value
           /\ value <> ""
           /\ (Py.split ":" (urllib_unquote value) = [localpath]
               \/ exists vendor file mid : string,
                    Py.split ":" (urllib_unquote value) = [vendor; file; mid; localpath]
                    /\ file <> ""
                    /\ peekfile (chm self) (PStr localpath) (charset self) = Ok true)
           /\ localpath <> ""
           /\ Py.has_char "#" localpath = false
           /\ str_encode (charset self)
                (if Py.startswith localpath "/" then localpath else "/" ++ localpath)
              = Ok b
           /\ self' = set_contents self (contents self ++ [b])).
Proof.
  unfold topics_handle_starttag.
  destruct (String.eqb_spec tag "param") as [->|]; cbn [negb];
    [|intros [= <-]; by left].
  destruct (decide (attr_last "name" (Some "") attrs = Some "Local")) as [Hname|Hname];
    [rewrite (bool_decide_eq_true_2 _ Hname)
    |rewrite (bool_decide_eq_false_2 _ Hname); cbn; intros [= <-]; by left].
  destruct (decide (attr_last "value" (Some "") attrs = Some "")) as [Hval|Hval];
    [rewrite (bool_decide_eq_true_2 _ Hval); cbn; intros [= <-]; by left
    |rewrite (bool_decide_eq_false_2 _ Hval)].
  cbn [negb orb].
  destruct (attr_last "value" (Some "") attrs) as [value|] eqn:Hv; cbn; [|done].
  assert (Hvne : value <> "") by congruence.
  set (v := urllib_unquote value).
  assert (Hfin : forall localpath : string,
    (Py.split ":" v = [localpath]
     \/ exists vendor file mid : string,
          Py.split ":" v = [vendor; file; mid; localpath]
          /\ file <> ""
          /\ peekfile (chm self) (PStr localpath) (charset self) = Ok true) ->
    (if negb (String.eqb localpath "") && negb (Py.has_char "#" localpath)
     then
       b ← str_encode (charset self)
             (if Py.startswith localpath "/" then localpath else "/" ++ localpath);
       Ok (set_contents self (contents self ++ [b]))
     else Ok self) = Ok self' ->
    self' = self
    \/ ("param" = "param"
        /\ Some "Local" = Some "Local"
        /\ exists (value0 localpath0 : string) (b : bytes),
             Some value = Some value0
             /\ value0 <> ""
             /\ (Py.split ":" (urllib_unquote value0) = [localpath0]
                 \/ exists vendor file mid : string,
                      Py.split ":" (urllib_unquote value0) = [vendor; file; mid; localpath0]
                      /\ file <> ""
                      /\ peekfile (chm self) (PStr localpath0) (charset self) = Ok true)
             /\ localpath0 <> ""
             /\ Py.has_char "#" localpath0 = false
             /\ str_encode (charset self)
                  (if Py.startswith localpath0 "/" then localpath0 else "/" ++ localpath0)
                = Ok b
             /\ self' = set_contents self (contents self ++ [b]))).
  { intros localpath Hform.
    destruct (String.eqb_spec localpath "") as [->|Hne]; cbn [negb andb];
      [intros [= <-]; by left|].
    destruct (Py.has_char "#" localpath) eqn:Hh; cbn [negb];
      [intros [= <-]; by left|].
    destruct (str_encode _ _) as [b|e] eqn:Henc; cbn; [|done].
    intros [= <-]. right. split_and!; [done..|].
    exists value, localpath, b. split_and!; done. }
  rewrite Hname.
  destruct (Py.split ":" v) as [|x0 [|x1 [|x2 [|x3 [|x4 rest]]]]] eqn:Hs; cbn.
  - intros [= <-]; by left.
  - destruct (split_single _ _ _ Hs) as [-> _]. apply Hfin. by left.
  - intros [= <-]; by left.
  - intros [= <-]; by left.
  - destruct (String.eqb_spec x3 "") as [->|Hx3]; cbn [negb andb];
      [cbn; intros [= <-]; by left|].
    destruct (String.eqb_spec x1 "") as [->|Hx1]; cbn [negb andb];
      [cbn; intros [= <-]; by left|].
    destruct (peekfile (chm self) (PStr x3) (charset self)) as [[|]|e] eqn:Hpeek; cbn.
    + apply Hfin. right. by exists x0, x1, x2.
    + intros [= <-]; by left.
    + done.
  - intros [= <-]; by left.
Qed.

End Topics.

(** C3, as the code has it.  A start tag of the topics tree appends to the
    contents list only when it is a [param] whose name is [Local] and whose
    value is not empty.  The path kept is then either the whole unquoted
    value, when it has no colon, and no existence probe is made for it; or
    the last of exactly four colon-separated fields, when the second field
    is not empty and the last field resolves in the live container
    ([peekfile]).  In both cases the path is not empty and has no [#], and
    what is appended is the encoding of the path made to start with a
    slash. *)
Theorem topics_appends_only_local_paths (L : RclChm.Library)
  (self self' : RclChm.rclCHM) (tag : string) (attrs : list (string * option string)) :
  RclChm.topics_handle_starttag self (tag, attrs) = Ok self' ->
  RclChm.contents self' <> RclChm.contents self ->
  tag = "param"
  /\ RclChm.attr_last "name" (Some "") attrs = Some "Local"
  /\ exists (value localpath : string) (b : bytes),
       RclChm.attr_last "value" (Some "") attrs = Some value
       /\ value <> ""
       /\ (Py.split ":" (RclChm.urllib_unquote value) = [localpath]
           \/ exists vendor file mid : string,
                Py.split ":" (RclChm.urllib_unquote value) = [vendor; file; mid; localpath]
                /\ file <> ""
                /\ RclChm.peekfile (RclChm.chm self) (PStr localpath) (RclChm.charset self)
                   = Ok true)
       /\ localpath <> ""
       /\ Py.has_char "#" localpath = false
       /\ RclChm.str_encode (RclChm.charset self)
            (if Py.startswith localpath "/" then localpath else "/" ++ localpath)
          = Ok b
       /\ self' = RclChm.set_contents self (RclChm.contents self ++ [b]).
Proof.
  intros Hrun Hchanged.
  destruct (topics_handle_starttag_inv self self' tag attrs Hrun) as [->|Hacc]; done.
Qed.

Lemma topics_appends_only_local_paths_witness :
  exists self' : RclChm.rclCHM,
    RclChm.topics_handle_starttag (H := Sample.library)
      (RclChm.load (Sample.fresh false) Sample.cyclic_chm)
      ("param", [("name", Some "Local"); ("value", Some "v:f.chm::/page1.html")])
    = Ok self'
    /\ RclChm.contents self' = ["/page1.html"]
    /\ exists localpath : string,
         (exists vendor file mid : string,
             Py.split ":" "v:f.chm::/page1.html" = [vendor; file; mid; localpath]
             /\ file <> "")
         /\ RclChm.peekfile (H := Sample.library) Sample.cyclic_chm (PStr localpath) "cp1252"
            = Ok true.
Proof.
  eexists. split; [reflexivity|]. split; [reflexivity|].
  destruct (topics_appends_only_local_paths Sample.library
              (RclChm.load (Sample.fresh false) Sample.cyclic_chm) _
              "param" [("name", Some "Local"); ("value", Some "v:f.chm::/page1.html")]
              eq_refl)
    as (_ & _ & value & localpath & b & Hv & _ & Hform & _ & _ & _ & _).
  { cbn. discriminate. }
  injection Hv as <-. exists localpath.
  destruct Hform as [Hplain|(vendor & file & mid & Hsplit & Hfile & Hpeek)].
  - cbv in Hplain. discriminate Hplain.
  - split; [by exists vendor, file, mid|exact Hpeek].
Defined.

(** C3 as stated fails for a plain value.  A topics tree whose only record
    is [Local] = [nosuch.html] makes [openfile] succeed with the contents list
    [/nosuch.html], although neither [nosuch.html] nor [/nosuch.html] resolves
    in the container. *)
Lemma topics_plain_path_not_probed :
  (exists self' : RclChm.rclCHM,
      RclChm.openfile (H := Sample.library) 0 (Sample.fresh false) (Some Sample.topics_chm)
      = Some (Ok (true, self'))
      /\ RclChm.contents self' = ["/nosuch.html"])
  /\ RclChm.peekfile (H := Sample.library) Sample.topics_chm (PStr "nosuch.html") "cp1252"
     = Ok false
  /\ RclChm.peekfile (H := Sample.library) Sample.topics_chm (PBytes "/nosuch.html") "cp1252"
     = Ok false.
Proof.
  split_and!; [|reflexivity..].
  eexists. split; reflexivity.
Qed.

(** ** Catenation *)

Lemma append_closing_not_empty (pre : string) : String.eqb (pre ++ "</body></html>") "" = false.
Proof. by destruct pre. Qed.

Section Catenate.
Import RclExecM RclChm.
Context `{Library}.
#[local] Arguments extractone : simpl never.
#[local] Arguments dumpall_step : simpl never.

Lemma dumpall_closing (self : rclCHM) (out : bytes) :
  dumpall self = Ok out -> exists pre : bytes, out = pre ++ "</body></html>".
Proof.
  unfold dumpall.
  destruct (foldM (dumpall_step self) (contents self) ("", true)) as [[alltxt first]|e];
    cbn; [|done].
  intros [= <-]. by exists alltxt.
Qed.

Lemma dumpall_step_body (self : rclCHM) (alltxt alltxt' : bytes) (first first' : bool)
  (pth doc body : bytes) (ipath : pystr) (e : eofstate) :
  extractone self (PBytes pth) true = Ok (true, PBytes doc, ipath, e) ->
  bodyre_search doc = Some body ->
  dumpall_step self (alltxt, first) pth = Ok (alltxt', first') ->
  exists head : bytes, alltxt' = alltxt ++ head ++ body.
Proof.
  intros Hget Hbody. unfold dumpall_step. rewrite Hget. cbn. rewrite Hbody.
  destruct (first && headerre_search doc).
  - destruct (as_bytes _ _) as [t|err]; cbn; [|done].
    destruct (title_sub t doc) as [header|err]; cbn; [|done].
    intros [= <- <-]. exists (header ++ "<body>"). by rewrite !str_app_assoc.
  - cbn. intros [= <- <-]. by exists "".
Qed.

(** The bodies of two documents come out in the order of the contents
    list. *)
Lemma dumpall_two_in_order (self : rclCHM) (p1 p2 d1 d2 x y out : bytes)
  (i1 i2 : pystr) (e1 e2 : eofstate) :
  contents self = [p1; p2] ->
  extractone self (PBytes p1) true = Ok (true, PBytes d1, i1, e1) ->
  extractone self (PBytes p2) true = Ok (true, PBytes d2, i2, e2) ->
  bodyre_search d1 = Some x ->
  bodyre_search d2 = Some y ->
  dumpall self = Ok out ->
  exists a b : bytes, out = a ++ x ++ b ++ y ++ "</body></html>".
Proof.
  intros Hc H1 H2 Hx Hy. unfold dumpall. rewrite Hc. cbn [foldM].
  destruct (dumpall_step self ("", true) p1) as [[t1 f1]|err] eqn:Hs1; cbn; [|done].
  destruct (dumpall_step self (t1, f1) p2) as [[t2 f2]|err] eqn:Hs2; cbn; [|done].
  intros [= <-].
  destruct (dumpall_step_body _ _ _ _ _ _ _ _ _ _ H1 Hx Hs1) as [a ->].
  destruct (dumpall_step_body _ _ _ _ _ _ _ _ _ _ H2 Hy Hs2) as [b ->].
  exists a, b. cbn. by rewrite !str_app_assoc.
Qed.

(** Whatever the documents are, the text that [dumpall] returns is not
    empty, so the catenating [getnext] always takes its first branch. *)
Lemma getnext_catenate_succeeds (self : rclCHM) (out : bytes) :
  catenate self = true ->
  dumpall self = Ok out ->
  getnext self = Ok ((true, PBytes out, PStr "", eofnext), closefile self).
Proof.
  intros Hc Hout. unfold getnext. rewrite Hc, Hout. cbn.
  destruct (dumpall_closing self out Hout) as [pre ->].
  by rewrite append_closing_not_empty.
Qed.

End Catenate.

Example dumpall_two_bodies :
  RclChm.dumpall (H := Sample.library) Sample.bodies_session = Ok "XY</body></html>".
Proof. reflexivity. Qed.

(** C5, where the code departs from it.  The two pages of the sample
    container have no body region (the body expression matches neither) and
    both are fetched; the text assembled by [dumpall] is then the closing
    markers, not the empty text, and the catenating [getnext] returns it as a
    success. *)
Theorem dumpall_without_body_not_empty :
  RclChm.contents (Sample.opened true) = ["/home.html"; "/page1.html"]
  /\ RclChm.extractone (H := Sample.library) (Sample.opened true) (PBytes "/home.html") true
     = Ok (true, PBytes "<a href=page1.html>", PBytes "/home.html", RclExecM.noteof)
  /\ RclChm.extractone (H := Sample.library) (Sample.opened true) (PBytes "/page1.html") true
     = Ok (true, PBytes "<a href=home.html>", PBytes "/page1.html", RclExecM.noteof)
  /\ RclChm.bodyre_search "<a href=page1.html>" = None
  /\ RclChm.bodyre_search "<a href=home.html>" = None
  /\ RclChm.dumpall (H := Sample.library) (Sample.opened true) = Ok "</body></html>"
  /\ RclChm.getnext (H := Sample.library) (Sample.opened true)
     = Ok ((true, PBytes "</body></html>", PStr "", RclExecM.eofnext),
           RclChm.closefile (Sample.opened true)).
Proof. split_and!; reflexivity. Qed.

(** ** Discovery by following links *)

Section WalkReturns.
Import RclChm Walk.
Context `{Library}.
Variable self : rclCHM.

(** The container holds finitely many documents: every path whose fetch
    gives a text is in [files]. *)
Variable files : gset bytes.
Hypothesis fetchable :
  forall (p : bytes) (text : pystr),
    getfile (chm self) (PBytes p) = Ok text -> truthy text = true -> p ∈ files.

#[local] Abbreviation unvisited := (Walk.unvisited files).
#[local] Abbreviation extends := (Walk.extends files).

Lemma unvisited_mono (c c' : list bytes) :
  c `prefix_of` c' -> (unvisited c' <= unvisited c)%nat.
Proof.
  intros [ext ->]. unfold unvisited. apply subseteq_size. intros x.
  rewrite !elem_of_difference, !elem_of_list_to_set, elem_of_app. tauto.
Qed.

Lemma unvisited_enter (c : list bytes) (p : bytes) :
  p ∈ files -> p ∉ c -> (unvisited (c ++ [p]) < unvisited c)%nat.
Proof.
  intros Hp Hc. unfold unvisited. apply subset_size. split.
  - intros x. rewrite !elem_of_difference, !elem_of_list_to_set, elem_of_app. tauto.
  - intros Hsub. specialize (Hsub p).
    rewrite !elem_of_difference, !elem_of_list_to_set, elem_of_app, list_elem_of_singleton
      in Hsub.
    destruct Hsub as [_ Hn]; [done|]. apply Hn. by right.
Qed.

Lemma feed_tags_extends (n : nat) (handle : starttag -> list bytes -> option outcome)
  (tags : list starttag) (c : list bytes) :
  extends n handle ->
  (unvisited c <= n)%nat ->
  exists (c' : list bytes) (r : res unit),
    feed_tags handle tags c = Some (c', r) /\ c `prefix_of` c'.
Proof.
  intros Hh. revert c. induction tags as [|t tags IH]; intros c Hc; cbn.
  - by exists c, (Ok ()).
  - destruct (Hh t c Hc) as (c1 & r1 & -> & Hpre).
    destruct r1 as [u|e]; [|by exists c1, (Raise e)].
    destruct (IH c1) as (c2 & r2 & -> & Hpre2).
    + pose proof (unvisited_mono c c1 Hpre). lia.
    + exists c2, r2. split; [done|]. by etrans.
Qed.

Lemma walker_handle_starttag_extends (n : nat)
  (recurse : ChmWalker -> string -> list bytes -> option outcome) (w : ChmWalker) :
  (forall (w' : ChmWalker) (text : string) (c : list bytes),
      (unvisited c < n)%nat ->
      exists (c' : list bytes) (r : res unit),
        recurse w' text c = Some (c', r) /\ c `prefix_of` c') ->
  extends n (walker_handle_starttag recurse self w).
Proof.
  intros Hrec [tag attrs] c Hc. unfold walker_handle_starttag.
  destruct (negb (String.eqb tag "a")); [by exists c, (Ok ())|].
  destruct (link_path self _) as [pth|e]; [|by exists c, (Raise e)].
  destruct (String.eqb pth ""); [by exists c, (Ok ())|].
  destruct (str_encode (charset self) pth) as [bpath|e]; [|by exists c, (Raise e)].
  set (npath := if Py.startswith pth "/" then _ else _).
  assert (Hnorm : PosixPath.normpath npath = npath).
  { unfold npath. destruct (Py.startswith pth "/"); apply normpath_idempotent. }
  destruct (decide (npath ∈ c)) as [Hin|Hnin].
  { rewrite (bool_decide_eq_true_2 _ Hin). by exists c, (Ok ()). }
  rewrite (bool_decide_eq_false_2 _ Hnin).
  destruct (getfile (chm self) (PBytes npath)) as [text|e] eqn:Hget;
    [|by exists c, (Raise e)].
  destruct (truthy text) eqn:Htext; [|by exists c, (Ok ())].
  unfold descend, ChmWalker_init. cbn. rewrite Hnorm.
  destruct (fixencoding text) as [[t cs]|e].
  - destruct (Hrec {| path := npath; dir := PosixPath.dirname npath |} t
                (c ++ [npath])%list)
      as (c' & r & -> & Hpre).
    + pose proof (unvisited_enter c npath (fetchable _ _ Hget Htext) Hnin). lia.
    + exists c', (Ok ()). split; [done|]. etrans; [|exact Hpre]. by apply prefix_app_r.
  - exists (c ++ [npath])%list, (Ok ()). split; [done|]. by apply prefix_app_r.
Qed.

(** With a depth above the number of documents not yet entered, the walk
    returns. *)
Lemma walker_feed_returns (depth : nat) (w : ChmWalker) (text : string) (c : list bytes) :
  (unvisited c < depth)%nat ->
  exists (c' : list bytes) (r : res unit),
    walker_feed depth self w text c = Some (c', r) /\ c `prefix_of` c'.
Proof.
  revert w text c. induction depth as [|depth IH]; intros w text c Hc; [lia|].
  cbn [walker_feed]. apply (feed_tags_extends depth); [|lia].
  apply walker_handle_starttag_extends. intros w' text' c' Hc'. by apply IH.
Qed.

(** More depth does not change what a walk that returned has returned. *)
Lemma feed_tags_deeper (h h' : starttag -> list bytes -> option outcome)
  (tags : list starttag) (c : list bytes) (o : outcome) :
  (forall (t : starttag) (c : list bytes) (o : outcome), h t c = Some o -> h' t c = Some o) ->
  feed_tags h tags c = Some o -> feed_tags h' tags c = Some o.
Proof.
  intros Hh. revert c. induction tags as [|t tags IH]; intros c; cbn; [done|].
  destruct (h t c) as [[c1 r1]|] eqn:Ht; [|done].
  rewrite (Hh _ _ _ Ht). destruct r1; [apply IH|done].
Qed.

Lemma descend_deeper (rec rec' : ChmWalker -> string -> list bytes -> option outcome)
  (npath : bytes) (text : pystr) (c : list bytes) (o : outcome) :
  deeper rec rec' ->
  descend rec self npath text c = Some o -> descend rec' self npath text c = Some o.
Proof.
  intros Hrec. unfold descend.
  destruct (ChmWalker_init self (PBytes npath) c) as [[w' c']|e]; [|done].
  destruct (fixencoding text) as [[t cs]|e]; [|done].
  apply Hrec.
Qed.

Lemma walker_handle_starttag_deeper
  (rec rec' : ChmWalker -> string -> list bytes -> option outcome)
  (w : ChmWalker) (t : starttag) (c : list bytes) (o : outcome) :
  deeper rec rec' ->
  walker_handle_starttag rec self w t c = Some o ->
  walker_handle_starttag rec' self w t c = Some o.
Proof.
  intros Hrec. destruct t as [tag attrs]. unfold walker_handle_starttag.
  destruct (negb (String.eqb tag "a")); [done|].
  destruct (link_path self _) as [pth|e]; [|done].
  destruct (String.eqb pth ""); [done|].
  destruct (str_encode (charset self) pth) as [bpath|e]; [|done].
  set (npath := if Py.startswith pth "/" then _ else _).
  destruct (bool_decide (npath ∈ c)); [done|].
  destruct (getfile (chm self) (PBytes npath)) as [text|e]; [|done].
  destruct (truthy text); [|done].
  destruct (descend rec self npath text c) as [[c' r]|] eqn:Hd; [|done].
  by rewrite (descend_deeper rec rec' _ _ _ _ Hrec Hd).
Qed.

Lemma walker_feed_deeper (d d' : nat) :
  (d <= d')%nat -> deeper (walker_feed d self) (walker_feed d' self).
Proof.
  revert d'. induction d as [|d IH]; intros d' Hd w text c o; [done|].
  destruct d' as [|d']; [lia|]. cbn [walker_feed]. apply feed_tags_deeper.
  intros t c1 o1. apply walker_handle_starttag_deeper. apply IH. lia.
Qed.

(** The outcome of the walk: the same for every depth above the number of
    documents of the container. *)
Lemma walker_feed_total (w : ChmWalker) (text : string) (c : list bytes) :
  exists (c' : list bytes) (r : res unit),
    c `prefix_of` c'
    /\ forall depth : nat,
         (size files < depth)%nat -> walker_feed depth self w text c = Some (c', r).
Proof.
  assert (Hle : (unvisited c <= size files)%nat).
  { unfold unvisited. apply subseteq_size. intros x. rewrite elem_of_difference. tauto. }
  destruct (walker_feed_returns (S (size files)) w text c) as (c' & r & Hrun & Hpre); [lia|].
  exists c', r. split; [done|]. intros depth Hdepth.
  apply (walker_feed_deeper (S (size files)) depth); [lia|done].
Qed.

End WalkReturns.

Lemma uniq_spec (u : gset bytes) (l : list bytes) :
  NoDup (RclChm.uniq u l)
  /\ forall x : bytes, x ∈ RclChm.uniq u l <-> x ∈ l /\ x ∉ u.
Proof.
  revert u. induction l as [|t l IH]; intros u; cbn.
  - split; [constructor|]. intros x. rewrite elem_of_nil. tauto.
  - destruct (decide (t ∈ u)) as [Hin|Hnin].
    + rewrite (bool_decide_eq_true_2 _ Hin). destruct (IH u) as [Hnd Hmem].
      split; [done|]. intros x. rewrite Hmem, elem_of_cons.
      split; [tauto|]. intros [[->|Hx] Hu]; done.
    + rewrite (bool_decide_eq_false_2 _ Hnin). destruct (IH ({[t]} ∪ u)) as [Hnd Hmem].
      split.
      * constructor; [|done]. rewrite Hmem, elem_of_union, elem_of_singleton. tauto.
      * intros x. rewrite !elem_of_cons, Hmem, elem_of_union, elem_of_singleton.
        destruct (decide (x = t)) as [->|Hne]; tauto.
Qed.

Section OpenWalk.
Import RclChm.
Context `{Library}.
#[local] Arguments PosixPath.normpath : simpl never.
#[local] Arguments PosixPath.dirname : simpl never.

Lemma openfile_walk_total (self : rclCHM) (c : CHMFile) (files : gset bytes) :
  (forall (p : bytes) (text : pystr),
      getfile c (PBytes p) = Ok text -> truthy text = true -> p ∈ files) ->
  GetTopicsTree c = None ->
  exists out : res (bool * rclCHM),
    (forall depth : nat, (size files < depth)%nat -> openfile depth self (Some c) = Some out)
    /\ forall self' : rclCHM,
         out = Ok (true, self') ->
         exists (h : bytes) (rest : list bytes),
           home c = Some h
           /\ contents self' = PosixPath.normpath h :: rest
           /\ NoDup (contents self').
Proof.
  intros Hfiles Htopics. unfold openfile. rewrite Htopics.
  destruct (home c) as [[|h0 h]|] eqn:Hhome;
    [eexists; split; [by intros|by intros ? [=]]| |eexists; split; [by intros|by intros ? [=]]].
  destruct (getfile c _) as [text|e];
    [|eexists; split; [by intros|by intros ? [=]]].
  destruct (truthy text); cbn [negb];
    [|eexists; split; [by intros|by intros ? [=]]].
  unfold ChmWalker_init. cbn.
  set (np := PosixPath.normpath (String h0 h)).
  destruct (fixencoding text) as [[t cs]|e];
    [|eexists; split; [by intros|by intros ? [=]]].
  set (self1 := set_charset (load self c) cs).
  destruct (walker_feed_total self1 files Hfiles
              {| path := np; dir := PosixPath.dirname np |} t [np])
    as (c' & r & Hpre & Hrun).
  destruct r as [u|e].
  - exists (finish_open (set_contents self1 c')). split.
    + intros depth Hd. by rewrite (Hrun depth Hd).
    + intros self' [= <-]. destruct Hpre as [ext ->].
      pose proof (proj1 (uniq_spec ∅ (np :: ext))) as Hnd.
      assert (Hu : uniq ∅ (np :: ext) = np :: uniq ({[np]} ∪ ∅) ext).
      { cbn. by rewrite bool_decide_eq_false_2 by apply not_elem_of_empty. }
      rewrite Hu in Hnd.
      exists (String h0 h), (uniq ({[np]} ∪ ∅) ext). split; [done|].
      change (contents (set_contents self1 (uniq ∅ (np :: ext)))
              = np :: uniq ({[np]} ∪ ∅) ext
              /\ NoDup (contents (set_contents self1 (uniq ∅ (np :: ext))))).
      cbn [contents set_contents]. by rewrite Hu.
  - exists (Raise e). split; [|by intros ? [=]].
    intros depth Hd. by rewrite (Hrun depth Hd).
Qed.

End OpenWalk.

(** C6.  When the container has no topics tree, [openfile] walks the links
    from the home page, and the walk returns: for every container with
    finitely many documents there is one outcome that every recursion depth
    above the number of documents produces, because a walker descends only
    into a document that is not yet in the contents list and appends it
    first.  When the outcome is a success, the contents list starts with the
    normalised home path and has no duplicate.  On the two pages that link to
    each other, the contents list is the home page, then the other page. *)
Theorem link_walk_terminates :
  (forall (L : RclChm.Library) (self : RclChm.rclCHM) (c : RclChm.CHMFile)
          (files : gset bytes),
      (forall (p : bytes) (text : pystr),
          RclChm.getfile c (PBytes p) = Ok text -> truthy text = true -> p ∈ files) ->
      RclChm.GetTopicsTree c = None ->
      exists out : res (bool * RclChm.rclCHM),
        (forall depth : nat,
            (size files < depth)%nat -> RclChm.openfile depth self (Some c) = Some out)
        /\ forall self' : RclChm.rclCHM,
             out = Ok (true, self') ->
             exists (h : bytes) (rest : list bytes),
               RclChm.home c = Some h
               /\ RclChm.contents self' = PosixPath.normpath h :: rest
               /\ NoDup (RclChm.contents self'))
  /\ exists self' : RclChm.rclCHM,
       (forall depth : nat,
           (2 < depth)%nat ->
           RclChm.openfile (H := Sample.library) depth (Sample.fresh false)
             (Some Sample.cyclic_chm)
           = Some (Ok (true, self')))
       /\ RclChm.contents self' = ["/home.html"; "/page1.html"].
Proof.
  split; [intros L self c files; apply openfile_walk_total|].
  exists (Sample.opened false). split; [|reflexivity].
  intros depth Hd. do 3 (destruct depth as [|depth]; [lia|]). reflexivity.
Qed.

Lemma link_walk_terminates_witness :
  exists out : res (bool * RclChm.rclCHM),
    (forall depth : nat,
        (size Sample.cyclic_files < depth)%nat ->
        RclChm.openfile (H := Sample.library) depth (Sample.fresh false)
          (Some Sample.cyclic_chm)
        = Some out)
    /\ forall self' : RclChm.rclCHM,
         out = Ok (true, self') ->
         exists (h : bytes) (rest : list bytes),
           RclChm.home Sample.cyclic_chm = Some h
           /\ RclChm.contents self' = PosixPath.normpath h :: rest
           /\ NoDup (RclChm.contents self').
Proof.
  apply (proj1 link_walk_terminates Sample.library (Sample.fresh false)
           Sample.cyclic_chm Sample.cyclic_files); [|reflexivity].
  intros p text. unfold RclChm.getfile, Sample.cyclic_chm, Sample.cyclic_files. cbn.
  destruct (String.eqb_spec p "/home.html") as [->|_];
    [intros _ _; apply elem_of_union; left; by apply elem_of_singleton|].
  destruct (String.eqb_spec p "/page1.html") as [->|_];
    [intros _ _; apply elem_of_union; right; by apply elem_of_singleton|].
  intros [= <-]. discriminate.
Defined.

(** ** [fixencoding] and its callers *)

Section Fixencoding.
Import RclChm Unbound.
Context `{L : Library}.
Hypothesis sound : library_sound L.
#[local] Arguments peekfile : simpl never.
#[local] Arguments getfile : simpl never.
#[local] Arguments fixencoding : simpl never.
#[local] Arguments topics_handle_starttag : simpl never.
#[local] Arguments walker_feed : simpl never.

Ltac unbound := unfold bound in *; cbn in *; first [done | congruence].

Lemma getfile_truthy (chmfile : CHMFile) (p text : pystr) :
  getfile chmfile p = Ok text -> truthy text = true ->
  exists b : bytes, text = PBytes b /\ b <> "".
Proof.
  unfold getfile. destruct p as [s|p]; [done|].
  destruct (ResolveObject chmfile p) as [ui|]; [|by intros [= <-]].
  destruct (RetrieveObject chmfile ui) as [r doc].
  destruct (r =? 0); [by intros [= <-]|].
  intros [= <-]. cbn. intros Hdoc. exists doc. split; [done|].
  intros ->. done.
Qed.

Lemma getfile_bound (chmfile : CHMFile) (p : bytes) : bound (getfile chmfile (PBytes p)).
Proof. unfold bound, getfile. repeat case_match; done. Qed.

Lemma fixencoding_bytes_bound (b : bytes) : bound (fixencoding (PBytes b)).
Proof.
  destruct sound as (_ & Hdec & _). unfold bound, fixencoding.
  match goal with |- context [bytes_decode ?cs ?x] =>
    pose proof (Hdec cs x); destruct (bytes_decode cs x) end; cbn; congruence.
Qed.

Lemma as_bytes_bound (cs : string) (p : pystr) : bound (as_bytes cs p).
Proof. destruct sound as (Henc & _). destruct p; cbn; [apply Henc|done]. Qed.

Lemma peekfile_bound (chmfile : CHMFile) (p : pystr) (cs : string) :
  bound (peekfile chmfile p cs).
Proof.
  unfold bound, peekfile. pose proof (as_bytes_bound cs p) as Hb.
  destruct (as_bytes cs p); cbn; [by repeat case_match|unbound].
Qed.

Lemma link_path_bound (self : rclCHM) (href : option string) : bound (link_path self href).
Proof.
  destruct sound as (_ & _ & Hurl). unfold bound, link_path.
  destruct href as [href|]; cbn; [|done].
  pose proof (Hurl href). destruct (urlparse_urlparse href) as [[scheme pth]|e]; cbn; [|congruence].
  destruct (String.eqb scheme ""); [|done].
  destruct (Py.split ":" pth) as [|p0 [|p1 [|p2 [|p3 rest]]]]; try done.
  pose proof (peekfile_bound (chm self) (PStr p2) (charset self)) as Hp.
  destruct (peekfile _ _ _); unbound.
Qed.

Lemma topics_handle_starttag_bound (self : rclCHM) (t : starttag) :
  bound (topics_handle_starttag self t).
Proof.
  destruct sound as (Henc & _). unfold bound, topics_handle_starttag. destruct t as [tag attrs].
  destruct (negb (String.eqb tag "param")); [done|].
  destruct (_ || _); [done|].
  destruct (attr_last "value" (Some "") attrs) as [value|]; cbn; [|done].
  assert (Hfin : forall localpath : string,
    (if negb (String.eqb localpath "") && negb (Py.has_char "#" localpath)
     then
       b ← str_encode (charset self)
             (if Py.startswith localpath "/" then localpath else "/" ++ localpath);
       Ok (set_contents self (contents self ++ [b]))
     else Ok self) <> Raise UnboundLocalError).
  { intros localpath. destruct (_ && _); [|done].
    match goal with |- context [str_encode ?cs ?x] =>
      pose proof (Henc cs x); destruct (str_encode cs x) end; cbn; congruence. }
  destruct (Py.split ":" (urllib_unquote value)) as [|x0 [|x1 [|x2 [|x3 [|x4 rest]]]]];
    cbn; try apply Hfin; try done.
  destruct (negb (String.eqb x3 "") && negb (String.eqb x1 "")); cbn; [|done].
  pose proof (peekfile_bound (chm self) (PStr x3) (charset self)) as Hp.
  destruct (peekfile _ _ _) as [found|e]; cbn; [apply Hfin|unbound].
Qed.

Lemma topics_feed_bound (self : rclCHM) (text : string) : bound (topics_feed self text).
Proof.
  unfold topics_feed. generalize (starttags text). intros tags. revert self.
  induction tags as [|t tags IH]; intros self; cbn; [done|].
  pose proof (topics_handle_starttag_bound self t) as Ht.
  destruct (topics_handle_starttag self t); cbn; [apply IH|unbound].
Qed.

Lemma descend_bound (recurse : ChmWalker -> string -> list bytes -> option outcome)
  (self : rclCHM) (npath : bytes) (text : pystr) (c : list bytes) :
  (forall (w : ChmWalker) (t : string) (c : list bytes), walk_bound (recurse w t c)) ->
  getfile (chm self) (PBytes npath) = Ok text ->
  truthy text = true ->
  walk_bound (descend recurse self npath text c).
Proof.
  intros Hrec Hget Htext c' r. unfold descend. cbn.
  destruct (getfile_truthy _ _ _ Hget Htext) as (b & -> & _).
  pose proof (fixencoding_bytes_bound b) as Hfix.
  destruct (fixencoding (PBytes b)) as [[t cs]|e]; [apply Hrec|intros [= <- <-]; unbound].
Qed.

Lemma walker_handle_starttag_bound
  (recurse : ChmWalker -> string -> list bytes -> option outcome)
  (self : rclCHM) (w : ChmWalker) (t : starttag) (c : list bytes) :
  walk_bound (walker_handle_starttag recurse self w t c).
Proof.
  destruct sound as (Henc & _).
  intros c' r. unfold walker_handle_starttag. destruct t as [tag attrs].
  destruct (negb (String.eqb tag "a")); [by intros [= <- <-]|]. cbv zeta.
  pose proof (link_path_bound self (attr_last "href" (Some "") attrs)) as Hl.
  destruct (link_path self _) as [pth|e]; [|intros [= <- <-]; unbound].
  destruct (String.eqb pth ""); [by intros [= <- <-]|].
  pose proof (Henc (charset self) pth) as He.
  destruct (str_encode (charset self) pth) as [bpath|e];
    [|intros [= <- <-]; unbound].
  destruct (bool_decide _); [by intros [= <- <-]|].
  match goal with |- context [getfile ?f (PBytes ?p)] =>
    pose proof (getfile_bound f p) as Hg; destruct (getfile f (PBytes p)) end;
    [|intros [= <- <-]; unbound].
  destruct (truthy _); [|intros [= <- <-]; unbound].
  destruct (descend _ _ _ _ _) as [[c1 r1]|]; [|done]. by intros [= <- <-].
Qed.

Lemma feed_tags_bound (handle : starttag -> list bytes -> option outcome)
  (tags : list starttag) (c : list bytes) :
  (forall (t : starttag) (c : list bytes), walk_bound (handle t c)) ->
  walk_bound (feed_tags handle tags c).
Proof.
  intros Hh. revert c. induction tags as [|t tags IH]; intros c c' r; cbn.
  - by intros [= <- <-].
  - pose proof (Hh t c) as Ht. destruct (handle t c) as [[c1 [u|e]]|]; [apply IH| |done].
    intros [= <- <-]. by eapply Ht.
Qed.

Lemma walker_feed_bound (depth : nat) (self : rclCHM) (w : ChmWalker) (text : string)
  (c : list bytes) :
  walk_bound (walker_feed depth self w text c).
Proof.
  destruct depth as [|depth]; [done|]. cbn [walker_feed].
  apply feed_tags_bound. intros t c1. apply walker_handle_starttag_bound.
Qed.

Lemma openfile_bound (depth : nat) (self : rclCHM) (loaded : option CHMFile) :
  openfile depth self loaded <> Some (Raise UnboundLocalError).
Proof.
  unfold openfile. destruct loaded as [c|]; [|done].
  assert (Hwalk : match home c with
    | Some (String h0 _ as chm_home) =>
        let home := if Ascii.eqb h0 "/" then chm_home else "/" ++ chm_home in
        match getfile c (PBytes home) with
        | Raise e => Some (Raise e)
        | Ok text =>
            if negb (truthy text) then Some (Ok (false, load self c))
            else
              match ChmWalker_init (load self c) (PBytes chm_home) (contents (load self c)) with
              | Raise e => Some (Raise e)
              | Ok (walker, contents) =>
                  match fixencoding text with
                  | Raise e => Some (Raise e)
                  | Ok (text, cs) =>
                      let self := set_charset (load self c) cs in
                      match walker_feed depth self walker text contents with
                      | None => None
                      | Some (_, Raise e) => Some (Raise e)
                      | Some (contents, Ok _) =>
                          Some (finish_open (set_contents self contents))
                      end
                  end
              end
        end
    | _ => Some (Ok (false, load self c))
    end <> Some (Raise UnboundLocalError)).
  { destruct (home c) as [[|h0 h]|]; [done| |done]. cbv zeta.
    match goal with |- context [getfile c (PBytes ?p)] =>
      pose proof (getfile_bound c p) as Hg; destruct (getfile c (PBytes p)) as [text|e] eqn:Hget end;
      [|congruence].
    destruct (truthy text) eqn:Htext; cbn [negb]; [|done].
    destruct (getfile_truthy _ _ _ Hget Htext) as (b & -> & _). cbn.
    pose proof (fixencoding_bytes_bound b) as Hfix.
    destruct (fixencoding (PBytes b)) as [[t cs]|e]; [|congruence].
    match goal with |- context [walker_feed ?d ?s ?w ?t ?c] =>
      pose proof (walker_feed_bound d s w t c) as Hw;
      destruct (walker_feed d s w t c) as [[c' [u|e]]|] end; [done| |done].
    specialize (Hw c' (Raise e) eq_refl). unfold bound in Hw. congruence. }
  destruct (GetTopicsTree c) as [[|t0 topics]|]; [exact Hwalk| |exact Hwalk].
  pose proof (fixencoding_bytes_bound (String t0 topics)) as Hfix.
  destruct (fixencoding (PBytes (String t0 topics))) as [[text cs]|e]; cbn; [|congruence].
  pose proof (topics_feed_bound (set_charset (load self c) cs) text) as Hf.
  destruct (topics_feed _ text); cbn; [done|congruence].
Qed.

End Fixencoding.

(** C10.  [fixencoding] raises [UnboundLocalError] on a [str] argument; on a
    bytes argument the only exception is the one of the decoding.  A text
    that [getfile] returned and that passed the truth test of its caller is a
    non-empty bytes object, and the topics tree that [openfile] passes is a
    non-empty bytes object; so, for codecs and a URL parser that never raise
    [UnboundLocalError] themselves, neither the [try] body of the walker, nor
    a whole walk, nor [openfile] ever ends in [UnboundLocalError]. *)
Theorem fixencoding_str_branch_unreachable :
  (forall (L : RclChm.Library) (s : string),
      RclChm.fixencoding (PStr s) = Raise UnboundLocalError)
  /\ (forall (L : RclChm.Library) (chmfile : RclChm.CHMFile) (p text : pystr),
        RclChm.getfile chmfile p = Ok text -> truthy text = true ->
        exists b : bytes, text = PBytes b /\ b <> "")
  /\ (forall (L : RclChm.Library) (depth : nat) (self : RclChm.rclCHM) (c : RclChm.CHMFile)
             (t0 : ascii) (topics : bytes),
        RclChm.GetTopicsTree c = Some (String t0 topics) ->
        RclChm.openfile depth self (Some c)
        = Some ('(text, cs) ← RclChm.fixencoding (PBytes (String t0 topics));
                self' ← RclChm.topics_feed (RclChm.set_charset (RclChm.load self c) cs) text;
                RclChm.finish_open self'))
  /\ (forall L : RclChm.Library,
        Unbound.library_sound L ->
        (forall b : bytes, Unbound.bound (RclChm.fixencoding (PBytes b)))
        /\ (forall (recurse : RclChm.ChmWalker -> string -> list bytes -> option RclChm.outcome)
                   (self : RclChm.rclCHM) (npath : bytes) (text : pystr) (c : list bytes),
              (forall (w : RclChm.ChmWalker) (t : string) (c : list bytes),
                  Unbound.walk_bound (recurse w t c)) ->
              RclChm.getfile (RclChm.chm self) (PBytes npath) = Ok text ->
              truthy text = true ->
              Unbound.walk_bound (RclChm.descend recurse self npath text c))
        /\ (forall (depth : nat) (self : RclChm.rclCHM) (w : RclChm.ChmWalker)
                   (text : string) (c : list bytes),
              Unbound.walk_bound (RclChm.walker_feed depth self w text c))
        /\ (forall (depth : nat) (self : RclChm.rclCHM) (loaded : option RclChm.CHMFile),
              RclChm.openfile depth self loaded <> Some (Raise UnboundLocalError))).
Proof.
  split_and!.
  - done.
  - intros L. apply getfile_truthy.
  - intros L depth self c t0 topics Htopics. unfold RclChm.openfile. by rewrite Htopics.
  - intros L Hsound. split_and!.
    + by apply fixencoding_bytes_bound.
    + by apply descend_bound.
    + by apply walker_feed_bound.
    + by apply openfile_bound.
Qed.

Lemma sample_library_sound : Unbound.library_sound Sample.library.
Proof.
  split_and!.
  - done.
  - intros cs b. cbn. by destruct (String.eqb cs "cp1252").
  - done.
Qed.

Lemma fixencoding_str_branch_unreachable_witness :
  Unbound.library_sound Sample.library
  /\ Unbound.bound (RclChm.fixencoding (H := Sample.library) (PBytes "<a href=page1.html>"))
  /\ Unbound.walk_bound
       (RclChm.walker_feed (H := Sample.library) 3 (Sample.opened false)
          {| RclChm.path := "/home.html"; RclChm.dir := "/" |}
          "<a href=page1.html>" ["/home.html"])
  /\ RclChm.openfile (H := Sample.library) 3 (Sample.fresh false) (Some Sample.cyclic_chm)
     <> Some (Raise UnboundLocalError).
Proof.
  destruct (proj2 (proj2 (proj2 fixencoding_str_branch_unreachable))
              Sample.library sample_library_sound)
    as (Hfix & _ & Hwalk & Hopen).
  split_and!; [exact sample_library_sound|apply Hfix|apply Hwalk|apply Hopen].
Defined.

(** ** The node table of the info splitter *)

Section NodeTableFacts.
Import RclInfo NodeTable.

Lemma split_line_header (st : splitter) (line : bytes) (name : pystr) (up infofile' : bytes) :
  is_header st line = true ->
  parse_pairs (Py.split "," (Py.rstrip (nl ++ cr) line))
    (PStr (str_of_int (index st))) "Top" (infofile st)
  = (name, up, infofile', true) ->
  node_dict (split_line st line) = <[name := up]> (node_dict st)
  /\ stderr (split_line st line)
     = if bool_decide (is_Some (node_dict st !! name))
       then (stderr st ++ [DupNode name])%list else stderr st.
Proof.
  intros Hh Hp. unfold split_line. rewrite Hh. cbv zeta. rewrite Hp. done.
Qed.

Lemma join_cons (sep x : string) (l : list string) :
  l <> [] -> Py.join sep (x :: l) = x ++ sep ++ Py.join sep l.
Proof. by destruct l. Qed.

Lemma join_snoc (sep : string) (l : list string) (x : string) :
  l <> [] -> Py.join sep (l ++ [x]) = Py.join sep l ++ sep ++ x.
Proof.
  induction l as [|a [|b l] IH]; intros Hne; [done|done|].
  change (Py.join sep ((a :: b :: l) ++ [x])) with (a ++ sep ++ Py.join sep ((b :: l) ++ [x])).
  rewrite IH by done.
  change (Py.join sep (a :: b :: l)) with (a ++ sep ++ Py.join sep (b :: l)).
  by rewrite !str_app_assoc.
Qed.

Lemma accumulate_join (names : list bytes) (t : bytes) :
  names <> [] -> accumulate names t = Py.join " / " (rev names) ++ " / " ++ t.
Proof.
  revert t. induction names as [|n [|m rest] IH]; intros t Hne; [done|done|].
  change (accumulate (n :: m :: rest) t) with (accumulate (m :: rest) (n ++ " / " ++ t)).
  rewrite IH by done.
  change (rev (n :: m :: rest)) with (rev (m :: rest) ++ [n])%list.
  rewrite join_snoc; [by rewrite !str_app_assoc|].
  cbn. by destruct (rev rest).
Qed.

Lemma ends_outside_app (chars a b : string) :
  b <> "" -> ends_outside chars (a ++ b) = ends_outside chars b.
Proof.
  intros Hb. induction a as [|c a IH]; [done|].
  change (String c a ++ b) with (String c (a ++ b)).
  cbn [ends_outside]. rewrite IH. destruct (a ++ b) eqn:Hab; [|done].
  destruct a; [|done]. by destruct b.
Qed.

Lemma rstrip_keeps (chars s : string) :
  ends_outside chars s = true -> Py.rstrip chars s = s.
Proof.
  induction s as [|c s IH]; [done|]. cbn [ends_outside Py.rstrip].
  destruct s as [|d s].
  - cbn. intros Hc. apply negb_true_iff in Hc. by rewrite Hc.
  - intros Hs. rewrite (IH Hs). done.
Qed.

Lemma rstrip_separator (s : string) :
  ends_outside " / " s = true -> Py.rstrip " / " (s ++ " / ") = s.
Proof.
  induction s as [|c s IH]; [done|].
  change (String c s ++ " / ") with (String c (s ++ " / ")).
  cbn [ends_outside Py.rstrip]. destruct s as [|d s].
  - intros Hc. apply negb_true_iff in Hc.
    change (Py.rstrip " / " ("" ++ " / ")) with "". cbv iota. by rewrite Hc.
  - intros Hs. rewrite (IH Hs). done.
Qed.

Lemma climb_ancestry (node_dict : gmap pystr bytes) (names : list bytes) (hops : nat)
  (name title : bytes) :
  ancestry node_dict name names ->
  (length names <= hops)%nat ->
  climb node_dict hops (PBytes name) title = Ok (inl (accumulate names title)).
Proof.
  revert hops name title. induction names as [|n rest IH]; intros hops name title.
  - cbn. intros -> _. destruct hops; cbn; by rewrite bool_decide_eq_true_2.
  - cbn [ancestry length]. intros (-> & Hne & up & Hup & Hrest) Hlen.
    destruct hops as [|hops]; [lia|]. cbn [climb].
    rewrite bool_decide_eq_false_2 by congruence. rewrite Hup.
    apply IH; [done|lia].
Qed.

(** A chain longer than the hops allowed is reported as a looping tree. *)
Lemma climb_too_long (node_dict : gmap pystr bytes) (names : list bytes) (hops : nat)
  (name title : bytes) :
  ancestry node_dict name names ->
  (hops < length names)%nat ->
  climb node_dict hops (PBytes name) title = Ok (inr BadTreeLooping).
Proof.
  revert hops name title. induction names as [|n rest IH]; intros hops name title.
  - cbn. lia.
  - cbn [ancestry length]. intros (-> & Hne & up & Hup & Hrest) Hlen.
    destruct hops as [|hops]; cbn [climb];
      rewrite bool_decide_eq_false_2 by congruence; rewrite Hup; [done|].
    apply IH; [done|lia].
Qed.

Lemma title_step_ancestry (node_dict : gmap pystr bytes) (infofile name node : bytes)
  (names : list bytes) (listout1 : list (bytes * bytes)) (err : list diagnostic) :
  ancestry node_dict name names ->
  (length names <= 50)%nat ->
  ends_outside " / " (match names with [] => infofile | _ => name end) = true ->
  title_step node_dict infofile (listout1, err) (PBytes name, node)
  = Ok ((listout1 ++ [(Py.join " / " (infofile :: rev names), node)])%list, err).
Proof.
  intros Hanc Hlen Hend. unfold title_step.
  rewrite (climb_ancestry node_dict names 50 name "" Hanc Hlen).
  change (Ok (inl (accumulate names "")) ≫= ?k) with (k (inl (accumulate names ""))).
  cbv beta iota.
  destruct names as [|n rest].
  - cbn. by rewrite (rstrip_keeps _ _ Hend).
  - destruct Hanc as (<- & Hne & _).
    rewrite accumulate_join by done.
    assert (Hnz : String.eqb (Py.join " / " (rev (name :: rest)) ++ " / " ++ "") "" = false).
    { destruct (Py.join " / " (rev (name :: rest))); done. }
    rewrite Hnz.
    assert (Hj : Py.join " / " (infofile :: rev (name :: rest))
                 = infofile ++ " / " ++ Py.join " / " (rev (name :: rest))).
    { apply join_cons. change (rev (name :: rest)) with (rev rest ++ [name])%list.
      by destruct (rev rest). }
    rewrite Hj.
    replace (infofile ++ " / " ++ Py.join " / " (rev (name :: rest)) ++ " / " ++ "")
      with ((infofile ++ " / " ++ Py.join " / " (rev (name :: rest))) ++ " / ")
      by (by rewrite !str_app_assoc, str_app_nil_r).
    rewrite rstrip_separator; [done|].
    assert (Hlast : exists pre : string,
               Py.join " / " (rev (name :: rest)) = pre ++ name).
    { change (rev (name :: rest)) with (rev rest ++ [name])%list.
      destruct (rev rest) as [|a l] eqn:Hr; [by exists ""|].
      rewrite join_snoc by done. exists (Py.join " / " (a :: l) ++ " / ").
      by rewrite !str_app_assoc. }
    destruct Hlast as [pre ->].
    rewrite !str_app_assoc. rewrite ends_outside_app; [done|].
    intros ->. done.
Qed.

End NodeTableFacts.

(** C4, as the code has it.  Whatever lines came before, after a header line
    that gives a record its name and its Up value, the table maps the name
    to that Up value: a record replaces the entry of an earlier record of
    the same name, the other entries are untouched, and the duplicate is
    reported on stderr exactly when the name was already in the table. *)
Theorem duplicate_node_keeps_last (filename : bytes) (lines : list bytes) (line : bytes)
  (name : pystr) (up infofile' : bytes) :
  let st := fold_left RclInfo.split_line lines (RclInfo.split_init filename) in
  let st' := fold_left RclInfo.split_line (lines ++ [line]) (RclInfo.split_init filename) in
  RclInfo.is_header st line = true ->
  RclInfo.parse_pairs (Py.split "," (Py.rstrip (RclInfo.nl ++ RclInfo.cr) line))
    (PStr (str_of_int (RclInfo.index st))) "Top" (RclInfo.infofile st)
  = (name, up, infofile', true) ->
  RclInfo.node_dict st' !! name = Some up
  /\ (forall other : pystr,
         other <> name -> RclInfo.node_dict st' !! other = RclInfo.node_dict st !! other)
  /\ (is_Some (RclInfo.node_dict st !! name) ->
      RclInfo.stderr st' = (RclInfo.stderr st ++ [RclInfo.DupNode name])%list)
  /\ (RclInfo.node_dict st !! name = None -> RclInfo.stderr st' = RclInfo.stderr st).
Proof.
  intros st st' Hh Hp. subst st'. rewrite fold_left_app. fold st. cbn [fold_left].
  destruct (split_line_header st line name up infofile' Hh Hp) as [-> ->].
  split_and!.
  - apply lookup_insert_eq.
  - intros other Hne. by apply lookup_insert_ne.
  - intros Hsome. by rewrite bool_decide_eq_true_2.
  - intros Hnone. rewrite bool_decide_eq_false_2; [done|]. rewrite Hnone. by intros [? ?].
Qed.

Lemma duplicate_node_keeps_last_witness :
  RclInfo.node_dict
    (fold_left RclInfo.split_line NodeTable.duplicate_prefix (RclInfo.split_init "f.info"))
  !! PBytes "A" = Some "Top"
  /\ RclInfo.node_dict
       (fold_left RclInfo.split_line
          (NodeTable.duplicate_prefix ++ [NodeTable.duplicate_header])
          (RclInfo.split_init "f.info"))
     !! PBytes "A" = Some "B"
  /\ RclInfo.stderr
       (fold_left RclInfo.split_line
          (NodeTable.duplicate_prefix ++ [NodeTable.duplicate_header])
          (RclInfo.split_init "f.info"))
     = [RclInfo.DupNode (PBytes "A")].
Proof.
  destruct (duplicate_node_keeps_last "f.info" NodeTable.duplicate_prefix
              NodeTable.duplicate_header (PBytes "A") "B" "f.info" eq_refl eq_refl)
    as (Hlast & _ & Hdup & _).
  split_and!; [reflexivity|exact Hlast|].
  rewrite Hdup; [reflexivity|]. by exists "Top".
Defined.

(** C4 as stated fails.  In a stream with two records called [A], the
    first under [Top] and the second under [B], both records get the title
    built from the Up value of the second one. *)
Lemma duplicate_node_first_parent_lost :
  RclInfo.node_dict
    (fold_left RclInfo.split_line
       (NodeTable.node_block "Top" "(dir)" ++ NodeTable.node_block "A" "Top")
       (RclInfo.split_init "/usr/share/info/f.info"))
  !! PBytes "A" = Some "Top"
  /\ exists out : list (bytes * bytes),
       RclInfo.splitinfo "/usr/share/info/f.info" NodeTable.duplicate_nodes
       = Ok (out, [RclInfo.DupNode (PBytes "A")])
       /\ out.*1 = ["f.info"; "f.info / B / A"; "f.info / B"; "f.info / B / A"].
Proof.
  split; [reflexivity|]. eexists. split; reflexivity.
Qed.

(** C7, as the code has it.  When the chain of Up values from a record
    reaches [Top] in at most 50 hops, and the record's own name (the display
    name, for the record called [Top] itself) ends with a character that is
    neither a space nor a slash, the title of the record is the display name
    followed by the names of the chain, the most distant one first and the
    record's own name last, joined with the separator.  The record called
    [Top] has an empty chain and gets just the display name.  A record whose
    chain needs more than 50 hops is reported as a looping tree and gets no
    title.  On the stream
    of the records [Top], [N1] under [Top] and [N2] under [N1], the titles
    are the display name, then [N1] and [N1 / N2] after the display name. *)
Theorem title_path_of_chain :
  (forall (node_dict : gmap pystr bytes) (infofile name node : bytes) (names : list bytes)
          (listout1 : list (bytes * bytes)) (err : list RclInfo.diagnostic),
      NodeTable.ancestry node_dict name names ->
      (length names <= 50)%nat ->
      NodeTable.ends_outside " / " (match names with [] => infofile | _ => name end) = true ->
      RclInfo.title_step node_dict infofile (listout1, err) (PBytes name, node)
      = Ok ((listout1 ++ [(Py.join " / " (infofile :: rev names), node)])%list, err))
  /\ (forall (node_dict : gmap pystr bytes) (infofile name node : bytes)
             (names : list bytes) (listout1 : list (bytes * bytes))
             (err : list RclInfo.diagnostic),
         NodeTable.ancestry node_dict name names ->
         (50 < length names)%nat ->
         RclInfo.title_step node_dict infofile (listout1, err) (PBytes name, node)
         = Ok (listout1, (err ++ [RclInfo.BadTreeLooping])%list))
  /\ exists out : list (bytes * bytes),
       RclInfo.splitinfo "/usr/share/info/f.info" NodeTable.three_nodes = Ok (out, [])
       /\ out.*1 = ["f.info"; "f.info / N1"; "f.info / N1 / N2"].
Proof.
  split_and!; [apply title_step_ancestry| |].
  - intros node_dict infofile name node names listout1 err Hanc Hlen.
    unfold RclInfo.title_step.
    by rewrite (climb_too_long node_dict names 50 name "" Hanc Hlen).
  - eexists. split; reflexivity.
Qed.

Lemma title_path_of_chain_witness :
  NodeTable.ancestry NodeTable.three_table "N2" ["N2"; "N1"]
  /\ RclInfo.title_step NodeTable.three_table "f.info" ([], []) (PBytes "N2", "text")
     = Ok ([("f.info / N1 / N2", "text")], []).
Proof.
  assert (Hanc : NodeTable.ancestry NodeTable.three_table "N2" ["N2"; "N1"]).
  { cbn. split_and!; [done|discriminate|]. exists "N1". split; [reflexivity|].
    split_and!; [done|discriminate|]. exists "Top". split; [reflexivity|done]. }
  split; [exact Hanc|].
  apply (proj1 title_path_of_chain NodeTable.three_table "f.info" "N2" "text"
           ["N2"; "N1"] [] [] Hanc); [cbn; lia|reflexivity].
Defined.

(** C7 as stated fails.  In a chain of 51 records under [Top], the Up
    values of the last record lead to [Top] (a climb allowed 51 hops gets
    there), but the splitter reports a looping tree and returns 51 titles,
    those of [Top] and of the first 50 records.  And in the stream of three
    records, the record [N1], whose Up value is [Top], is titled with its own
    name after the display name, not with the display name alone. *)
Lemma title_path_bounded_and_own_name :
  (exists title : bytes,
      RclInfo.climb
        (RclInfo.node_dict
           (fold_left RclInfo.split_line (NodeTable.chain_nodes 51)
              (RclInfo.split_init "/usr/share/info/f.info")))
        51 (PBytes (NodeTable.numbered 51)) ""
      = Ok (inl title))
  /\ (exists out : list (bytes * bytes),
         RclInfo.splitinfo "/usr/share/info/f.info" (NodeTable.chain_nodes 51)
         = Ok (out, [RclInfo.BadTreeLooping])
         /\ length out = 51%nat
         /\ last out.*1
            = Some (Py.join " / " ("f.info" :: map NodeTable.numbered (seq 1 50))))
  /\ exists out : list (bytes * bytes),
       RclInfo.splitinfo "/usr/share/info/f.info" NodeTable.three_nodes = Ok (out, [])
       /\ out.*1 !! 1%nat = Some "f.info / N1".
Proof.
  split_and!.
  - eexists. vm_compute. reflexivity.
  - eexists. split_and!; vm_compute; reflexivity.
  - eexists. split; reflexivity.
Qed.

(** ** Oversized archive members *)

(** C9.  For a member that is in the catalog of the open archive and whose
    declared size is above [maxmembersize], [extractone] returns normally,
    with success and the empty text as content; one line about the member is
    logged; and [zip.read] is not called. *)
Theorem oversized_member_is_empty (P : RclExecM.Protocol) (self : RclZip.ZipExtractor)
  (z : RclZip.ZipFile) (ipath : pystr) (info : RclZip.ZipInfo) :
  RclZip.zip self = Some z ->
  RclZip.getinfo z ipath = Some info ->
  RclZip.file_size info > RclZip.maxmembersize self ->
  exists (e : RclExecM.eofstate) (self' : RclZip.ZipExtractor),
    RclZip.extractone self ipath
    = Ok ((true, PStr "", PBytes (RclExecM.makebytes ipath), e), self')
    /\ RclZip.rclog self'
       = (RclZip.rclog self ++ [RclZip.TooBig ipath (RclZip.file_size info)])%list
    /\ RclZip.reads self' = RclZip.reads self.
Proof.
  intros Hzip Hinfo Hsize. unfold RclZip.extractone, RclZip.fetch.
  rewrite Hzip, Hinfo.
  destruct (Z.gtb_spec (RclZip.file_size info) (RclZip.maxmembersize self)) as [_|Hle]; [|lia].
  unfold RclZip.set_member_fields.
  destruct (RclZip.timestamp info) as [t|err];
    match goal with |- context [if ?b then _ else _] => destruct b end;
    eexists _, _; split_and!; reflexivity.
Qed.

Lemma oversized_member_is_empty_witness :
  exists (e : RclExecM.eofstate) (self' : RclZip.ZipExtractor),
    RclZip.extractone (H := Sample.protocol) Sample.zip_session (PStr "disk.iso")
    = Ok ((true, PStr "", PBytes "disk.iso", e), self')
    /\ RclZip.rclog self' = [RclZip.TooBig (PStr "disk.iso") 4294967296]
    /\ RclZip.reads self' = [].
Proof.
  apply (oversized_member_is_empty Sample.protocol Sample.zip_session Sample.sample_zip
           (PStr "disk.iso")
           {| RclZip.file_size := 4294967296; RclZip.timestamp := Ok "0" |});
    [reflexivity|reflexivity|cbn; lia].
Defined.

(** ** The encoding named in a karaoke file name *)

Section KarEncoding.
Import RclKar.
Context `{Library} `{RclExecM.Protocol}.

(** An encoding that is already chosen keeps the detector out. *)
Lemma chosen_encoding_skips_detector (defaultencoding : string) (encoding : pystr)
  (st : scan) :
  encoding <> PStr "" ->
  guess_encoding defaultencoding encoding st = Ok (encoding, st).
Proof.
  intros Hne. unfold guess_encoding.
  rewrite !(bool_decide_eq_false_2 _ Hne). cbn.
  by rewrite (bool_decide_eq_false_2 _ Hne).
Qed.

Lemma filename_search_not_empty (fn g : bytes) :
  filename_search fn = Some g -> g <> "".
Proof.
  induction fn as [|c fn IH]; cbn; [done|].
  destruct (Ascii.eqb c "("); [|done].
  destruct (upto_close fn) as [[[|g0 g1] t]|]; try done.
  destruct (extension t); [|done]. by intros [= <-].
Qed.

(** But the name taken from the file name is a bytes object, which
    [codecs.lookup] refuses: nothing is ever chosen from the file name. *)
Lemma filename_encoding_empty (filename : bytes) : filename_encoding filename = PStr "".
Proof.
  unfold filename_encoding, encodingfromfilename.
  destruct (filename_search filename) as [g|] eqn:Hg; [|done].
  apply filename_search_not_empty in Hg. by destruct g.
Qed.

End KarEncoding.

(** C8, where the code departs from it.  The file name [song (cp1252).kar]
    carries the name of a codec that [codecs.lookup] knows, and the search of
    [encodingfromfilename] finds it; yet the encoding taken from a file name is
    always the empty one, the detector is consulted, and its answer, UTF-8, is
    the encoding applied. *)
Theorem filename_hint_dropped :
  RclKar.encodingfromfilename "song (cp1252).kar" = PBytes "cp1252"
  /\ RclKar.codecs_known (Library := Sample.kar_library) "cp1252" = true
  /\ (forall (L : RclKar.Library) (filename : bytes),
         RclKar.filename_encoding filename = PStr "")
  /\ RclKar.html_text (H := Sample.kar_library) (H0 := Sample.protocol)
       "iso-8859-15" "song (cp1252).kar" [RclKar.TextMetaEvent "hello"]
     = Ok (PStr "utf-8", ("", "", "", "hello")).
Proof.
  split_and!; [reflexivity|reflexivity| |reflexivity].
  intros L filename. apply filename_encoding_empty.
Qed.

(** * Further properties of the filters *)

(** ** [rclchm.py]: the session, its cursor and its handle *)

Section ChmSession.
Import RclExecM RclChm.
Context `{Library}.
#[local] Arguments extractone : simpl never.
#[local] Arguments dumpall : simpl never.

(** X1.  Whatever [getnext] of [rclchm] returns, it leaves the contents list
    and the container as they were and never moves the cursor backwards; and
    the CHM handle is closed by the call exactly when the tuple returned
    carries [eofnext] or [eofnow]: otherwise the handle stays as it was. *)
Theorem chm_getnext_closes_at_end (self self' : rclCHM) (r : reply) :
  getnext self = Ok (r, self') ->
  contents self' = contents self
  /\ chm self' = chm self
  /\ currentindex self <= currentindex self'
  /\ isopen self' = (if is_eof r.2 then false else isopen self).
Proof.
  unfold getnext. destruct (catenate self).
  - destruct (dumpall self) as [alltxt|e]; cbn; [|done].
    destruct (negb _); intros [= <- <-]; cbn; split_and!; try done; lia.
  - destruct (currentindex self =? -1) eqn:E.
    + apply Z.eqb_eq in E. cbn.
      destruct (len _ =? 0); intros [= <- <-]; cbn; split_and!; try done; lia.
    + destruct (currentindex self >=? len _).
      { intros [= <- <-]; cbn; split_and!; try done; lia. }
      destruct (py_index _ _) as [pth|e]; cbn; [|done].
      destruct (extractone _ _ _) as [ret|e]; cbn; [|done].
      intros [= <- <-]. destruct (is_eof ret.2); cbn; split_and!; try done; lia.
Qed.

End ChmSession.

Lemma chm_getnext_closes_at_end_witness :
  exists (r : RclExecM.reply) (self' : RclChm.rclCHM),
    RclChm.getnext (H := Sample.library) (Sample.opened false) = Ok (r, self')
    /\ RclChm.contents self' = ["/home.html"; "/page1.html"]
    /\ RclChm.chm self' = Sample.cyclic_chm
    /\ -1 <= RclChm.currentindex self'
    /\ RclChm.isopen self' = (if RclExecM.is_eof r.2 then false else true).
Proof.
  eexists _, _. split; [reflexivity|].
  apply (chm_getnext_closes_at_end (H := Sample.library) (Sample.opened false) _ _ eq_refl).
Defined.


(** ** [rclchm.py]: access by address and catenation *)

Section ChmAccess.
Import RclExecM RclChm Catenation.
Context `{Library}.

(** X2.  The tuple that [getnext] returns for the address at the cursor and
    the tuple that [getipath] returns for that address, at any cursor of any
    session on the same container, agree on the success flag, on the data and
    on the address; they can differ in the end-of-stream field only. *)
Theorem chm_getipath_agrees_with_getnext (self other : rclCHM) (pre suf : list bytes)
  (a : bytes) :
  catenate self = false ->
  contents self = (pre ++ a :: suf)%list ->
  currentindex self = len pre ->
  chm other = chm self ->
  exists (okv : bool) (d : pystr) (e e' : eofstate) (self' : rclCHM),
    getnext self = Ok ((okv, d, PBytes a, e), self')
    /\ getipath other (PBytes a) = Ok (okv, d, PBytes a, e').
Proof.
  intros Hcat Hc Hi Hchm. unfold getnext, getipath. rewrite Hcat.
  assert (Hlen : len (contents self) = len pre + 1 + len suf).
  { rewrite Hc. unfold len. rewrite length_app. cbn. lia. }
  assert (0 <= len pre) by (unfold len; lia).
  assert (0 <= len suf) by (unfold len; lia).
  destruct (Z.eqb_spec (currentindex self) (-1)) as [?|_]; [lia|].
  destruct (Z.geb_spec (currentindex self) (len (contents self))) as [?|_]; [lia|].
  rewrite Hi, Hc, py_index_middle. cbn [mbind res_bind].
  unfold extractone. cbn [as_bytes mbind res_bind]. rewrite Hchm.
  destruct (ResolveObject (chm self) a) as [ui|].
  - destruct (RetrieveObject (chm self) ui) as [n doc].
    destruct (n >? 0); cbn; eexists _, _, _, _, _; split; reflexivity.
  - cbn. eexists _, _, _, _, _; split; reflexivity.
Qed.


Lemma cat_cons (x : bytes) (l : list bytes) : cat (x :: l) = x ++ cat l.
Proof. reflexivity. Qed.

Lemma cat_app (l1 l2 : list bytes) : cat (l1 ++ l2) = cat l1 ++ cat l2.
Proof.
  induction l1 as [|x l1 IH]; [done|].
  change ((x :: l1) ++ l2)%list with (x :: (l1 ++ l2))%list.
  by rewrite !cat_cons, IH, str_app_assoc.
Qed.





End ChmAccess.

Lemma chm_getipath_agrees_with_getnext_witness :
  exists (okv : bool) (d : pystr) (e e' : RclExecM.eofstate) (self' : RclChm.rclCHM),
    RclChm.getnext (H := Sample.library)
      (RclChm.set_currentindex (Sample.opened false) 1)
    = Ok ((okv, d, PBytes "/page1.html", e), self')
    /\ RclChm.getipath (H := Sample.library) (Sample.opened false) (PBytes "/page1.html")
       = Ok (okv, d, PBytes "/page1.html", e').
Proof.
  apply (chm_getipath_agrees_with_getnext (H := Sample.library)
           (RclChm.set_currentindex (Sample.opened false) 1) (Sample.opened false)
           ["/home.html"] [] "/page1.html");
    reflexivity.
Defined.


(** ** [rclchm.py]: discovery *)

Section ChmDiscovery.
Import RclExecM RclChm Discovery.
Context `{Library}.
#[local] Arguments PosixPath.normpath : simpl never.
#[local] Arguments PosixPath.dirname : simpl never.
#[local] Arguments PosixPath.join : simpl never.
#[local] Arguments peekfile : simpl never.

Lemma set_contents_same (self : rclCHM) : set_contents self (contents self ++ []) = self.
Proof. destruct self. unfold set_contents. cbn. by rewrite app_nil_r. Qed.

Lemma topics_handle_starttag_rooted (self self' : rclCHM) (t : starttag) :
  topics_handle_starttag self t = Ok self' ->
  exists added : list bytes,
    self' = set_contents self (contents self ++ added)
    /\ Forall (rooted self) added.
Proof.
  destruct t as [tag attrs]. intros Hrun.
  destruct (topics_handle_starttag_inv self self' tag attrs Hrun)
    as [->|(_ & _ & value & lp & b & _ & _ & _ & Hne & Hfrag & Henc & ->)].
  - exists []. by rewrite set_contents_same.
  - exists [b]. split; [done|]. constructor; [|done].
    unfold rooted. exists (if Py.startswith lp "/" then lp else "/" ++ lp).
    split; [done|].
    destruct (Py.startswith lp "/") eqn:Hs; [by split|].
    change ("/" ++ lp) with (String "/" lp). split; [by destruct lp|]. cbn. exact Hfrag.
Qed.

Lemma topics_feed_rooted (tags : list starttag) (self self' : rclCHM) :
  foldM topics_handle_starttag tags self = Ok self' ->
  exists added : list bytes,
    self' = set_contents self (contents self ++ added)
    /\ Forall (rooted self) added.
Proof.
  revert self. induction tags as [|t tags IH]; intros self; cbn [foldM].
  - intros [= <-]. exists []. by rewrite set_contents_same.
  - destruct (topics_handle_starttag self t) as [self1|e] eqn:Ht; cbn [mbind res_bind]; [|done].
    intros Hrun. apply topics_handle_starttag_rooted in Ht as (a1 & -> & Ha1).
    apply IH in Hrun as (a2 & -> & Ha2).
    exists (a1 ++ a2)%list. split.
    + unfold set_contents. cbn. by rewrite app_assoc.
    + apply Forall_app. split; [done|]. exact Ha2.
Qed.

(** X4.  Parsing the topics tree only appends to the contents list: the
    addresses that were there stay in front, in their order, and nothing else
    of the session changes.  Every address that is appended is the encoding,
    in the session's charset, of a path that starts with a slash and has no
    [#] in it. *)
Theorem topics_feed_appends_rooted_paths (self self' : rclCHM) (text : string) :
  topics_feed self text = Ok self' ->
  exists added : list bytes,
    self' = set_contents self (contents self ++ added)
    /\ Forall (rooted self) added.
Proof. apply topics_feed_rooted. Qed.

End ChmDiscovery.

Lemma topics_feed_appends_rooted_paths_witness :
  exists added : list bytes,
    RclChm.set_contents (RclChm.load (Sample.fresh false) Sample.cyclic_chm) ["/page1.html"]
    = RclChm.set_contents (RclChm.load (Sample.fresh false) Sample.cyclic_chm)
        (RclChm.contents (RclChm.load (Sample.fresh false) Sample.cyclic_chm) ++ added)
    /\ Forall (Discovery.rooted (H := Sample.library)
                 (RclChm.load (Sample.fresh false) Sample.cyclic_chm)) added.
Proof.
  apply (topics_feed_appends_rooted_paths (H := Sample.library)
           (RclChm.load (Sample.fresh false) Sample.cyclic_chm) _
           "<param name=Local value=v:f.chm::/page1.html>").
  reflexivity.
Defined.

Section ChmWalk.
Import RclChm Discovery.
Context `{Library}.
Variable self : rclCHM.
#[local] Arguments PosixPath.normpath : simpl never.
#[local] Arguments PosixPath.dirname : simpl never.
#[local] Arguments PosixPath.join : simpl never.

Lemma grows_refl (c : list bytes) : grows self c c.
Proof. exists []. by rewrite app_nil_r. Qed.

Lemma grows_trans (c1 c2 c3 : list bytes) :
  grows self c1 c2 -> grows self c2 c3 -> grows self c1 c3.
Proof.
  intros (e1 & -> & He1 & Hn1) (e2 & -> & He2 & Hn2). exists (e1 ++ e2)%list.
  split; [by rewrite app_assoc|]. split; [by apply Forall_app|]. auto.
Qed.

Lemma grows_enter (c : list bytes) (p : bytes) :
  document self p -> p ∉ c -> grows self c (c ++ [p]).
Proof.
  intros Hdoc Hnin. exists [p]. split; [done|]. split; [by constructor|].
  intros Hnd. apply NoDup_app. split; [done|]. split.
  - intros x Hx Hxp. apply list_elem_of_singleton in Hxp as ->. done.
  - apply NoDup_singleton.
Qed.

Lemma feed_tags_grows (handle : starttag -> list bytes -> option outcome)
  (tags : list starttag) (c c' : list bytes) (r : res unit) :
  (forall (t : starttag) (c c' : list bytes) (r : res unit),
      handle t c = Some (c', r) -> grows self c c') ->
  feed_tags handle tags c = Some (c', r) -> grows self c c'.
Proof.
  intros Hh. revert c. induction tags as [|t tags IH]; intros c; cbn.
  - intros [= <- <-]. apply grows_refl.
  - destruct (handle t c) as [[c1 r1]|] eqn:Ht; [|done].
    apply Hh in Ht. destruct r1 as [u|e].
    + intros Hrun. eapply grows_trans; [exact Ht|by apply IH].
    + by intros [= <- <-].
Qed.

Lemma walker_handle_starttag_grows
  (recurse : ChmWalker -> string -> list bytes -> option outcome) (w : ChmWalker)
  (t : starttag) (c c' : list bytes) (r : res unit) :
  (forall (w' : ChmWalker) (text : string) (c c' : list bytes) (r : res unit),
      recurse w' text c = Some (c', r) -> grows self c c') ->
  walker_handle_starttag recurse self w t c = Some (c', r) -> grows self c c'.
Proof.
  intros Hrec. destruct t as [tag attrs]. unfold walker_handle_starttag.
  destruct (negb (String.eqb tag "a")); [intros [= <- <-]; apply grows_refl|].
  destruct (link_path self _) as [pth|e]; [|intros [= <- <-]; apply grows_refl].
  destruct (String.eqb pth ""); [intros [= <- <-]; apply grows_refl|].
  destruct (str_encode (charset self) pth) as [bpath|e];
    [|intros [= <- <-]; apply grows_refl].
  set (npath := if Py.startswith pth "/" then _ else _).
  assert (Hnorm : PosixPath.normpath npath = npath).
  { unfold npath. destruct (Py.startswith pth "/"); apply normpath_idempotent. }
  destruct (decide (npath ∈ c)) as [Hin|Hnin].
  { rewrite (bool_decide_eq_true_2 _ Hin). intros [= <- <-]; apply grows_refl. }
  rewrite (bool_decide_eq_false_2 _ Hnin).
  destruct (getfile (chm self) (PBytes npath)) as [text|e] eqn:Hget;
    [|intros [= <- <-]; apply grows_refl].
  destruct (truthy text) eqn:Htext; [|intros [= <- <-]; apply grows_refl].
  assert (Henter : grows self c (c ++ [npath])).
  { apply grows_enter; [|done]. split; [done|]. by exists text. }
  unfold descend, ChmWalker_init. cbn. rewrite Hnorm.
  destruct (fixencoding text) as [[t cs]|e].
  - destruct (recurse _ t (c ++ [npath])%list) as [[c1 r1]|] eqn:Hr; [|done].
    intros [= <- <-]. eapply grows_trans; [exact Henter|]. by eapply Hrec.
  - by intros [= <- <-].
Qed.

Lemma walker_feed_grows (depth : nat) (w : ChmWalker) (text : string)
  (c c' : list bytes) (r : res unit) :
  walker_feed depth self w text c = Some (c', r) -> grows self c c'.
Proof.
  revert w text c c' r. induction depth as [|depth IH]; intros w text c c' r; [done|].
  cbn [walker_feed]. apply feed_tags_grows.
  intros t c0 c1 r1. apply walker_handle_starttag_grows. exact IH.
Qed.

(** X5.  A link walk only appends to the contents list, and what it appends
    are documents of the container: each address added is a normalised path
    under which the container gives a text that is not empty, so a link to a
    page that is missing adds nothing.  The walk adds no address that is
    already listed: a list without duplicates stays without duplicates. *)
Theorem walk_appends_only_documents (depth : nat) (w : ChmWalker) (text : string)
  (c c' : list bytes) (r : res unit) :
  walker_feed depth self w text c = Some (c', r) ->
  exists ext : list bytes,
    c' = (c ++ ext)%list
    /\ Forall (document self) ext
    /\ (NoDup c -> NoDup c').
Proof. apply walker_feed_grows. Qed.

End ChmWalk.

Lemma walk_appends_only_documents_witness :
  exists ext : list bytes,
    ["/home.html"; "/page1.html"] = (["/home.html"] ++ ext)%list
    /\ Forall (Discovery.document (Sample.opened false)) ext
    /\ (NoDup ["/home.html"] -> NoDup ["/home.html"; "/page1.html"]).
Proof.
  apply (walk_appends_only_documents (H := Sample.library) (Sample.opened false) 3
           {| RclChm.path := "/home.html"; RclChm.dir := "/" |} "<a href=page1.html>"
           ["/home.html"] ["/home.html"; "/page1.html"] (Ok ())).
  reflexivity.
Defined.

Section ChmOpen.
Import RclChm Discovery.
Context `{Library}.
#[local] Arguments PosixPath.normpath : simpl never.
#[local] Arguments PosixPath.dirname : simpl never.
#[local] Arguments walker_feed : simpl never.

(** X6.  Whenever [openfile] returns, in either discovery mode and whether
    it reports success or not, the contents list that it leaves has no
    duplicate, the cursor is before the self-document, and the catenation
    setting is untouched. *)
Theorem openfile_contents_distinct (depth : nat) (self self' : rclCHM)
  (loaded : option CHMFile) (okv : bool) :
  openfile depth self loaded = Some (Ok (okv, self')) ->
  NoDup (contents self') /\ currentindex self' = -1 /\ catenate self' = catenate self.
Proof.
  unfold openfile. destruct loaded as [c|].
  2:{ intros [= <- <-]. cbn. split_and!; [constructor|done|done]. }
  assert (Hfail : forall okv' : bool,
             Some (Ok (okv', load self c)) = Some (Ok (okv, self')) ->
             NoDup (contents self') /\ currentindex self' = -1
             /\ catenate self' = catenate self).
  { intros okv' [= <- <-]. cbn. split_and!; [constructor|done|done]. }
  assert (Htopics : forall topics : bytes,
             Some ('(text, cs) ← fixencoding (PBytes topics);
                   self1 ← topics_feed (set_charset (load self c) cs) text;
                   finish_open self1) = Some (Ok (okv, self')) ->
             NoDup (contents self') /\ currentindex self' = -1
             /\ catenate self' = catenate self).
  { intros topics. destruct (fixencoding (PBytes topics)) as [[text cs]|e];
      cbn [mbind res_bind]; [|done].
    destruct (topics_feed _ text) as [self1|e] eqn:Hfeed; cbn [mbind res_bind]; [|done].
    apply topics_feed_rooted in Hfeed as (added & -> & _).
    unfold finish_open. intros [= <- <-]. cbn.
    split_and!; [apply uniq_spec|done|done]. }
  destruct (GetTopicsTree c) as [[|t0 topics]|]; [|by apply Htopics|].
  all: destruct (home c) as [[|h0 h]|]; try apply Hfail.
  all: destruct (getfile c _) as [text|e]; try done.
  all: destruct (negb (truthy text)); try apply Hfail.
  all: unfold ChmWalker_init; cbn [as_bytes mbind res_bind].
  all: destruct (fixencoding text) as [[t cs]|e]; try done.
  all: destruct (walker_feed _ _ _ _ _) as [[c1 [u|e]]|]; try done.
  all: unfold finish_open; intros [= <- <-]; cbn.
  all: split_and!; [apply uniq_spec|done|done].
Qed.

(** X7.  [openfile] reports a failure in three cases and in no other: the
    file cannot be loaded; or there is no topics tree, the topics tree being
    absent or empty, and no home page is named; or there is no topics tree
    and the home page, looked up under the root, is absent from the container
    or empty.  In each of them the contents list is left empty. *)
Theorem openfile_fails_without_entry_point (depth : nat) (self self' : rclCHM)
  (loaded : option CHMFile) :
  openfile depth self loaded = Some (Ok (false, self'))
  <-> (loaded = None /\ self' = set_contents (set_currentindex self (-1)) [])
      \/ exists c : CHMFile,
           loaded = Some c
           /\ self' = load self c
           /\ (GetTopicsTree c = None \/ GetTopicsTree c = Some "")
           /\ (home c = None
               \/ home c = Some ""
               \/ exists (h0 : ascii) (h : bytes) (text : pystr),
                    home c = Some (String h0 h)
                    /\ getfile c
                         (PBytes (if Ascii.eqb h0 "/" then String h0 h
                                  else "/" ++ String h0 h))
                       = Ok text
                    /\ truthy text = false).
Proof.
  unfold openfile. split.
  - destruct loaded as [c|]; [|intros [= <-]; by left].
    intros Hrun. right. exists c. split; [done|].
    destruct (GetTopicsTree c) as [[|t0 topics]|] eqn:Htopics.
    2:{ destruct (fixencoding (PBytes (String t0 topics))) as [[text cs]|e];
          cbn [mbind res_bind] in Hrun; [|done].
        destruct (topics_feed _ text) as [self1|e]; cbn [mbind res_bind] in Hrun; [|done].
        unfold finish_open in Hrun. done. }
    all: destruct (home c) as [[|h0 h]|] eqn:Hhome;
      [injection Hrun as <-; split_and!; auto| |injection Hrun as <-; split_and!; auto].
    all: destruct (getfile c _) as [text|e] eqn:Hget; [|done].
    all: destruct (truthy text) eqn:Htext; cbn [negb] in Hrun;
      [|injection Hrun as <-; split_and!; auto; right; right; by exists h0, h, text].
    all: unfold ChmWalker_init in Hrun; cbn [as_bytes mbind res_bind] in Hrun.
    all: destruct (fixencoding text) as [[t cs]|e]; [|done].
    all: destruct (walker_feed _ _ _ _ _) as [[c1 [u|e]]|]; try done.
  - intros [[-> ->]|(c & -> & -> & Htopics & Hhome)]; [done|].
    assert (Hnone : match home c with
                    | Some (String h0 h1 as chm_home) =>
                        let home := if Ascii.eqb h0 "/" then chm_home else "/" ++ chm_home in
                        match getfile c (PBytes home) with
                        | Raise e => Some (Raise e)
                        | Ok text =>
                            if negb (truthy text) then Some (Ok (false, load self c))
                            else
                              match ChmWalker_init (load self c) (PBytes chm_home)
                                      (contents (load self c)) with
                              | Raise e => Some (Raise e)
                              | Ok (walker, contents) =>
                                  match fixencoding text with
                                  | Raise e => Some (Raise e)
                                  | Ok (text, cs) =>
                                      let self := set_charset (load self c) cs in
                                      match walker_feed depth self walker text contents with
                                      | None => None
                                      | Some (_, Raise e) => Some (Raise e)
                                      | Some (contents, Ok _) =>
                                          Some (finish_open (set_contents self contents))
                                      end
                                  end
                              end
                        end
                    | _ => Some (Ok (false, load self c))
                    end = Some (Ok (false, load self c))).
    { destruct Hhome as [->|[->|(h0 & h & text & -> & Hget & Htext)]]; [done|done|].
      cbv zeta. rewrite Hget, Htext. done. }
    destruct Htopics as [->| ->]; exact Hnone.
Qed.

Lemma uniq_snoc (u : gset bytes) (l : list bytes) (x : bytes) :
  uniq u (l ++ [x])
  = if bool_decide (x ∈ u \/ x ∈ l) then uniq u l else (uniq u l ++ [x])%list.
Proof.
  revert u. induction l as [|t l IH]; intros u.
  - cbn. destruct (decide (x ∈ u)) as [Hin|Hnin].
    + rewrite (bool_decide_eq_true_2 _ Hin). rewrite bool_decide_eq_true_2; [done|by left].
    + rewrite (bool_decide_eq_false_2 _ Hnin). rewrite bool_decide_eq_false_2; [done|].
      intros [?|Hx]; [done|]. by apply elem_of_nil in Hx.
  - change ((t :: l) ++ [x])%list with (t :: (l ++ [x]))%list. cbn [uniq].
    destruct (decide (t ∈ u)) as [Hin|Hnin].
    + rewrite (bool_decide_eq_true_2 _ Hin), IH.
      destruct (decide (x ∈ u \/ x ∈ l)) as [Hx|Hx].
      * rewrite (bool_decide_eq_true_2 _ Hx). rewrite bool_decide_eq_true_2; [done|].
        rewrite elem_of_cons. tauto.
      * rewrite (bool_decide_eq_false_2 _ Hx). rewrite bool_decide_eq_false_2; [done|].
        rewrite elem_of_cons. intros [?|[->|?]]; tauto.
    + rewrite (bool_decide_eq_false_2 _ Hnin), IH.
      destruct (decide (x ∈ {[t]} ∪ u \/ x ∈ l)) as [Hx|Hx].
      * rewrite (bool_decide_eq_true_2 _ Hx). rewrite bool_decide_eq_true_2; [done|].
        rewrite elem_of_cons. rewrite elem_of_union, elem_of_singleton in Hx. tauto.
      * rewrite (bool_decide_eq_false_2 _ Hx). rewrite bool_decide_eq_false_2; [done|].
        rewrite elem_of_cons. rewrite elem_of_union, elem_of_singleton in Hx. tauto.
Qed.

(** X8.  The pass of [openfile] that eliminates duplicates keeps the first
    occurrence of every address and the order of these occurrences: its
    result has no duplicate and the same addresses as its input; an address
    added at the end of the input is dropped when the input already has it,
    and comes last otherwise; a list without duplicates is left as it is. *)
Theorem uniq_keeps_first_occurrences (l : list bytes) :
  NoDup (uniq ∅ l)
  /\ (forall x : bytes, x ∈ uniq ∅ l <-> x ∈ l)
  /\ (forall x : bytes,
        uniq ∅ (l ++ [x]) = if bool_decide (x ∈ l) then uniq ∅ l else (uniq ∅ l ++ [x])%list)
  /\ (NoDup l -> uniq ∅ l = l).
Proof.
  split_and!.
  - apply uniq_spec.
  - intros x. rewrite (proj2 (uniq_spec ∅ l) x). split; [tauto|].
    intros Hx. split; [done|]. apply not_elem_of_empty.
  - intros x. rewrite uniq_snoc.
    destruct (decide (x ∈ l)) as [Hx|Hx].
    + rewrite (bool_decide_eq_true_2 _ Hx). rewrite bool_decide_eq_true_2; [done|by right].
    + rewrite (bool_decide_eq_false_2 _ Hx). rewrite bool_decide_eq_false_2; [done|].
      intros [Hu|?]; [|done]. by apply not_elem_of_empty in Hu.
  - induction l as [|x l IH] using rev_ind; [done|].
    intros Hnd. apply NoDup_app in Hnd as (Hl & Hx & _).
    rewrite uniq_snoc, bool_decide_eq_false_2, IH; [done|done|].
    intros [Hu|Hin]; [by apply not_elem_of_empty in Hu|].
    apply (Hx x Hin). apply list_elem_of_singleton. done.
Qed.

End ChmOpen.

Lemma openfile_contents_distinct_witness :
  NoDup ["/home.html"; "/page1.html"] /\ -1 = -1 /\ false = false.
Proof.
  apply (openfile_contents_distinct (H := Sample.library) 3 (Sample.fresh false)
           (Sample.opened false) (Some Sample.cyclic_chm) true).
  reflexivity.
Defined.

Lemma openfile_fails_without_entry_point_witness :
  RclChm.openfile (H := Sample.library) 0 (Sample.fresh false) (Some Discovery.lost_home_chm)
  = Some (Ok (false, RclChm.load (Sample.fresh false) Discovery.lost_home_chm))
  /\ RclChm.openfile (H := Sample.library) 0 (Sample.fresh false) (Some Discovery.bare_chm)
     = Some (Ok (false, RclChm.load (Sample.fresh false) Discovery.bare_chm)).
Proof.
  split.
  - apply (proj2 (openfile_fails_without_entry_point (H := Sample.library) 0
                    (Sample.fresh false)
                    (RclChm.load (Sample.fresh false) Discovery.lost_home_chm)
                    (Some Discovery.lost_home_chm))).
    right. exists Discovery.lost_home_chm. split_and!; [done|done|by right|].
    right. right. exists "i"%char, "ndex.html", (PStr ""). by split_and!.
  - apply (proj2 (openfile_fails_without_entry_point (H := Sample.library) 0
                    (Sample.fresh false)
                    (RclChm.load (Sample.fresh false) Discovery.bare_chm)
                    (Some Discovery.bare_chm))).
    right. exists Discovery.bare_chm. split_and!; [done|done|by left|by left].
Defined.

(** ** [rclinfo.py] and [rclics.py]: an index below zero *)

Lemma py_index_negative {A : Type} (l : list A) (i : Z) :
  - len l <= i < 0 ->
  exists a : A, l !! Z.to_nat (len l + i) = Some a /\ py_index l i = Ok a.
Proof.
  intros Hi. unfold py_index.
  assert (E1 : (i <? 0) = true) by (apply Z.ltb_lt; lia). rewrite E1.
  assert (E2 : (len l + i <? 0) = false) by (apply Z.ltb_ge; lia). rewrite E2.
  destruct (l !! Z.to_nat (len l + i)) as [a|] eqn:Hl; [by exists a|].
  apply lookup_ge_None in Hl. unfold len in *. lia.
Qed.

Lemma py_index_below {A : Type} (l : list A) (i : Z) :
  i < - len l -> py_index l i = Raise IndexError.
Proof.
  intros Hi. unfold py_index.
  assert (0 <= len l) by (unfold len; lia).
  assert (E1 : (i <? 0) = true) by (apply Z.ltb_lt; lia). rewrite E1.
  assert (E2 : (len l + i <? 0) = true) by (apply Z.ltb_lt; lia). by rewrite E2.
Qed.

(** X9.  [extractone] of [rclinfo] and of [rclics] tests the index against
    the length of the contents list only, so an index below zero reaches the
    list: down to minus the length it counts from the end, as Python does,
    and the call succeeds with the document found there and with the index
    itself as address; below that the call raises [IndexError]. *)
Theorem extractone_index_below_zero :
  (forall (P : RclExecM.Protocol) (self : RclInfo.InfoExtractor) (index : Z),
      - len (RclInfo.contents self) <= index < 0 ->
      exists (nodename docdata : bytes) (e : RclExecM.eofstate)
             (self' : RclInfo.InfoExtractor),
        RclInfo.contents self !! Z.to_nat (len (RclInfo.contents self) + index)
        = Some (nodename, docdata)
        /\ RclInfo.extractone self index
           = Ok ((true,
                  PBytes (RclInfo.page (RclExecM.htmlescape nodename)
                            (RclExecM.htmlescape docdata)),
                  PStr (str_of_int index), e), self'))
  /\ (forall (P : RclExecM.Protocol) (self : RclInfo.InfoExtractor) (index : Z),
        index < - len (RclInfo.contents self) ->
        RclInfo.extractone self index = Raise IndexError)
  /\ (forall (self : RclIcs.IcalExtractor) (index : Z),
        - len (RclIcs.contents self) <= index < 0 ->
        exists (docdata : bytes) (e : RclExecM.eofstate) (self' : RclIcs.IcalExtractor),
          RclIcs.contents self !! Z.to_nat (len (RclIcs.contents self) + index)
          = Some docdata
          /\ RclIcs.extractone self index
             = Ok ((true, PBytes docdata, PStr (str_of_int index), e), self'))
  /\ (forall (self : RclIcs.IcalExtractor) (index : Z),
        index < - len (RclIcs.contents self) ->
        RclIcs.extractone self index = Raise IndexError).
Proof.
  split_and!.
  - intros P self index Hi. unfold RclInfo.extractone.
    assert (0 <= len (RclInfo.contents self)) by (unfold len; lia).
    destruct (Z.geb_spec index (len (RclInfo.contents self))) as [?|_]; [lia|].
    destruct (py_index_negative (RclInfo.contents self) index Hi) as ([n d] & Hl & ->).
    cbn. by eexists n, d, _, _.
  - intros P self index Hi. unfold RclInfo.extractone.
    assert (0 <= len (RclInfo.contents self)) by (unfold len; lia).
    destruct (Z.geb_spec index (len (RclInfo.contents self))) as [?|_]; [lia|].
    by rewrite py_index_below.
  - intros self index Hi. unfold RclIcs.extractone.
    assert (0 <= len (RclIcs.contents self)) by (unfold len; lia).
    destruct (Z.geb_spec index (len (RclIcs.contents self))) as [?|_]; [lia|].
    destruct (py_index_negative (RclIcs.contents self) index Hi) as (d & Hl & ->).
    cbn. by eexists d, _, _.
  - intros self index Hi. unfold RclIcs.extractone.
    assert (0 <= len (RclIcs.contents self)) by (unfold len; lia).
    destruct (Z.geb_spec index (len (RclIcs.contents self))) as [?|_]; [lia|].
    by rewrite py_index_below.
Qed.

Lemma extractone_index_below_zero_witness :
  (exists (nodename docdata : bytes) (e : RclExecM.eofstate) (self' : RclInfo.InfoExtractor),
      RclInfo.contents Sample.info_session !! 1%nat = Some (nodename, docdata)
      /\ RclInfo.extractone (H := Sample.protocol) Sample.info_session (-1)
         = Ok ((true, PBytes (RclInfo.page nodename docdata), PStr "-1", e), self'))
  /\ RclInfo.extractone (H := Sample.protocol) Sample.info_session (-3) = Raise IndexError.
Proof.
  split.
  - apply (proj1 extractone_index_below_zero Sample.protocol Sample.info_session (-1)).
    unfold len. cbn. lia.
  - apply (proj1 (proj2 extractone_index_below_zero) Sample.protocol Sample.info_session (-3)).
    unfold len. cbn. lia.
Defined.

(** ** [rclinfo.py]: the records that get no title *)

Section InfoOrphans.
Import RclInfo NodeTable Orphans.

Lemma climb_bytes_returns (node_dict : gmap pystr bytes) (hops : nat) (name title : bytes) :
  exists o : bytes + diagnostic, climb node_dict hops (PBytes name) title = Ok o.
Proof.
  revert name title. induction hops as [|hops IH]; intros name title; cbn [climb].
  - destruct (bool_decide (PBytes name = PBytes "Top")); [by eexists|].
    destruct (node_dict !! PBytes name); by eexists.
  - destruct (bool_decide (PBytes name = PBytes "Top")); [by eexists|].
    destruct (node_dict !! PBytes name) as [up|]; [apply IH|by eexists].
Qed.

Lemma climb_str_raises (node_dict : gmap pystr bytes) (hops : nat) (s : string)
  (title : bytes) :
  climb node_dict hops (PStr s) title = Raise TypeError.
Proof. destruct hops; cbn [climb]; by rewrite bool_decide_eq_false_2. Qed.

Lemma title_step_bytes_returns (node_dict : gmap pystr bytes) (infofile name node : bytes)
  (acc : list (bytes * bytes) * list diagnostic) :
  exists acc' : list (bytes * bytes) * list diagnostic,
    title_step node_dict infofile acc (PBytes name, node) = Ok acc'.
Proof.
  destruct acc as [out err]. unfold title_step.
  destruct (climb_bytes_returns node_dict 50 name "") as [[t|d] ->];
    cbn [mbind res_bind]; by eexists.
Qed.

Lemma second_loop_raises (node_dict : gmap pystr bytes) (infofile : bytes)
  (l : list (pystr * bytes)) (acc : list (bytes * bytes) * list diagnostic) :
  (Exists unnamed l ->
   foldM (title_step node_dict infofile) l acc = Raise TypeError)
  /\ (~ Exists unnamed l ->
      exists acc' : list (bytes * bytes) * list diagnostic,
        foldM (title_step node_dict infofile) l acc = Ok acc').
Proof.
  revert acc. induction l as [|[name node] l IH]; intros acc.
  - split; [by intros Hex%Exists_nil|]. intros _. by exists acc.
  - cbn [foldM]. destruct name as [s|name].
    + split.
      * intros _. destruct acc as [out err]. unfold title_step.
        by rewrite climb_str_raises.
      * intros Hno. exfalso. apply Hno. left. by exists s.
    + destruct (title_step_bytes_returns node_dict infofile name node acc) as [acc1 ->].
      cbn [mbind res_bind]. destruct (IH acc1) as [IH1 IH2]. split.
      * intros Hex. apply Exists_cons in Hex as [[s Hs]|Hex]; [done|]. by apply IH1.
      * intros Hno. apply IH2. intros Hex. apply Hno. by right.
Qed.

(** X10.  [splitinfo] does not survive a header line without a Node field:
    the record gets its name from [str(index)], and the second loop, which
    puts the name in front of a bytes title, raises [TypeError] for it.  This
    is the only way in which [splitinfo] raises: when every record has its
    name from a Node field, the call returns, whatever the shape of the
    tree. *)
Theorem splitinfo_raises_on_header_without_node (filename : bytes) (fin : list bytes) :
  (Exists unnamed (split_done (scanned filename fin)) ->
   splitinfo filename fin = Raise TypeError)
  /\ (~ Exists unnamed (split_done (scanned filename fin)) ->
      exists (out : list (bytes * bytes)) (err : list diagnostic),
        splitinfo filename fin = Ok (out, err)).
Proof.
  unfold splitinfo. fold (scanned filename fin).
  destruct (second_loop_raises (node_dict (scanned filename fin))
              (infofile (scanned filename fin)) (split_done (scanned filename fin))
              ([], stderr (scanned filename fin))) as [H1 H2].
  split; [exact H1|]. intros Hno. destruct (H2 Hno) as [[out err] ->]. by exists out, err.
Qed.

Lemma climb_dangling (node_dict : gmap pystr bytes) (names : list bytes) (hops : nat)
  (name missing title : bytes) :
  dangling node_dict name names missing ->
  (length names <= hops)%nat ->
  climb node_dict hops (PBytes name) title
  = Ok (inr (UpDoesNotExist (accumulate (names ++ [missing]) title) (PBytes missing))).
Proof.
  revert hops name title. induction names as [|n rest IH]; intros hops name title.
  - cbn [dangling]. intros (-> & Hne & Hnone) _.
    destruct hops; cbn [climb]; rewrite bool_decide_eq_false_2 by congruence;
      by rewrite Hnone.
  - cbn [dangling length]. intros (-> & Hne & up & Hup & Hrest) Hlen.
    destruct hops as [|hops]; [lia|]. cbn [climb].
    rewrite bool_decide_eq_false_2 by congruence. rewrite Hup.
    by rewrite (IH hops up _ Hrest) by lia.
Qed.

(** X11.  A record whose chain of Up values leaves the table, at a name
    other than [Top] that no header line declared, gets no title: the second
    loop of [splitinfo] leaves it out of the list returned, prints the path
    walked so far with the name that is missing, and goes on with the next
    record. *)
Theorem title_lost_where_up_is_missing (node_dict : gmap pystr bytes)
  (infofile name node missing : bytes) (names : list bytes)
  (listout1 : list (bytes * bytes)) (err : list diagnostic) :
  dangling node_dict name names missing ->
  (length names <= 50)%nat ->
  title_step node_dict infofile (listout1, err) (PBytes name, node)
  = Ok (listout1,
        (err ++ [UpDoesNotExist (accumulate (names ++ [missing]) "") (PBytes missing)])%list).
Proof.
  intros Hd Hlen. unfold title_step.
  by rewrite (climb_dangling node_dict names 50 name missing "" Hd Hlen).
Qed.

End InfoOrphans.

Lemma splitinfo_raises_on_header_without_node_witness :
  RclInfo.splitinfo "f.info" [NodeTable.ln "File: f.info,  Up: Top"] = Raise TypeError
  /\ exists (out : list (bytes * bytes)) (err : list RclInfo.diagnostic),
       RclInfo.splitinfo "f.info" NodeTable.three_nodes = Ok (out, err).
Proof.
  split.
  - apply (proj1 (splitinfo_raises_on_header_without_node "f.info"
                    [NodeTable.ln "File: f.info,  Up: Top"])).
    left. by exists "0".
  - apply (proj2 (splitinfo_raises_on_header_without_node "f.info" NodeTable.three_nodes)).
    intros Hex. vm_compute in Hex.
    repeat (apply Exists_cons in Hex as [[s Hs]|Hex]; [discriminate Hs|]).
    by apply Exists_nil in Hex.
Defined.

Lemma title_lost_where_up_is_missing_witness :
  RclInfo.title_step Orphans.orphan_table "f.info" ([], []) (PBytes "A", "text")
  = Ok ([], [RclInfo.UpDoesNotExist "B / A / " (PBytes "B")]).
Proof.
  apply (title_lost_where_up_is_missing Orphans.orphan_table "f.info" "A" "text" "B" ["A"]
           [] []).
  - cbn. split_and!; [done|done|]. exists "B". split; [reflexivity|].
    split_and!; [done|done|reflexivity].
  - cbn. lia.
Defined.

(** ** [rclinfo.py]: the records of the first loop *)

Section InfoRecords.
Import RclInfo NodeTable Orphans.

Lemma rstrip_has_char (chars s : string) (c : ascii) :
  Py.has_char c s = true -> Py.mem_char c chars = false -> Py.rstrip chars s <> "".
Proof.
  induction s as [|d s IH]; cbn [Py.has_char Py.rstrip]; [done|].
  intros Hc Hm. destruct (Py.rstrip chars s) eqn:Hr; [|done].
  destruct (Ascii.eqb_spec d c) as [->|_].
  - by rewrite Hm.
  - cbn in Hc. by destruct (IH Hc Hm).
Qed.

Lemma lstrip_has_char (chars s p : string) (c : ascii) :
  Py.startswith (Py.lstrip chars s) (String c p) = true -> Py.has_char c s = true.
Proof.
  induction s as [|d s IH]; cbn [Py.lstrip Py.has_char]; [done|].
  destruct (Py.mem_char d chars).
  - intros Hs. rewrite (IH Hs). apply orb_true_r.
  - cbn [Py.startswith]. intros Hs. apply andb_true_iff in Hs as [Hs _].
    apply Ascii.eqb_eq in Hs as ->. by rewrite Ascii.eqb_refl.
Qed.

Lemma header_not_blank (st : splitter) (line : bytes) :
  is_header st line = true -> Py.rstrip (nl ++ cr) line <> "".
Proof.
  unfold is_header. intros Hh. apply andb_true_iff in Hh as [_ Hs].
  apply (rstrip_has_char _ _ "F"); [|done]. by apply (lstrip_has_char " " _ "ile: ").
Qed.

Lemma app_not_empty (a b : string) : a <> "" -> a ++ b <> "".
Proof. by destruct a. Qed.

Lemma split_line_inv (st : splitter) (line : bytes) :
  first_loop_inv st -> first_loop_inv (split_line st line).
Proof.
  intros (Hpos & Hzero & Hmore). unfold split_line.
  destruct (is_header st line) eqn:Hh.
  - destruct (parse_pairs _ _ _ _) as [[[nodename' up] infofile'] completed].
    destruct completed.
    + split_and!; cbn; [lia|lia|]. intros _. split.
      * change ("" ++ ?x) with x. by apply header_not_blank in Hh.
      * destruct (Z.eqb_spec (index st) 0) as [E|E].
        -- destruct (Hzero E) as (-> & _). unfold len. cbn. lia.
        -- destruct Hmore as [_ Hlen]; [lia|]. unfold len in *.
           rewrite length_app. cbn. lia.
    + split_and!; cbn; [done|done|]. intros Hi. destruct (Hmore Hi) as [Hn Hl].
      split; [by apply app_not_empty|done].
  - split_and!; cbn; [done|done|]. intros Hi. destruct (Hmore Hi) as [Hn Hl].
    split; [by apply app_not_empty|done].
Qed.

Lemma scanned_inv (filename : bytes) (fin : list bytes) :
  first_loop_inv (scanned filename fin).
Proof.
  unfold scanned.
  assert (Hinit : first_loop_inv (split_init filename)).
  { split_and!; cbn; [lia|done|lia]. }
  revert Hinit. generalize (split_init filename).
  induction fin as [|line fin IH]; intros st Hst; cbn [fold_left]; [done|].
  apply IH. by apply split_line_inv.
Qed.

Lemma title_step_length (node_dict : gmap pystr bytes) (infofile : bytes)
  (entry : pystr * bytes) (out out' : list (bytes * bytes)) (err err' : list diagnostic) :
  title_step node_dict infofile (out, err) entry = Ok (out', err') ->
  (length out' + length err' = length out + length err + 1)%nat.
Proof.
  destruct entry as [name node]. unfold title_step.
  destruct (climb node_dict 50 name "") as [[t|d]|e]; cbn [mbind res_bind]; [| |done].
  - intros [= <- <-]. rewrite length_app. cbn. lia.
  - intros [= <- <-]. rewrite length_app. cbn. lia.
Qed.

Lemma second_loop_length (node_dict : gmap pystr bytes) (infofile : bytes)
  (l : list (pystr * bytes)) (out out' : list (bytes * bytes)) (err err' : list diagnostic) :
  foldM (title_step node_dict infofile) l (out, err) = Ok (out', err') ->
  (length out' + length err' = length out + length err + length l)%nat.
Proof.
  revert out err. induction l as [|entry l IH]; intros out err; cbn [foldM].
  - intros [= <- <-]. cbn. lia.
  - destruct (title_step node_dict infofile (out, err) entry) as [[out1 err1]|e] eqn:Hstep;
      cbn [mbind res_bind]; [|done].
    apply title_step_length in Hstep. intros Hrun. apply IH in Hrun. cbn. lia.
Qed.

(** X12.  Once a header line has been accepted, the first loop of
    [splitinfo] has one record per header line accepted, the text in front
    of the first of them being dropped: the list that it hands to the second
    loop is as long as the count of these lines.  When [splitinfo] returns,
    each of these records is either in the list returned or the subject of
    one line of diagnostics, never both and never neither. *)
Theorem splitinfo_one_record_per_header (filename : bytes) (fin : list bytes) :
  0 < index (scanned filename fin) ->
  len (split_done (scanned filename fin)) = index (scanned filename fin)
  /\ forall (out : list (bytes * bytes)) (err : list diagnostic),
       splitinfo filename fin = Ok (out, err) ->
       len out + len err
       = index (scanned filename fin) + len (stderr (scanned filename fin)).
Proof.
  intros Hi. destruct (scanned_inv filename fin) as (_ & _ & Hmore).
  destruct (Hmore Hi) as [Hn Hl].
  assert (Hdone : len (split_done (scanned filename fin)) = index (scanned filename fin)).
  { unfold split_done. destruct (String.eqb_spec (node (scanned filename fin)) "") as [E|_];
      [done|]. unfold len in *. rewrite length_app. cbn. lia. }
  split; [done|]. intros out err. unfold splitinfo. fold (scanned filename fin).
  intros Hrun. apply second_loop_length in Hrun. unfold len in *. cbn in Hrun. lia.
Qed.

(** X13.  A stream in which no header line is accepted, the empty stream
    among them, yields no document: [splitinfo] returns the empty list, the
    whole text being at most one record called [Unknown], which has no
    entry in the table. *)
Theorem splitinfo_without_header_is_empty (filename : bytes) (fin : list bytes) :
  index (scanned filename fin) = 0 ->
  exists err : list diagnostic, splitinfo filename fin = Ok ([], err).
Proof.
  intros Hi. destruct (scanned_inv filename fin) as (_ & Hzero & _).
  destruct (Hzero Hi) as (Hl & Hd & Hn).
  unfold splitinfo. fold (scanned filename fin). unfold split_done.
  rewrite Hl, Hd, Hn. destruct (String.eqb (node (scanned filename fin)) "").
  - by eexists.
  - cbn. by eexists.
Qed.

End InfoRecords.

Lemma splitinfo_one_record_per_header_witness :
  len (RclInfo.split_done (Orphans.scanned "f.info" NodeTable.three_nodes)) = 3
  /\ forall (out : list (bytes * bytes)) (err : list RclInfo.diagnostic),
       RclInfo.splitinfo "f.info" NodeTable.three_nodes = Ok (out, err) ->
       len out + len err
       = RclInfo.index (Orphans.scanned "f.info" NodeTable.three_nodes)
         + len (RclInfo.stderr (Orphans.scanned "f.info" NodeTable.three_nodes)).
Proof.
  apply (splitinfo_one_record_per_header "f.info" NodeTable.three_nodes).
  vm_compute. reflexivity.
Defined.

Lemma splitinfo_without_header_is_empty_witness :
  exists err : list RclInfo.diagnostic,
    RclInfo.splitinfo "f.info" [NodeTable.ln "no header here"; NodeTable.ln "File: late"]
    = Ok ([], err).
Proof.
  apply (splitinfo_without_header_is_empty "f.info"
           [NodeTable.ln "no header here"; NodeTable.ln "File: late"]).
  reflexivity.
Defined.

(** ** [rclics.py]: the splitter *)

Section IcsSplitter.
Import RclIcs Calendar Catenation.

Lemma fields_blank (line : bytes) : Py.rstrip whitespace line = "" -> fields line = None.
Proof. unfold fields. by intros ->. Qed.

Lemma interesting_not_empty (name : bytes) : name ∈ interesting -> name <> "".
Proof.
  unfold interesting. intros Hin ->.
  repeat (apply elem_of_cons in Hin as [Hin|Hin]; [discriminate Hin|]).
  by apply elem_of_nil in Hin.
Qed.

Lemma step_outside (st : blocks) (line : bytes) :
  curblkname st = "" -> opens line = false -> split_step st line = st.
Proof.
  destruct st as [n c l]. cbn. intros ->. unfold opens, fields, split_step. cbn.
  destruct (String.eqb (Py.rstrip whitespace line) ""); [done|].
  destruct (Py.split ":" (Py.rstrip whitespace line)) as [|l0 [|l1 ls]]; [done|done|].
  destruct (String.eqb (upper l0) "BEGIN"); cbn; [|done].
  by intros ->.
Qed.

Lemma step_open (st : blocks) (line : bytes) :
  curblkname st = "" -> curblk st = "" -> opens line = true ->
  name_of line <> ""
  /\ split_step st line
     = {| curblkname := name_of line; curblk := piece line; lo := lo st |}.
Proof.
  destruct st as [n c l]. cbn. intros -> ->.
  unfold opens, name_of, piece, split_step. cbn.
  destruct (String.eqb_spec (Py.rstrip whitespace line) "") as [E|_].
  { by rewrite (fields_blank _ E). }
  unfold fields.
  destruct (Py.split ":" (Py.rstrip whitespace line)) as [|l0 [|l1 ls]]; [done|done|].
  intros Hopen. apply andb_true_iff in Hopen as [Hkey Hname].
  apply String.eqb_eq in Hkey. rewrite Hkey, Hname. cbn.
  apply bool_decide_eq_true_1, interesting_not_empty in Hname. split; [done|].
  by rewrite andb_false_r.
Qed.

Lemma step_inside (st : blocks) (line : bytes) :
  curblkname st <> "" -> closes (curblkname st) line = false ->
  split_step st line
  = {| curblkname := curblkname st; curblk := curblk st ++ piece line; lo := lo st |}.
Proof.
  destruct st as [n c l]. cbn. intros Hn.
  unfold closes, piece, split_step. cbn.
  destruct (String.eqb_spec (Py.rstrip whitespace line) "") as [E|_].
  { by rewrite str_app_nil_r. }
  apply String.eqb_neq in Hn. rewrite Hn. cbn. unfold fields.
  destruct (Py.split ":" (Py.rstrip whitespace line)) as [|l0 [|l1 ls]]; [done|done|].
  rewrite Hn. cbn. by intros ->.
Qed.

Lemma step_close (st : blocks) (line : bytes) :
  curblkname st <> "" -> closes (curblkname st) line = true ->
  split_step st line
  = {| curblkname := ""; curblk := ""; lo := lo st ++ [curblk st ++ piece line] |}.
Proof.
  destruct st as [n c l]. cbn. intros Hn.
  unfold closes, piece, split_step. cbn.
  destruct (String.eqb_spec (Py.rstrip whitespace line) "") as [E|_].
  { by rewrite (fields_blank _ E). }
  apply String.eqb_neq in Hn. rewrite Hn. cbn. unfold fields.
  destruct (Py.split ":" (Py.rstrip whitespace line)) as [|l0 [|l1 ls]]; [done|done|].
  rewrite Hn. cbn. by intros ->.
Qed.

Lemma well_started_app (blk more : bytes) : well_started blk -> well_started (blk ++ more).
Proof.
  intros (line & rest & Hopen & ->). exists line, (rest ++ more).
  split; [done|]. by rewrite str_app_assoc.
Qed.

Lemma split_step_inv (st : blocks) (line : bytes) :
  loop_inv st -> loop_inv (split_step st line).
Proof.
  intros (Hout & Hin & Hlo).
  destruct (String.eqb_spec (curblkname st) "") as [E|E].
  - destruct (opens line) eqn:Hopen.
    + destruct (step_open st line E (Hout E) Hopen) as [Hname ->].
      split_and!; cbn; [done| |done]. intros _. exists line, "".
      split; [done|]. by rewrite str_app_nil_r.
    + rewrite (step_outside st line E Hopen). by split_and!.
  - destruct (closes (curblkname st) line) eqn:Hclose.
    + rewrite (step_close st line E Hclose). split_and!; cbn; [done|done|].
      apply Forall_app. split; [done|]. constructor; [|done].
      by apply well_started_app, Hin.
    + rewrite (step_inside st line E Hclose). split_and!; cbn; [done| |done].
      intros _. by apply well_started_app, Hin.
Qed.

Lemma fold_split_step_inv (fin : list bytes) (st : blocks) :
  loop_inv st -> loop_inv (fold_left split_step fin st).
Proof.
  revert st. induction fin as [|line fin IH]; intros st Hst; cbn [fold_left]; [done|].
  by apply IH, split_step_inv.
Qed.

(** X14.  Whatever the lines of the file are, every document that
    [splitcalendar] returns starts with a line that opens a block: a line
    whose first field is BEGIN and whose second field is VTODO, VEVENT or
    VJOURNAL, in any case, without its trailing whitespace and followed by a
    newline.  No document is empty, and text outside of such a block is in
    no document. *)
Theorem splitcalendar_blocks_well_started (fin : list bytes) :
  Forall well_started (splitcalendar fin).
Proof.
  unfold splitcalendar. cbv zeta.
  assert (Hinit : loop_inv split_init) by (by split_and!).
  destruct (fold_split_step_inv fin split_init Hinit) as (Hout & Hin & Hlo).
  destruct (String.eqb_spec (curblk (fold_left split_step fin split_init)) "") as [E|E];
    cbn [negb]; [done|].
  apply Forall_app. split; [done|]. constructor; [|done].
  apply Hin. intros Hn. by apply E, Hout.
Qed.

Lemma fold_outside (junk : list bytes) (st : blocks) :
  curblkname st = "" ->
  Forall (fun line : bytes => opens line = false) junk ->
  fold_left split_step junk st = st.
Proof.
  intros Hn. induction 1 as [|line junk Hline _ IH]; cbn [fold_left]; [done|].
  by rewrite (step_outside st line Hn Hline).
Qed.

Lemma fold_inside (body : list bytes) (name blk : bytes) (l : list bytes) :
  name <> "" ->
  Forall (fun line : bytes => closes name line = false) body ->
  fold_left split_step body {| curblkname := name; curblk := blk; lo := l |}
  = {| curblkname := name; curblk := blk ++ render body; lo := l |}.
Proof.
  intros Hn Hbody. revert blk.
  induction Hbody as [|line body Hline _ IH]; intros blk; cbn [fold_left].
  - unfold render. cbn. by rewrite str_app_nil_r.
  - rewrite (step_inside {| curblkname := name; curblk := blk; lo := l |} line Hn Hline).
    cbn [curblkname curblk lo]. rewrite IH.
    unfold render. cbn [map]. by rewrite cat_cons, str_app_assoc.
Qed.

(** The blocks already emitted are carried along. *)
Lemma split_step_emitted (st : blocks) (pre : list bytes) (line : bytes) :
  split_step {| curblkname := curblkname st; curblk := curblk st; lo := pre ++ lo st |} line
  = {| curblkname := curblkname (split_step st line);
       curblk := curblk (split_step st line);
       lo := pre ++ lo (split_step st line) |}.
Proof.
  destruct st as [n c l]. unfold split_step. cbn.
  destruct (String.eqb (Py.rstrip whitespace line) ""); [done|].
  destruct (Py.split ":" (Py.rstrip whitespace line)) as [|l0 [|l1 ls]]; [done|done|].
  destruct (String.eqb n "" && String.eqb (upper l0) "BEGIN").
  - destruct (bool_decide (upper l1 ∈ interesting));
      match goal with |- context [if ?b then _ else _] => destruct b end;
      cbn; by rewrite ?app_assoc.
  - match goal with |- context [if ?b then _ else _] => destruct b end;
      cbn; by rewrite ?app_assoc.
Qed.

Lemma fold_split_step_emitted (fin : list bytes) (st : blocks) (pre : list bytes) :
  fold_left split_step fin
    {| curblkname := curblkname st; curblk := curblk st; lo := pre ++ lo st |}
  = {| curblkname := curblkname (fold_left split_step fin st);
       curblk := curblk (fold_left split_step fin st);
       lo := pre ++ lo (fold_left split_step fin st) |}.
Proof.
  revert st. induction fin as [|line fin IH]; intros st; cbn [fold_left]; [done|].
  by rewrite split_step_emitted, IH.
Qed.

(** X15.  What [splitcalendar] makes of a block: the lines in front of it
    that open nothing are dropped; from the line that opens it to the first
    line that closes it, an END line with the name of the block, every line
    that is not blank goes in the document, without its trailing whitespace
    and with a newline, a nested BEGIN line like the others; and the lines
    that follow are split as a file of their own.  A block that the end of
    the file leaves open is emitted as it is. *)
Theorem splitcalendar_extracts_block (junk body rest : list bytes) (b e : bytes) :
  Forall (fun line : bytes => opens line = false) junk ->
  opens b = true ->
  Forall (fun line : bytes => closes (name_of b) line = false) body ->
  closes (name_of b) e = true ->
  splitcalendar (junk ++ b :: body ++ e :: rest)
  = render (b :: body ++ [e]) :: splitcalendar rest
  /\ splitcalendar (junk ++ b :: body) = [render (b :: body)].
Proof.
  intros Hjunk Hb Hbody He.
  destruct (step_open split_init b eq_refl eq_refl Hb) as [Hname Hopen].
  assert (Hpiece : piece b <> "").
  { unfold piece, opens in *. destruct (String.eqb_spec (Py.rstrip whitespace b) "") as [E|_].
    - by rewrite (fields_blank _ E) in Hb.
    - by destruct (Py.rstrip whitespace b). }
  split.
  - unfold splitcalendar. cbv zeta.
    rewrite fold_left_app, (fold_outside junk split_init eq_refl Hjunk).
    cbn [fold_left]. rewrite Hopen, fold_left_app, (fold_inside body _ _ _ Hname Hbody).
    cbn [fold_left].
    rewrite (step_close {| curblkname := name_of b; curblk := piece b ++ render body;
                           lo := lo split_init |} e Hname He).
    cbn [curblkname curblk lo split_init].
    pose proof (fold_split_step_emitted rest split_init
                  [(piece b ++ render body) ++ piece e]) as Hcarry.
    cbn [split_init curblkname curblk lo] in Hcarry. rewrite app_nil_r in Hcarry.
    rewrite app_nil_l, Hcarry. cbn [curblkname curblk lo].
    assert (Hblk : (piece b ++ render body) ++ piece e = render (b :: body ++ [e])).
    { unfold render. cbn [map]. rewrite cat_cons, map_app, cat_app. cbn [map].
      rewrite cat_cons. change (cat []) with "". by rewrite str_app_nil_r, str_app_assoc. }
    rewrite Hblk.
    by destruct (negb (String.eqb (curblk (fold_left split_step rest split_init)) "")).
  - unfold splitcalendar. cbv zeta.
    rewrite fold_left_app, (fold_outside junk split_init eq_refl Hjunk).
    cbn [fold_left]. rewrite Hopen, (fold_inside body _ _ _ Hname Hbody).
    cbn [curblkname curblk lo].
    assert (Hne : String.eqb (piece b ++ render body) "" = false).
    { apply String.eqb_neq. by destruct (piece b). }
    rewrite Hne. cbn [negb]. unfold render. cbn [map]. by rewrite cat_cons.
Qed.

End IcsSplitter.

Lemma splitcalendar_extracts_block_witness :
  RclIcs.splitcalendar Calendar.sample_calendar
  = Calendar.render
      (("begin:vevent  " ++ RclIcs.nl)
         :: [RclIcs.nl; "SUMMARY:Lunch" ++ RclIcs.nl] ++ ["END:VEVENT" ++ RclIcs.nl])
      :: RclIcs.splitcalendar ["END:VCALENDAR" ++ RclIcs.nl]
  /\ RclIcs.splitcalendar
       (["BEGIN:VCALENDAR" ++ RclIcs.nl; "BEGIN:VTIMEZONE" ++ RclIcs.nl;
         "END:VTIMEZONE" ++ RclIcs.nl]
        ++ ("begin:vevent  " ++ RclIcs.nl) :: [RclIcs.nl; "SUMMARY:Lunch" ++ RclIcs.nl])
     = [Calendar.render
          (("begin:vevent  " ++ RclIcs.nl) :: [RclIcs.nl; "SUMMARY:Lunch" ++ RclIcs.nl])].
Proof.
  apply (splitcalendar_extracts_block
           ["BEGIN:VCALENDAR" ++ RclIcs.nl; "BEGIN:VTIMEZONE" ++ RclIcs.nl;
            "END:VTIMEZONE" ++ RclIcs.nl]
           [RclIcs.nl; "SUMMARY:Lunch" ++ RclIcs.nl]
           ["END:VCALENDAR" ++ RclIcs.nl]
           ("begin:vevent  " ++ RclIcs.nl) ("END:VEVENT" ++ RclIcs.nl)).
  - repeat constructor.
  - reflexivity.
  - repeat constructor.
  - reflexivity.
Defined.

(** ** [rclkar.py]: null bytes, the event loop and the encoding *)

Section KarScan.
Import RclExecM RclKar Karaoke.
Context `{Library} `{Protocol}.

Lemma before_null_spec (data : bytes) :
  match before_null data with
  | Some d =>
      Py.has_char null d = false
      /\ Py.has_char null data = true
      /\ exists rest : bytes, data = d ++ String null rest
  | None => Py.has_char null data = false
  end.
Proof.
  induction data as [|c data IH]; cbn [before_null Py.has_char]; [done|].
  destruct (Ascii.eqb_spec c "000") as [->|Hc].
  - split_and!; [done|done|]. by exists data.
  - destruct (before_null data) as [d|].
    + destruct IH as (Hd & Hdata & rest & ->). cbn [Py.has_char].
      assert (E : Ascii.eqb c null = false) by by apply Ascii.eqb_neq.
      rewrite E, Hd, Hdata. split_and!; [done|done|]. by exists rest.
    + assert (E : Ascii.eqb c null = false) by by apply Ascii.eqb_neq.
      by rewrite E.
Qed.

(** X16.  [nulltrunc] cuts the data at its first null byte: what it returns
    has no null byte and is the part of the data in front of the first one;
    data without a null byte, the empty data among them, come back as they
    are.  [hadnulls] is set when a null byte is found and is never
    cleared. *)
Theorem nulltrunc_cuts_at_first_null (hadnulls0 : bool) (data : bytes) :
  Py.has_char null (nulltrunc hadnulls0 data).1 = false
  /\ (nulltrunc hadnulls0 data).2 = hadnulls0 || Py.has_char null data
  /\ (Py.has_char null data = false -> (nulltrunc hadnulls0 data).1 = data)
  /\ (Py.has_char null data = true ->
      exists rest : bytes, data = (nulltrunc hadnulls0 data).1 ++ String null rest).
Proof.
  unfold nulltrunc. pose proof (before_null_spec data) as Hspec.
  destruct (before_null data) as [d|]; cbn [fst snd].
  - destruct Hspec as (Hd & Hdata & rest & Heq). rewrite Hdata.
    split_and!; [done|by rewrite orb_true_r|done|]. intros _. by exists rest.
  - rewrite Hspec. split_and!; [done|by rewrite orb_false_r|done|done].
Qed.

Lemma has_char_app (c : ascii) (a b : string) :
  Py.has_char c (a ++ b) = Py.has_char c a || Py.has_char c b.
Proof.
  induction a as [|d a IH]; [done|].
  change (String d a ++ b) with (String d (a ++ b)). cbn [Py.has_char].
  by rewrite IH, orb_assoc.
Qed.

Lemma nulltrunc_clean (h : bool) (data : bytes) :
  Py.has_char null (nulltrunc h data).1 = false.
Proof.
  unfold nulltrunc. pose proof (before_null_spec data) as Hspec.
  destruct (before_null data); cbn [fst]; [by destruct Hspec|done].
Qed.

Lemma nulltrunc_same (h : bool) (data : bytes) :
  (nulltrunc h data).2 = false -> h = false /\ (nulltrunc h data).1 = data.
Proof.
  unfold nulltrunc. destruct (before_null data); cbn [fst snd]; [done|]. by intros ->.
Qed.

Lemma add_lyrics_inv (st : scan) (edata : bytes) :
  scan_inv st -> scan_inv (add_lyrics st edata).
Proof.
  intros (Hl & Ht & Ha & Hg & Hsame). unfold add_lyrics.
  pose proof (nulltrunc_clean (hadnulls st) edata) as Hclean.
  pose proof (nulltrunc_same (hadnulls st) edata) as Hkeep.
  destruct (nulltrunc (hadnulls st) edata) as [t h]. cbn [fst snd] in *.
  split_and!; cbn; [by rewrite has_char_app, Hl, Hclean|done|done|done|].
  intros Hh. destruct (Hkeep Hh) as [Hst ->]. destruct (Hsame Hst) as (-> & -> & ->).
  done.
Qed.

Lemma set_nl_inv (st : scan) (v : option bytes) :
  scan_inv st ->
  scan_inv {| title := title st; author := author st; language := language st;
              titleN := titleN st; authorN := authorN st; nl := v;
              lyrics := lyrics st; lyricsN := lyricsN st; hadnulls := hadnulls st |}.
Proof. intros Hinv. exact Hinv. Qed.

Lemma scan_event_inv (st st' : scan) (ev : event) :
  scan_inv st -> scan_event st ev = Ok st' -> scan_inv st'.
Proof.
  intros Hinv. pose proof Hinv as (Hl & Ht & Ha & Hg & Hsame).
  destruct ev as [data|data|data|]; cbn [scan_event].
  - destruct data as [|d0 rest]; [by intros [= <-]|].
    destruct (is_slash d0); [intros [= <-]; by apply add_lyrics_inv|].
    destruct (is_bracket d0); [intros [= <-]; by apply add_lyrics_inv|].
    destruct (Ascii.eqb d0 "@"); [|intros [= <-]; by apply add_lyrics_inv].
    destruct rest as [|d1 rest2]; [by intros [= <-]|].
    destruct (Ascii.eqb d1 "I"); [intros [= <-]; by apply add_lyrics_inv|].
    pose proof (nulltrunc_clean (hadnulls st) rest2) as Hclean.
    pose proof (nulltrunc_same (hadnulls st) rest2) as Hkeep.
    destruct (Ascii.eqb d1 "L").
    { destruct (nulltrunc (hadnulls st) rest2) as [t h]. cbn [fst snd] in *.
      intros [= <-]. apply add_lyrics_inv. split_and!; cbn; [done|done|done| |].
      - by intros t' [= <-].
      - intros Hh. destruct (Hkeep Hh) as [Hst _]. by apply Hsame. }
    destruct (Ascii.eqb d1 "T"); [|intros [= <-]; by apply add_lyrics_inv].
    destruct (title st) as [t0|] eqn:Htitle.
    + destruct (author st) as [a0|] eqn:Hauthor; [intros [= <-]; by apply add_lyrics_inv|].
      destruct (nulltrunc (hadnulls st) rest2) as [t h]. cbn [fst snd] in *.
      intros [= <-]. apply add_lyrics_inv. split_and!; cbn; [done| | |done|].
      * intros t' [= <-]. by apply Ht.
      * by intros t' [= <-].
      * intros Hh. destruct (Hkeep Hh) as [Hst ->]. destruct (Hsame Hst) as (Hl' & Ht' & _).
        split_and!; [done|by rewrite <- Ht'|done].
    + destruct (nulltrunc (hadnulls st) rest2) as [t h]. cbn [fst snd] in *.
      intros [= <-]. apply add_lyrics_inv. split_and!; cbn; [done| |done|done|].
      * by intros t' [= <-].
      * intros Hh. destruct (Hkeep Hh) as [Hst ->]. destruct (Hsame Hst) as (Hl' & _ & Ha').
        split_and!; [done|done|done].
  - destruct data as [|d0 rest]; [by intros [= <-]|].
    destruct (nl st) as [v|]; cbn [of_option mbind res_bind]; [|done].
    destruct (is_slash d0); intros [= <-]; by apply add_lyrics_inv.
  - destruct data as [|d0 rest]; [intros [= <-]; by apply set_nl_inv|].
    cbn [nl of_option mbind res_bind].
    destruct (is_slash d0); intros [= <-]; by apply add_lyrics_inv, set_nl_inv.
  - intros [= <-]. by apply add_lyrics_inv.
Qed.

Lemma scan_events_inv (events : list event) (st st' : scan) :
  scan_inv st -> foldM scan_event events st = Ok st' -> scan_inv st'.
Proof.
  revert st. induction events as [|ev events IH]; intros st Hinv; cbn [foldM].
  - by intros [= <-].
  - destruct (scan_event st ev) as [st1|e] eqn:Hev; cbn [mbind res_bind]; [|done].
    apply IH. by eapply scan_event_inv.
Qed.

(** X17.  Whatever the events are, when the loop of [html_text] ends the
    lyrics kept for the second guess, the title, the author and the language
    have no null byte; and when no null byte was met ([hadnulls] is still
    false) the truncated lyrics, title and author are the same texts as the
    copies kept with their null bytes. *)
Theorem scan_keeps_texts_without_null (events : list event) (st : scan) :
  foldM scan_event events scan_init = Ok st ->
  Py.has_char null (lyrics st) = false
  /\ (forall t : bytes, title st = Some t -> Py.has_char null t = false)
  /\ (forall t : bytes, author st = Some t -> Py.has_char null t = false)
  /\ (forall t : bytes, language st = Some t -> Py.has_char null t = false)
  /\ (hadnulls st = false ->
      lyrics st = lyricsN st /\ title st = titleN st /\ author st = authorN st).
Proof.
  apply scan_events_inv. by split_and!.
Qed.

Lemma scan_event_bound (st : scan) (ev : event) (v : bytes) :
  nl st = Some v -> exists st' : scan, scan_event st ev = Ok st' /\ is_Some (nl st').
Proof.
  intros Hnl. destruct ev as [data|data|data|]; cbn [scan_event].
  - destruct data as [|d0 rest]; [by eexists|].
    destruct (is_slash d0); [eexists; split; [done|]; unfold add_lyrics;
      destruct (nulltrunc _ _); cbn; by rewrite Hnl|].
    destruct (is_bracket d0); [eexists; split; [done|]; unfold add_lyrics;
      destruct (nulltrunc _ _); cbn; by rewrite Hnl|].
    destruct (Ascii.eqb d0 "@");
      [|eexists; split; [done|]; unfold add_lyrics;
        destruct (nulltrunc _ _); cbn; by rewrite Hnl].
    destruct rest as [|d1 rest2]; [by eexists|].
    destruct (Ascii.eqb d1 "I"); [eexists; split; [done|]; unfold add_lyrics;
      destruct (nulltrunc _ _); cbn; by rewrite Hnl|].
    destruct (Ascii.eqb d1 "L").
    { destruct (nulltrunc (hadnulls st) rest2) as [t h]. eexists; split; [done|].
      unfold add_lyrics. destruct (nulltrunc _ _); cbn; by rewrite Hnl. }
    destruct (Ascii.eqb d1 "T");
      [|eexists; split; [done|]; unfold add_lyrics;
        destruct (nulltrunc _ _); cbn; by rewrite Hnl].
    destruct (title st), (author st); destruct (nulltrunc (hadnulls st) rest2) as [t h];
      (eexists; split; [done|]); unfold add_lyrics; destruct (nulltrunc _ _); cbn;
      by rewrite Hnl.
  - destruct data as [|d0 rest]; [by eexists|].
    rewrite Hnl. cbn [of_option mbind res_bind].
    destruct (is_slash d0); (eexists; split; [done|]); unfold add_lyrics;
      destruct (nulltrunc _ _); cbn; by rewrite Hnl.
  - destruct data as [|d0 rest]; [by eexists|].
    cbn [nl of_option mbind res_bind].
    destruct (is_slash d0); (eexists; split; [done|]); unfold add_lyrics;
      destruct (nulltrunc _ _); by cbn.
  - eexists; split; [done|]. unfold add_lyrics. destruct (nulltrunc _ _); cbn; by rewrite Hnl.
Qed.

Lemma scan_events_bound (events : list event) (st : scan) :
  is_Some (nl st) -> exists st' : scan, foldM scan_event events st = Ok st'.
Proof.
  revert st. induction events as [|ev events IH]; intros st [v Hnl]; cbn [foldM].
  - by eexists.
  - destruct (scan_event_bound st ev v Hnl) as (st1 & -> & Hnl1). cbn [mbind res_bind].
    by apply IH.
Qed.

Lemma scan_event_unbound (st : scan) (ev : event) :
  nl st = None ->
  match ev with
  | TrackNameEvent _ => exists st' : scan, scan_event st ev = Ok st' /\ is_Some (nl st')
  | LryricsEvent (String _ _) => scan_event st ev = Raise UnboundLocalError
  | _ => exists st' : scan, scan_event st ev = Ok st' /\ nl st' = None
  end.
Proof.
  intros Hnl. destruct ev as [data|data|data|]; cbn [scan_event].
  - destruct data as [|d0 rest]; [by eexists|].
    destruct (is_slash d0); [eexists; split; [done|]; unfold add_lyrics;
      destruct (nulltrunc _ _); by cbn|].
    destruct (is_bracket d0); [eexists; split; [done|]; unfold add_lyrics;
      destruct (nulltrunc _ _); by cbn|].
    destruct (Ascii.eqb d0 "@");
      [|eexists; split; [done|]; unfold add_lyrics; destruct (nulltrunc _ _); by cbn].
    destruct rest as [|d1 rest2]; [by eexists|].
    destruct (Ascii.eqb d1 "I"); [eexists; split; [done|]; unfold add_lyrics;
      destruct (nulltrunc _ _); by cbn|].
    destruct (Ascii.eqb d1 "L").
    { destruct (nulltrunc (hadnulls st) rest2) as [t h]. eexists; split; [done|].
      unfold add_lyrics. destruct (nulltrunc _ _); by cbn. }
    destruct (Ascii.eqb d1 "T");
      [|eexists; split; [done|]; unfold add_lyrics; destruct (nulltrunc _ _); by cbn].
    destruct (title st), (author st); destruct (nulltrunc (hadnulls st) rest2) as [t h];
      (eexists; split; [done|]); unfold add_lyrics; destruct (nulltrunc _ _); by cbn.
  - destruct data as [|d0 rest]; [by eexists|].
    by rewrite Hnl.
  - destruct data as [|d0 rest]; [by eexists|].
    cbn [nl of_option mbind res_bind].
    destruct (is_slash d0); (eexists; split; [done|]); unfold add_lyrics;
      destruct (nulltrunc _ _); by cbn.
  - eexists; split; [done|]. unfold add_lyrics. destruct (nulltrunc _ _); by cbn.
Qed.

Lemma scan_events_unbound (events : list event) (st : scan) :
  nl st = None ->
  if lyrics_before_track_name events
  then foldM scan_event events st = Raise UnboundLocalError
  else exists st' : scan, foldM scan_event events st = Ok st'.
Proof.
  revert st. induction events as [|ev events IH]; intros st Hnl;
    cbn [foldM lyrics_before_track_name]; [by eexists|].
  pose proof (scan_event_unbound st ev Hnl) as Hev.
  destruct ev as [data|[|d0 rest]|data|].
  - destruct Hev as (st1 & -> & Hnl1). cbn [mbind res_bind]. by apply IH.
  - destruct Hev as (st1 & -> & Hnl1). cbn [mbind res_bind]. by apply IH.
  - by rewrite Hev.
  - destruct Hev as (st1 & -> & Hnl1). cbn [mbind res_bind]. by apply scan_events_bound.
  - destruct Hev as (st1 & -> & Hnl1). cbn [mbind res_bind]. by apply IH.
Qed.

(** X18.  [html_text] reads [nl] in the round of every lyrics event that has
    data, and binds it in the round of a track name event only.  A stream in
    which such a lyrics event comes before any track name event makes
    [html_text] raise [UnboundLocalError], whatever the file name and the
    fallback encoding; on every other stream the loop over the events
    ends. *)
Theorem lyrics_before_track_name_unbound (events : list event) :
  (lyrics_before_track_name events = true ->
   forall (defaultencoding : string) (filename : bytes),
     html_text defaultencoding filename events = Raise UnboundLocalError)
  /\ (lyrics_before_track_name events = false ->
      exists st : scan, foldM scan_event events scan_init = Ok st).
Proof.
  pose proof (scan_events_unbound events scan_init eq_refl) as Hscan.
  destruct (lyrics_before_track_name events).
  - split; [|done]. intros _ d fn. unfold html_text. by rewrite Hscan.
  - split; [done|]. by intros _.
Qed.

End KarScan.


Lemma nulltrunc_cuts_at_first_null_witness :
  (RclKar.nulltrunc false (String "l" (String "a" (String Karaoke.null "junk")))).1 = "la"
  /\ exists rest : bytes,
       String "l" (String "a" (String Karaoke.null "junk"))
       = (RclKar.nulltrunc false (String "l" (String "a" (String Karaoke.null "junk")))).1
         ++ String Karaoke.null rest.
Proof.
  split; [reflexivity|].
  apply (nulltrunc_cuts_at_first_null false
           (String "l" (String "a" (String Karaoke.null "junk")))).
  reflexivity.
Defined.

Lemma scan_keeps_texts_without_null_witness :
  exists st : RclKar.scan,
    foldM RclKar.scan_event
      [RclKar.TrackNameEvent "Song";
       RclKar.LryricsEvent (String "l" (String "a" (String Karaoke.null "junk")))]
      RclKar.scan_init
    = Ok st
    /\ RclKar.hadnulls st = true
    /\ Py.has_char Karaoke.null (RclKar.lyrics st) = false
    /\ Py.has_char Karaoke.null (RclKar.lyricsN st) = true.
Proof.
  eexists. split; [reflexivity|]. split; [reflexivity|]. split; [|reflexivity].
  apply (scan_keeps_texts_without_null
           [RclKar.TrackNameEvent "Song";
            RclKar.LryricsEvent (String "l" (String "a" (String Karaoke.null "junk")))]).
  reflexivity.
Defined.

Lemma lyrics_before_track_name_unbound_witness :
  RclKar.html_text (H := Sample.kar_library) (H0 := Sample.protocol) "cp1252" "song.kar"
    [RclKar.TextMetaEvent "@TSong"; RclKar.LryricsEvent "la"; RclKar.TrackNameEvent "Words"]
  = Raise UnboundLocalError
  /\ exists st : RclKar.scan,
       foldM RclKar.scan_event
         [RclKar.TrackNameEvent "Words"; RclKar.LryricsEvent "la"] RclKar.scan_init
       = Ok st.
Proof.
  split.
  - apply (proj1 (lyrics_before_track_name_unbound (H := Sample.kar_library)
                    (H0 := Sample.protocol)
                    [RclKar.TextMetaEvent "@TSong"; RclKar.LryricsEvent "la";
                     RclKar.TrackNameEvent "Words"])).
    reflexivity.
  - apply (proj2 (lyrics_before_track_name_unbound (H := Sample.kar_library)
                    (H0 := Sample.protocol)
                    [RclKar.TrackNameEvent "Words"; RclKar.LryricsEvent "la"])).
    reflexivity.
Defined.

Section KarGuess.
Import RclExecM RclKar Karaoke.
Context `{Library} `{Protocol}.

Lemma init_defaultencoding_not_empty (fsencoding : res (option string))
  (sysdefault : string) :
  init_defaultencoding fsencoding sysdefault <> "".
Proof.
  unfold init_defaultencoding.
  set (d := match fsencoding with Ok (Some e) => e | Ok None => sysdefault | Raise _ => "" end).
  unfold codecs_lookup. destruct (String.eqb_spec d "") as [E|E]; cbn [orb].
  - by destruct (codecs_known "cp1252").
  - destruct (has_sub "ascii" (str_lower d)); [by destruct (codecs_known "cp1252")|].
    by destruct (codecs_known d).
Qed.

(** X19.  The fallback encoding that [KarTextExtractor.__init__] computes is
    never the empty name: it is [cp1252], or it is the name that the
    environment gave, and then this name has no [ascii] in it, in any case,
    and is a codec that Python knows.  So when [cp1252] is a codec, the
    fallback always is one. *)
Theorem init_defaultencoding_usable (fsencoding : res (option string)) (sysdefault : string) :
  init_defaultencoding fsencoding sysdefault <> ""
  /\ (init_defaultencoding fsencoding sysdefault = "cp1252"
      \/ (has_sub "ascii" (str_lower (init_defaultencoding fsencoding sysdefault)) = false
          /\ codecs_known (init_defaultencoding fsencoding sysdefault) = true
          /\ (fsencoding = Ok (Some (init_defaultencoding fsencoding sysdefault))
              \/ (fsencoding = Ok None
                  /\ sysdefault = init_defaultencoding fsencoding sysdefault))))
  /\ (codecs_known "cp1252" = true ->
      codecs_known (init_defaultencoding fsencoding sysdefault) = true).
Proof.
  unfold init_defaultencoding.
  set (d := match fsencoding with Ok (Some e) => e | Ok None => sysdefault | Raise _ => "" end).
  assert (Hd : d = "" \/ fsencoding = Ok (Some d) \/ (fsencoding = Ok None /\ sysdefault = d)).
  { subst d. destruct fsencoding as [[e|]|e]; auto. }
  destruct (String.eqb_spec d "") as [E|E]; cbn [orb].
  - unfold codecs_lookup. destruct (codecs_known "cp1252") eqn:Hk; split_and!; auto; done.
  - destruct (has_sub "ascii" (str_lower d)) eqn:Hascii.
    + unfold codecs_lookup. destruct (codecs_known "cp1252") eqn:Hk; split_and!; auto; done.
    + unfold codecs_lookup. destruct (codecs_known d) eqn:Hk.
      * split_and!; [done| |done]. right. split_and!; [done|done|].
        destruct Hd as [?|Hd]; done.
      * split_and!; [done|by left|done].
Qed.

Lemma guess_encoding_named (defaultencoding e0 : string) (st st' : scan) (enc : pystr) :
  defaultencoding <> "" ->
  guess_encoding defaultencoding (PStr e0) st = Ok (enc, st') ->
  exists name : string, enc = PStr name /\ name <> "".
Proof.
  intros Hd. unfold guess_encoding.
  assert (Hlast : forall (inner : string) (st1 : scan),
             (if bool_decide (PStr inner = PStr "") then Ok (PStr defaultencoding, st1)
              else Ok (PStr inner, st1)) = Ok (enc, st') ->
             exists name : string, enc = PStr name /\ name <> "").
  { intros inner st1. destruct (decide (PStr inner = PStr "")) as [E|E].
    - rewrite (bool_decide_eq_true_2 _ E). intros [= <- <-]. by exists defaultencoding.
    - rewrite (bool_decide_eq_false_2 _ E). intros [= <- <-]. exists inner.
      split; [done|]. by intros ->. }
  assert (Hsecond : forall (inner : string) (st1 : scan),
             ('(encoding, st2) ←
                (if bool_decide (PStr inner = PStr "") then
                   '(enc, confidence) ← chardet_detect (lyrics st1);
                   if negb (Qle_bool confidence (6 # 10)) then Ok (PStr enc, st1)
                   else Ok (PStr inner, st1)
                 else Ok (PStr inner, st1));
              if bool_decide (encoding = PStr "") then Ok (PStr defaultencoding, st2)
              else Ok (encoding, st2)) = Ok (enc, st') ->
             exists name : string, enc = PStr name /\ name <> "").
  { intros inner st1. destruct (bool_decide (PStr inner = PStr "")).
    - destruct (chardet_detect (lyrics st1)) as [[e1 c1]|e]; cbn [mbind res_bind]; [|done].
      destruct (negb (Qle_bool c1 (6 # 10))); cbn [mbind res_bind]; apply Hlast.
    - cbn [mbind res_bind]. apply Hlast. }
  destruct (bool_decide (PStr e0 = PStr "") && has_chardet); [|cbn [mbind res_bind]; apply Hlast].
  destruct (hadnulls st).
  - destruct (chardet_detect (lyricsN st)) as [[e1 c1]|e]; cbn [mbind res_bind]; [|done].
    destruct (negb (Qle_bool c1 (6 # 10)) && bool_decide (str_lower e1 ∈ acceptnullencodings)).
    + destruct (titleN st) as [tN|]; cbn [of_option mbind res_bind]; [|done].
      destruct (authorN st) as [aN|]; cbn [of_option mbind res_bind]; [|done].
      apply Hsecond.
    + cbn [mbind res_bind]. apply Hsecond.
  - cbn [mbind res_bind]. apply Hsecond.
Qed.

(** X20.  Whenever [html_text] returns, with the fallback encoding that
    [__init__] computed, the encoding that it applies to the texts is a [str]
    name that is not empty: the detector's answer or the fallback, never a
    name taken from the file name. *)
Theorem html_text_encoding_named (fsencoding : res (option string)) (sysdefault : string)
  (filename : bytes) (events : list event) (enc : pystr)
  (texts : string * string * string * string) :
  html_text (init_defaultencoding fsencoding sysdefault) filename events = Ok (enc, texts) ->
  exists name : string, enc = PStr name /\ name <> "".
Proof.
  unfold html_text. rewrite filename_encoding_empty.
  destruct (foldM scan_event events scan_init) as [st|e]; cbn [mbind res_bind]; [|done].
  destruct (guess_encoding _ (PStr "") st) as [[enc1 st1]|e] eqn:Hguess;
    cbn [mbind res_bind]; [|done].
  intros [= <- _]. eapply guess_encoding_named; [|exact Hguess].
  apply init_defaultencoding_not_empty.
Qed.

(** X21.  The detector is asked about the lyrics as they are, and it can
    have no answer, as [chardet] has none for an empty text: when it reports
    no encoding for the lyrics of a stream without null bytes, [html_text]
    raises [AttributeError] instead of using the fallback encoding. *)
Theorem html_text_raises_without_detector_answer (defaultencoding : string)
  (filename : bytes) (events : list event) (st : scan) :
  has_chardet = true ->
  foldM scan_event events scan_init = Ok st ->
  hadnulls st = false ->
  (chardet_detect_raw (lyrics st)).1 = None ->
  html_text defaultencoding filename events = Raise AttributeError.
Proof.
  intros Hdet Hscan Hnulls Hraw. unfold html_text.
  rewrite filename_encoding_empty, Hscan. cbn [mbind res_bind].
  unfold guess_encoding. rewrite Hdet, Hnulls.
  rewrite bool_decide_eq_true_2 by done. cbn [andb mbind res_bind].
  rewrite bool_decide_eq_true_2 by done.
  unfold chardet_detect. destruct (chardet_detect_raw (lyrics st)) as [raw conf].
  cbn [fst] in Hraw. by rewrite Hraw.
Qed.

Lemma upto_close_app (g t : string) :
  Py.has_char ")" g = false -> upto_close (g ++ String ")" t) = Some (g, t).
Proof.
  induction g as [|c g IH]; [done|].
  change (String c g ++ String ")" t) with (String c (g ++ String ")" t)).
  cbn [Py.has_char upto_close]. intros Hc. apply orb_false_iff in Hc as [Hc Hg].
  by rewrite Hc, (IH Hg).
Qed.

Lemma letters_to_end_letters (ext : string) : letters ext = true -> letters_to_end ext = true.
Proof.
  unfold letters. induction ext as [|c ext IH]; [done|].
  cbn [list_ascii_of_string forallb letters_to_end]. intros Hl.
  apply andb_true_iff in Hl as [Hc Hext]. rewrite Hc. by apply IH.
Qed.

(** X22.  [encodingfromfilename] finds the name that a file name carries in
    the form that its comment describes: for a title without an opening
    parenthesis, a name between parentheses that is not empty and has no
    closing parenthesis in it, and an extension made of letters, it returns
    that name, as a bytes object. *)
Theorem encodingfromfilename_finds_name (title0 name ext : string) :
  Py.has_char "(" title0 = false ->
  name <> "" ->
  Py.has_char ")" name = false ->
  ext <> "" ->
  letters ext = true ->
  encodingfromfilename (title0 ++ String "(" (name ++ String ")" (String "." ext)))
  = PBytes name.
Proof.
  intros Htitle Hname Hclose Hext Hletters. unfold encodingfromfilename.
  assert (Hfound : filename_search (title0 ++ String "(" (name ++ String ")" (String "." ext)))
                   = Some name).
  { induction title0 as [|c title0 IH].
    - change ("" ++ ?x) with x. cbn [filename_search].
      rewrite (Ascii.eqb_refl "("), (upto_close_app name _ Hclose).
      destruct name as [|g0 g]; [done|].
      assert (Hx : extension (String "." ext) = true).
      { destruct ext as [|e0 ext]; [done|]. cbn [extension].
        unfold letters in Hletters. cbn [list_ascii_of_string forallb] in Hletters.
        apply andb_true_iff in Hletters as [He0 Hrest].
        rewrite (Ascii.eqb_refl "."), He0. cbn [andb].
        by apply letters_to_end_letters. }
      by rewrite Hx.
    - change (String c title0 ++ ?x) with (String c (title0 ++ x)).
      cbn [Py.has_char] in Htitle. apply orb_false_iff in Htitle as [Hc Ht].
      cbn [filename_search]. rewrite Hc. by apply IH. }
  by rewrite Hfound.
Qed.

End KarGuess.

Lemma init_defaultencoding_usable_witness :
  RclKar.init_defaultencoding (H := Sample.kar_library) (Ok (Some "US-ASCII")) "utf-8"
  = "cp1252"
  /\ RclKar.init_defaultencoding (H := Sample.kar_library) (Ok None) "utf-8" = "utf-8"
  /\ RclKar.codecs_known (Library := Sample.kar_library)
       (RclKar.init_defaultencoding (H := Sample.kar_library) (Ok (Some "koi8-r")) "utf-8")
     = true.
Proof.
  split; [reflexivity|]. split; [reflexivity|].
  apply (proj2 (proj2 (init_defaultencoding_usable (H := Sample.kar_library)
                         (Ok (Some "koi8-r")) "utf-8"))).
  reflexivity.
Defined.

Lemma html_text_encoding_named_witness :
  exists name : string, PStr "utf-8" = PStr name /\ name <> "".
Proof.
  eapply (html_text_encoding_named (H := Sample.kar_library) (H0 := Sample.protocol)
            (Ok None) "ascii" "song.kar"
            [RclKar.TrackNameEvent "Words"; RclKar.LryricsEvent "la"]
            (PStr "utf-8") _).
  vm_compute. reflexivity.
Defined.

Lemma html_text_raises_without_detector_answer_witness :
  RclKar.html_text (H := Karaoke.silent_library) (H0 := Sample.protocol) "cp1252" "song.kar" []
  = Raise AttributeError.
Proof.
  apply (html_text_raises_without_detector_answer (H := Karaoke.silent_library)
           (H0 := Sample.protocol) "cp1252" "song.kar" [] RclKar.scan_init);
    reflexivity.
Defined.

Lemma encodingfromfilename_finds_name_witness :
  RclKar.encodingfromfilename ("song " ++ String "(" ("cp1252" ++ String ")" (String "." "kar")))
  = PBytes "cp1252".
Proof.
  apply (encodingfromfilename_finds_name "song " "cp1252" "kar"); done.
Defined.

(** ** [rclzip.py]: one member *)

Section ZipMember.
Import RclExecM RclZip.
Context `{Protocol}.

(** X23.  A name that is not in the catalog of the archive makes
    [extractone] return a failure, not raise: the tuple has no data and
    echoes the address, nothing is read from the archive, nothing is logged
    and no field is set. *)
Theorem zip_unknown_member_fails_quietly (self : ZipExtractor) (z : ZipFile) (ipath : pystr) :
  zip self = Some z ->
  getinfo z ipath = None ->
  exists (e : eofstate) (self' : ZipExtractor),
    extractone self ipath = Ok ((false, PStr "", PBytes (makebytes ipath), e), self')
    /\ reads self' = reads self
    /\ rclog self' = rclog self
    /\ fields self' = fields self.
Proof.
  intros Hzip Hinfo. unfold extractone, fetch. rewrite Hzip, Hinfo.
  destruct (currentindex self >=? len (namelist z) - 1); by eexists _, _.
Qed.

(** X24.  For a member whose declared size is within [maxmembersize],
    [extractone] reads the archive once, under the address asked for.  When
    the read succeeds the tuple carries what was read and the [filename]
    field is set to the last component of the address; when the read raises,
    the call still returns, with a failure and without any field. *)
Theorem zip_member_read_once (self : ZipExtractor) (z : ZipFile) (ipath : pystr)
  (info : ZipInfo) :
  zip self = Some z ->
  getinfo z ipath = Some info ->
  file_size info <= maxmembersize self ->
  exists (okv : bool) (d : pystr) (e : eofstate) (self' : ZipExtractor),
    extractone self ipath = Ok ((okv, d, PBytes (makebytes ipath), e), self')
    /\ reads self' = (reads self ++ [ipath])%list
    /\ rclog self' = rclog self
    /\ match read z ipath with
       | Ok docdata =>
           okv = true /\ d = PBytes docdata
           /\ exists more : list (string * pystr),
                fields self' = (fields self ++ ("filename", basename ipath) :: more)%list
       | Raise _ => okv = false /\ d = PStr "" /\ fields self' = fields self
       end.
Proof.
  intros Hzip Hinfo Hsize. unfold extractone, fetch. rewrite Hzip, Hinfo.
  destruct (Z.gtb_spec (file_size info) (maxmembersize self)) as [?|_]; [lia|].
  destruct (read z ipath) as [docdata|err].
  - unfold set_member_fields. destruct (timestamp info) as [t|err];
      match goal with |- context [if ?b then _ else _] => destruct b end;
      eexists _, _, _, _; (split; [reflexivity|]); cbn;
      (split_and!; [done|done|done|done|]).
    + exists [("modificationdate", PStr t)]. by rewrite <- app_assoc.
    + exists [("modificationdate", PStr t)]. by rewrite <- app_assoc.
    + by exists [].
    + by exists [].
  - match goal with |- context [if ?b then _ else _] => destruct b end;
      eexists _, _, _, _; (split; [reflexivity|]); cbn; by split_and!.
Qed.

(** X25.  [extractone] never moves the cursor.  It closes the archive
    exactly when the tuple that it returns carries [eofnext], that is when
    the cursor is at or past the last member; from then on every further
    [extractone] on the extractor raises [AttributeError], there being no
    archive to ask, until the file is opened again. *)
Theorem zip_closed_after_last_member (self self' : ZipExtractor) (ipath : pystr)
  (okv : bool) (d i : pystr) (e : eofstate) :
  extractone self ipath = Ok ((okv, d, i, e), self') ->
  currentindex self' = currentindex self
  /\ (e = eofnext \/ e = noteof)
  /\ (e = eofnext ->
      zip self' = None
      /\ forall ipath' : pystr, extractone self' ipath' = Raise AttributeError)
  /\ (e = noteof -> zip self' = zip self)
  /\ (e = eofnext
      <-> exists z : ZipFile, zip self = Some z /\ len (namelist z) - 1 <= currentindex self).
Proof.
  unfold extractone at 1. destruct (zip self) as [z|] eqn:Hzip; [|done].
  assert (Hfetch : currentindex (fetch self z ipath).2 = currentindex self
                   /\ zip (fetch self z ipath).2 = zip self).
  { unfold fetch. destruct (getinfo z ipath) as [info|]; [|done].
    unfold set_member_fields.
    destruct (file_size info >? maxmembersize self).
    - by destruct (timestamp info).
    - destruct (read z ipath); [|done]. by destruct (timestamp info). }
  destruct (fetch self z ipath) as [[ok1 d1] self1]. cbn [snd] in Hfetch.
  destruct Hfetch as [Hidx Hz]. rewrite Hidx.
  destruct (Z.geb_spec (currentindex self) (len (namelist z) - 1)) as [Hge|Hlt].
  - intros [= <- <- <- <- <-]. cbn. split_and!; [done|by left| |done|].
    + intros _. split; [done|]. intros ipath'. reflexivity.
    + split; [|done]. intros _. exists z. split; [done|lia].
  - intros [= <- <- <- <- <-]. split_and!; [done|by right|done|by rewrite Hz, Hzip|].
    split; [done|]. intros (z' & [= <-] & Hle). lia.
Qed.

End ZipMember.

Lemma zip_unknown_member_fails_quietly_witness :
  exists (e : RclExecM.eofstate) (self' : RclZip.ZipExtractor),
    RclZip.extractone (H := Sample.protocol) Sample.zip_session (PStr "nosuch.txt")
    = Ok ((false, PStr "", PBytes "nosuch.txt", e), self')
    /\ RclZip.reads self' = []
    /\ RclZip.rclog self' = []
    /\ RclZip.fields self' = [].
Proof.
  apply (zip_unknown_member_fails_quietly (H := Sample.protocol) Sample.zip_session
           Sample.sample_zip (PStr "nosuch.txt"));
    reflexivity.
Defined.

Lemma zip_member_read_once_witness :
  exists (okv : bool) (d : pystr) (e : RclExecM.eofstate) (self' : RclZip.ZipExtractor),
    RclZip.extractone (H := Sample.protocol) Sample.zip_session (PStr "notes.txt")
    = Ok ((okv, d, PBytes "notes.txt", e), self')
    /\ RclZip.reads self' = [PStr "notes.txt"]
    /\ RclZip.rclog self' = []
    /\ (okv = true /\ d = PBytes "hello"
        /\ exists more : list (string * pystr),
             RclZip.fields self' = ("filename", PStr "notes.txt") :: more).
Proof.
  apply (zip_member_read_once (H := Sample.protocol) Sample.zip_session Sample.sample_zip
           (PStr "notes.txt")
           {| RclZip.file_size := 5; RclZip.timestamp := Ok "0" |});
    [reflexivity|reflexivity|cbn; lia].
Defined.

Lemma zip_closed_after_last_member_witness :
  exists self' : RclZip.ZipExtractor,
    RclZip.extractone (H := Sample.protocol)
      {| RclZip.zip := Some Sample.sample_zip; RclZip.currentindex := 1;
         RclZip.maxmembersize := 52428800; RclZip.rclog := []; RclZip.fields := [];
         RclZip.reads := [] |}
      (PStr "notes.txt")
    = Ok ((true, PBytes "hello", PBytes "notes.txt", RclExecM.eofnext), self')
    /\ RclZip.zip self' = None
    /\ RclZip.extractone (H := Sample.protocol) self' (PStr "notes.txt")
       = Raise AttributeError.
Proof.
  eexists. split; [reflexivity|].
  destruct (zip_closed_after_last_member (H := Sample.protocol)
              {| RclZip.zip := Some Sample.sample_zip; RclZip.currentindex := 1;
                 RclZip.maxmembersize := 52428800; RclZip.rclog := []; RclZip.fields := [];
                 RclZip.reads := [] |}
              _ (PStr "notes.txt") true (PBytes "hello") (PBytes "notes.txt")
              RclExecM.eofnext eq_refl)
    as (_ & _ & Hclosed & _).
  destruct (Hclosed eq_refl) as [Hzip Hraise]. split; [exact Hzip|apply Hraise].
Defined.

(** ** Sequential and direct access to the same document *)

Section SameDocument.
Import RclExecM.

(** X26.  In [rclinfo] and in [rclics] the document that [getnext] serves
    at position [i] of the contents list is the one that [getipath] serves
    for the address [i], at any cursor: the same success flag, the same data,
    namely the entry of the list at [i] (wrapped in the page template for
    [rclinfo], as it is for [rclics]), and the same address, the decimal
    text of [i].  [getnext] then moves the cursor by one; [getipath] leaves
    it where it is. *)
Theorem getnext_and_getipath_same_document :
  (forall (P : Protocol) (self other : RclInfo.InfoExtractor)
          (pre suf : list (bytes * bytes)) (nodename docdata : bytes),
      RclInfo.contents self = (pre ++ (nodename, docdata) :: suf)%list ->
      RclInfo.currentindex self = len pre ->
      RclInfo.contents other = RclInfo.contents self ->
      exists (e e' : eofstate) (self' other' : RclInfo.InfoExtractor),
        RclInfo.getnext self
        = Ok ((true, PBytes (RclInfo.page (htmlescape nodename) (htmlescape docdata)),
               PStr (str_of_int (len pre)), e), self')
        /\ RclInfo.getipath other (Ok (len pre))
           = Ok ((true, PBytes (RclInfo.page (htmlescape nodename) (htmlescape docdata)),
                  PStr (str_of_int (len pre)), e'), other')
        /\ RclInfo.currentindex self' = len pre + 1
        /\ RclInfo.currentindex other' = RclInfo.currentindex other)
  /\ (forall (self other : RclIcs.IcalExtractor) (pre suf : list bytes) (docdata : bytes)
             (ipath : bytes),
        RclIcs.contents self = (pre ++ docdata :: suf)%list ->
        RclIcs.currentindex self = len pre ->
        RclIcs.contents other = RclIcs.contents self ->
        ipath <> "" ->
        exists (e e' : eofstate) (self' other' : RclIcs.IcalExtractor),
          RclIcs.getnext self
          = Ok ((true, PBytes docdata, PStr (str_of_int (len pre)), e), self')
          /\ RclIcs.getipath other ipath (Ok (len pre))
             = Ok ((true, PBytes docdata, PStr (str_of_int (len pre)), e'), other')
          /\ RclIcs.currentindex self' = len pre + 1
          /\ RclIcs.currentindex other' = RclIcs.currentindex other).
Proof.
  split.
  - intros P self other pre suf nodename docdata Hc Hi Ho.
    assert (Hlen : len (RclInfo.contents self) = len pre + 1 + len suf).
    { rewrite Hc. unfold len. rewrite length_app. cbn. lia. }
    assert (0 <= len pre) by (unfold len; lia).
    assert (0 <= len suf) by (unfold len; lia).
    unfold RclInfo.getnext, RclInfo.getipath, RclInfo.extractone. rewrite Ho, Hi.
    destruct (Z.eqb_spec (len pre) (-1)) as [?|_]; [lia|].
    destruct (Z.geb_spec (len pre) (len (RclInfo.contents self))) as [?|_]; [lia|].
    rewrite Hc, py_index_middle. cbn. eexists _, _, _, _.
    split_and!; [reflexivity|reflexivity|cbn; lia|reflexivity].
  - intros self other pre suf docdata ipath Hc Hi Ho Hip.
    assert (Hlen : len (RclIcs.contents self) = len pre + 1 + len suf).
    { rewrite Hc. unfold len. rewrite length_app. cbn. lia. }
    assert (0 <= len pre) by (unfold len; lia).
    assert (0 <= len suf) by (unfold len; lia).
    unfold RclIcs.getnext, RclIcs.getipath, RclIcs.extractone. rewrite Ho, Hi.
    apply String.eqb_neq in Hip. rewrite Hip.
    destruct (Z.eqb_spec (len pre) (-1)) as [?|_]; [lia|].
    destruct (Z.geb_spec (len pre) (len (RclIcs.contents self))) as [?|_]; [lia|].
    rewrite Hc, py_index_middle. cbn. eexists _, _, _, _.
    split_and!; [reflexivity|reflexivity|cbn; lia|reflexivity].
Qed.

End SameDocument.

Lemma getnext_and_getipath_same_document_witness :
  exists (e e' : RclExecM.eofstate) (self' other' : RclIcs.IcalExtractor),
    RclIcs.getnext (RclIcs.set_currentindex Sample.ics_session 0)
    = Ok ((true, PBytes "BEGIN:VEVENT", PStr "0", e), self')
    /\ RclIcs.getipath Sample.ics_session "0" (Ok 0)
       = Ok ((true, PBytes "BEGIN:VEVENT", PStr "0", e'), other')
    /\ RclIcs.currentindex self' = 1
    /\ RclIcs.currentindex other' = -1.
Proof.
  apply (proj2 getnext_and_getipath_same_document
           (RclIcs.set_currentindex Sample.ics_session 0) Sample.ics_session
           [] [] "BEGIN:VEVENT" "0");
    done.
Defined.

(** ** [rclchm.py]: the application tag *)

Section ChmMarker.
Import RclExecM RclChm.
Context `{Library}.

Lemma sub_ci_without_match (p repl s : string) :
  Py.after_first_ci p s = None -> Py.sub_ci 0 p repl s = s.
Proof.
  induction s as [|c s IH]; [done|]. cbn [Py.after_first_ci Py.sub_ci].
  destruct (Py.match_ci p (String c s)); [done|]. intros Hs. by rewrite (IH Hs).
Qed.

(** X27.  The application tag of [rclchm] goes in front of a closing head
    tag: a document of the container that has no closing head tag, in any
    case, is returned by [getipath] byte for byte as it is stored, without
    the tag. *)
Theorem getipath_without_head_is_stored_text (self : rclCHM) (path doc : bytes)
  (ui : UnitInfo) (n : Z) :
  ResolveObject (chm self) path = Some ui ->
  RetrieveObject (chm self) ui = (n, doc) ->
  n > 0 ->
  Py.after_first_ci "</head>" doc = None ->
  exists e : eofstate, getipath self (PBytes path) = Ok (true, PBytes doc, PBytes path, e).
Proof.
  intros Hres Hret Hn Hhead. unfold getipath, extractone.
  cbn [as_bytes mbind res_bind]. rewrite Hres, Hret.
  destruct (Z.gtb_spec n 0) as [_|?]; [|lia].
  unfold headtagre_sub. rewrite (sub_ci_without_match _ _ _ Hhead). by eexists.
Qed.

End ChmMarker.

Lemma getipath_without_head_is_stored_text_witness :
  exists e : RclExecM.eofstate,
    RclChm.getipath (H := Sample.library) (Sample.opened false) (PBytes "/home.html")
    = Ok (true, PBytes "<a href=page1.html>", PBytes "/home.html", e).
Proof.
  apply (getipath_without_head_is_stored_text (H := Sample.library) (Sample.opened false)
           "/home.html" "<a href=page1.html>" 1%nat 19);
    [reflexivity|reflexivity|lia|reflexivity].
Defined.

(** ** [rclchm.py]: the links that the walker leaves alone *)

Section ChmLinks.
Import RclChm.
Context `{Library}.

(** X28.  The walker follows a link only when its URL has no scheme.  The
    test of the source also names the [ms-its] scheme, but it compares the
    method [lower] itself with the name, which is never equal: a link with
    any scheme, [ms-its] among them, leaves the contents list as it is, and
    no document is fetched for it. *)
Theorem walker_ignores_links_with_scheme
  (recurse : ChmWalker -> string -> list bytes -> option outcome) (self : rclCHM)
  (w : ChmWalker) (attrs : list (string * option string)) (href scheme p : string)
  (c : list bytes) :
  attr_last "href" (Some "") attrs = Some href ->
  urlparse_urlparse href = Ok (scheme, p) ->
  scheme <> "" ->
  walker_handle_starttag recurse self w ("a", attrs) c = Some (c, Ok ()).
Proof.
  intros Hattr Hparse Hscheme. unfold walker_handle_starttag, link_path.
  cbn [String.eqb Ascii.eqb negb]. rewrite Hattr. cbn [of_option mbind res_bind].
  rewrite Hparse. cbn [mbind res_bind].
  apply String.eqb_neq in Hscheme. by rewrite Hscheme.
Qed.

End ChmLinks.

Lemma walker_ignores_links_with_scheme_witness :
  RclChm.walker_handle_starttag (H := Discovery.scheme_library)
    (fun _ _ _ => None) (Sample.opened false)
    {| RclChm.path := "/home.html"; RclChm.dir := "/" |}
    ("a", [("href", Some "ms-its:f.chm::/page1.html")]) ["/home.html"]
  = Some (["/home.html"], Ok ()).
Proof.
  apply (walker_ignores_links_with_scheme (H := Discovery.scheme_library)
           (fun _ _ _ => None) (Sample.opened false)
           {| RclChm.path := "/home.html"; RclChm.dir := "/" |}
           [("href", Some "ms-its:f.chm::/page1.html")] "ms-its:f.chm::/page1.html"
           "ms-its" "f.chm::/page1.html" ["/home.html"]);
    [reflexivity|reflexivity|discriminate].
Defined.
